(** * Flappy-Bird clone: simulation core of [main1.py] and [mian.py]

    Shallow embedding of the bird physics, the pipe spawner, the score
    tracker, the input state machine and the high-score store, followed by
    the properties of the specification.

    Modelling conventions.
    - Python [int] is [Z]; [//] and [%] are [Z.div] and [Z.modulo] (both
      floor, as in Python) and raise [ZeroDivisionError] on a zero divisor.
    - Python [float] is modelled by exact rationals [Q]: rounding, infinities
      and NaN are outside the model.  [int(f)] truncates toward zero.
    - [min(a, b)] and [max(a, b)] are the builtin two-argument forms: the
      first argument is kept unless the second compares strictly
      smaller (larger).
    - A pygame [Surface] is reduced to its size; [Rect] follows pygame's
      integer rectangle arithmetic.
    - [random] is a stream of draws with a cursor; [math.sin] is a function
      parameter of the operations that call it.
    - [highscore.txt] is an optional text plus a flag telling whether it can
      be opened for writing. *)

From Stdlib Require Import ZArith QArith Qround List Ascii Bool Lia Lqa.
Import ListNotations.
Open Scope Z_scope.

(** ** Exceptions *)

Inductive exn : Type :=
| ZeroDivisionError
| ValueError.

Inductive result (A : Type) : Type :=
| Ok (a : A)
| Raise (e : exn).
Arguments Ok {A} a.
Arguments Raise {A} e.

Definition bind {A B : Type} (r : result A) (k : A -> result B) : result B :=
  match r with
  | Ok a => k a
  | Raise e => Raise e
  end.

Notation "x <- r ;; k" := (bind r (fun x => k))
  (at level 61, r at next level, right associativity).

(** ** Python numbers *)

Definition py_floordiv (a b : Z) : result Z :=
  if b =? 0 then Raise ZeroDivisionError else Ok (a / b).

Definition py_mod (a b : Z) : result Z :=
  if b =? 0 then Raise ZeroDivisionError else Ok (a mod b).

Definition Qltb (a b : Q) : bool := negb (Qle_bool b a).

(** [min(a, b)]: [b] if [b < a], else [a]. *)
Definition py_min (a b : Q) : Q := if Qltb b a then b else a.

(** [max(a, b)]: [b] if [b > a], else [a]. *)
Definition py_max (a b : Q) : Q := if Qltb a b then b else a.

(** [int(f)] for a float [f]: truncation toward zero. *)
Definition py_int (q : Q) : Z := Z.quot (Qnum q) (Z.pos (Qden q)).

(** [int(n * 0.25)] for an integer [n]: the product is exact in binary
    floating point (for [|n| < 2^53]), so the result is [n] quartered and
    truncated. *)
Definition int_quarter (n : Z) : Z := py_int (inject_Z n * (1 # 4)).

(** ** pygame: surfaces and rectangles *)

Record Surface : Type := mkSurface {
  get_width : Z;
  get_height : Z
}.

Record Rect : Type := mkRect {
  rect_x : Z;
  rect_y : Z;
  rect_w : Z;
  rect_h : Z
}.

Definition rect_left (r : Rect) : Z := rect_x r.
Definition rect_top (r : Rect) : Z := rect_y r.
Definition rect_right (r : Rect) : Z := rect_x r + rect_w r.
Definition rect_bottom (r : Rect) : Z := rect_y r + rect_h r.

(** [Rect.inflate_ip(dx, dy)]: grows the size by [(dx, dy)] and moves the
    origin by half of it, with C integer division. *)
Definition inflate_ip (dx dy : Z) (r : Rect) : Rect :=
  mkRect (rect_x r - Z.quot dx 2) (rect_y r - Z.quot dy 2)
         (rect_w r + dx) (rect_h r + dy).

(** [Rect.colliderect]: rectangles of zero width or height collide with
    nothing; otherwise the open intervals must overlap on both axes. *)
Definition colliderect (a b : Rect) : bool :=
  if (rect_w a =? 0) || (rect_h a =? 0) || (rect_w b =? 0) || (rect_h b =? 0)
  then false
  else (Z.min (rect_x a) (rect_x a + rect_w a) <? Z.max (rect_x b) (rect_x b + rect_w b))
    && (Z.min (rect_y a) (rect_y a + rect_h a) <? Z.max (rect_y b) (rect_y b + rect_h b))
    && (Z.max (rect_x a) (rect_x a + rect_w a) >? Z.min (rect_x b) (rect_x b + rect_w b))
    && (Z.max (rect_y a) (rect_y a + rect_h a) >? Z.min (rect_y b) (rect_y b + rect_h b)).

(** ** The [random] module *)

Record Random : Type := mkRandom {
  draws : nat -> Z;
  cursor : nat
}.

Definition next_draw (r : Random) : Z * Random :=
  (draws r (cursor r), mkRandom (draws r) (S (cursor r))).

(** [random.randint(a, b)]: raises [ValueError] on an empty range, else
    returns a value of [a..b]. *)
Definition randint (a b : Z) (r : Random) : result (Z * Random) :=
  if b <? a then Raise ValueError
  else let (d, r') := next_draw r in Ok (a + d mod (b - a + 1), r').

(** [random.choice] on a two- and a three-element list. *)
Definition choice2 {A : Type} (x y : A) (r : Random) : A * Random :=
  let (d, r') := next_draw r in
  ((if d mod 2 =? 0 then x else y), r').

Definition choice3 {A : Type} (x y z : A) (r : Random) : A * Random :=
  let (d, r') := next_draw r in
  ((if d mod 3 =? 0 then x else if d mod 3 =? 1 then y else z), r').

(** ** Text: [str(int)], [str.strip] and [int(str)] on ASCII text *)

Definition text : Type := list ascii.

Definition digit_char (d : Z) : ascii := ascii_of_nat (48 + Z.to_nat d).

(** Decimal digits of a non-negative number, most significant first. *)
Fixpoint digits_fuel (fuel : nat) (n : Z) (acc : text) : text :=
  match fuel with
  | O => acc
  | S fuel' =>
    if n <? 10 then digit_char n :: acc
    else digits_fuel fuel' (n / 10) (digit_char (n mod 10) :: acc)
  end.

Definition digits_of (n : Z) : text :=
  digits_fuel (S (Z.to_nat (Z.log2 n))) n [].

(** [str(n)] for an integer [n]. *)
Definition py_str (n : Z) : text :=
  if n <? 0 then "-"%char :: digits_of (- n) else digits_of n.

(** Whitespace as [str.isspace] sees it within ASCII. *)
Definition is_space (c : ascii) : bool :=
  let n := Z.of_nat (nat_of_ascii c) in
  ((9 <=? n) && (n <=? 13)) || ((28 <=? n) && (n <=? 32)).

Fixpoint lstrip (s : text) : text :=
  match s with
  | c :: r => if is_space c then lstrip r else s
  | [] => []
  end.

Definition rstrip (s : text) : text := rev (lstrip (rev s)).

(** [s.strip()] *)
Definition strip (s : text) : text := rstrip (lstrip s).

Definition digit_value (c : ascii) : option Z :=
  let n := Z.of_nat (nat_of_ascii c) in
  if (48 <=? n) && (n <=? 57) then Some (n - 48) else None.

(** Digits with single underscores allowed between two digits;
    [prev_digit] tells whether the previous character was a digit. *)
Fixpoint parse_digits (s : text) (acc : Z) (prev_digit : bool) : option Z :=
  match s with
  | [] => if prev_digit then Some acc else None
  | c :: r =>
    match digit_value c with
    | Some d => parse_digits r (10 * acc + d) true
    | None =>
      if Ascii.eqb c "_" && prev_digit then parse_digits r acc false else None
    end
  end.

(** [int(s)] in base 10: surrounding whitespace is dropped, then an
    optional sign and the digits are read; [ValueError] otherwise. *)
Definition int_of_text (s : text) : result Z :=
  let body := strip s in
  let parsed :=
    match body with
    | c :: r =>
      if Ascii.eqb c "-" then option_map Z.opp (parse_digits r 0 false)
      else if Ascii.eqb c "+" then parse_digits r 0 false
      else parse_digits body 0 false
    | [] => parse_digits body 0 false
    end in
  match parsed with
  | Some n => Ok n
  | None => Raise ValueError
  end.

(** ** The high-score file *)

Record FileStore : Type := mkFileStore {
  file_text : option text;   (* [None]: the file does not exist *)
  writable : bool
}.

(** ** Sounds and phases *)

Inductive Sound : Type := wing | point | die | hit | swoosh.

Inductive Phase : Type := WELCOME | PLAYING | GAME_OVER.

Inductive Key : Type := K_SPACE | K_UP | K_ESCAPE | K_OTHER.

Inductive Event : Type :=
| QUIT
| KEYDOWN (key : Key)
| MOUSEBUTTONDOWN (button : Z)
| OTHER_EVENT.

(** ** Sprites *)

Record SpriteLibrary : Type := mkSprites {
  background_day : Surface;
  background_night : Surface;
  base_sprite : Surface;
  birds_yellow : list Surface;
  birds_blue : list Surface;
  birds_red : list Surface;
  pipes_green : Surface;
  pipes_red : Surface
}.

Inductive BackgroundKey : Type := day | night.

Definition backgrounds (s : SpriteLibrary) (k : BackgroundKey) : Surface :=
  match k with
  | day => background_day s
  | night => background_night s
  end.

(** * [main1.py] *)

Module Main1.

(** ** Bird *)

Record Bird : Type := mkBird {
  frames : list Surface;
  animation_index : Z;
  animation_timer : Q;
  animation_interval : Q;
  position_x : Q;
  position_y : Q;
  velocity_y : Q;
  rotation : Q;
  dead : bool;
  max_fall_speed : Q;
  wobble_amplitude : Q;
  wobble_timer : Q
}.

(** [Bird.__init__] *)
Definition Bird_init (fr : list Surface) (start_pos : Z * Z) : Bird :=
  {| frames := fr;
     animation_index := 0;
     animation_timer := 0;
     animation_interval := 8 # 100;
     position_x := inject_Z (fst start_pos);
     position_y := inject_Z (snd start_pos);
     velocity_y := 0;
     rotation := 0;
     dead := false;
     max_fall_speed := 400;
     wobble_amplitude := 3;
     wobble_timer := 0 |}.

Definition set_animation (idx : Z) (timer : Q) (b : Bird) : Bird :=
  {| frames := frames b;
     animation_index := idx;
     animation_timer := timer;
     animation_interval := animation_interval b;
     position_x := position_x b;
     position_y := position_y b;
     velocity_y := velocity_y b;
     rotation := rotation b;
     dead := dead b;
     max_fall_speed := max_fall_speed b;
     wobble_amplitude := wobble_amplitude b;
     wobble_timer := wobble_timer b |}.

Definition set_motion (y v rot wt : Q) (b : Bird) : Bird :=
  {| frames := frames b;
     animation_index := animation_index b;
     animation_timer := animation_timer b;
     animation_interval := animation_interval b;
     position_x := position_x b;
     position_y := y;
     velocity_y := v;
     rotation := rot;
     dead := dead b;
     max_fall_speed := max_fall_speed b;
     wobble_amplitude := wobble_amplitude b;
     wobble_timer := wt |}.

Definition set_dead (d : bool) (b : Bird) : Bird :=
  {| frames := frames b;
     animation_index := animation_index b;
     animation_timer := animation_timer b;
     animation_interval := animation_interval b;
     position_x := position_x b;
     position_y := position_y b;
     velocity_y := velocity_y b;
     rotation := rotation b;
     dead := d;
     max_fall_speed := max_fall_speed b;
     wobble_amplitude := wobble_amplitude b;
     wobble_timer := wobble_timer b |}.

Definition len_frames (b : Bird) : Z := Z.of_nat (List.length (frames b)).

(** [Bird.image]: [frames[int(animation_index) % len(frames)]] *)
Definition image (b : Bird) : result Surface :=
  i <- py_mod (animation_index b) (len_frames b) ;;
  Ok (nth (Z.to_nat i) (frames b) (mkSurface 0 0)).

(** [Bird.rect] *)
Definition rect (b : Bird) : result Rect :=
  img <- image b ;;
  Ok (inflate_ip (-8) (-8)
        (mkRect (py_int (position_x b)) (py_int (position_y b))
                (get_width img) (get_height img))).

(** First half of [Bird.update]: the animation index. *)
Definition update_animation (b : Bird) (dt : Q) : result Bird :=
  if dead b then Ok (set_animation 1 (animation_timer b) b)
  else
    let t := (animation_timer b + dt)%Q in
    if Qle_bool (animation_interval b) t then
      i <- py_mod (animation_index b + 1) (len_frames b) ;;
      Ok (set_animation i 0 b)
    else Ok (set_animation (animation_index b) t b).

(** Second half of [Bird.update]: gravity when playing, wobble when idle. *)
Definition update_motion (sin : Q -> Q) (b : Bird)
    (dt gravity rotation_speed : Q) (is_playing : bool) : Bird :=
  if is_playing then
    let v := py_min (velocity_y b + gravity * dt) (max_fall_speed b) in
    let y := (position_y b + v * dt)%Q in
    let target_rotation := py_min 25 (py_max (-90) (- v * (5 # 2))) in
    let rot :=
      (rotation b + (target_rotation - rotation b)
                    * py_min 1 (rotation_speed * dt))%Q in
    set_motion y v rot (wobble_timer b) b
  else
    let wt := (wobble_timer b + dt)%Q in
    let wobble_offset := (wobble_amplitude b * sin (wt * 3))%Q in
    set_motion (position_y b + wobble_offset * dt * 20)%Q
               (velocity_y b) 0 wt b.

(** [Bird.update] *)
Definition update (sin : Q -> Q) (b : Bird)
    (dt gravity rotation_speed : Q) (is_playing : bool) : result Bird :=
  b1 <- update_animation b dt ;;
  Ok (update_motion sin b1 dt gravity rotation_speed is_playing).

(** [Bird.flap] *)
Definition flap (b : Bird) (impulse : Q) : Bird :=
  if negb (dead b) then
    set_motion (position_y b) (- impulse) (rotation b) (wobble_timer b) b
  else b.

(** ** PipePair *)

Record PipePair : Type := mkPipePair {
  pipe_image : Surface;
  x : Q;
  gap_y : Z;
  gap_size : Z;
  bottom_y : Z;
  speed : Q;
  passed : bool
}.

(** [PipePair.__init__] *)
Definition PipePair_init (img : Surface) (x0 gy gs by_ : Z) : PipePair :=
  {| pipe_image := img; x := inject_Z x0; gap_y := gy; gap_size := gs;
     bottom_y := by_; speed := 150; passed := false |}.

Definition width (p : PipePair) : Z := get_width (pipe_image p).

Definition set_x (x' : Q) (p : PipePair) : PipePair :=
  {| pipe_image := pipe_image p; x := x'; gap_y := gap_y p;
     gap_size := gap_size p; bottom_y := bottom_y p; speed := speed p;
     passed := passed p |}.

Definition set_passed (f : bool) (p : PipePair) : PipePair :=
  {| pipe_image := pipe_image p; x := x p; gap_y := gap_y p;
     gap_size := gap_size p; bottom_y := bottom_y p; speed := speed p;
     passed := f |}.

(** Upper and lower edge of the gap, as [PipePair.rects] computes them. *)
Definition top_height (p : PipePair) : Z := gap_y p - gap_size p / 2.
Definition bottom_top (p : PipePair) : Z := gap_y p + gap_size p / 2.

(** [PipePair.rects] *)
Definition rects (p : PipePair) : Rect * Rect :=
  let h := get_height (pipe_image p) in
  let top_rect := mkRect (py_int (x p)) (top_height p - h) (width p) h in
  let bottom_rect := mkRect (py_int (x p)) (bottom_top p) (width p) h in
  (inflate_ip (-4) 0 top_rect, inflate_ip (-4) 0 bottom_rect).

(** [PipePair.update] *)
Definition PipePair_update (dt : Q) (p : PipePair) : PipePair :=
  set_x (x p - speed p * dt)%Q p.

(** ** Game *)

(** Attributes of [Game] that are assigned once, in [__init__]. *)
Record Config : Type := mkConfig {
  sprites : SpriteLibrary;
  screen_width : Z;
  screen_height : Z;
  base : Surface;
  base_y : Z;
  base_speed : Q;
  pipe_spawn_interval : Q;
  gravity : Q;
  rotation_speed : Q;
  flap_impulse : Q;
  base_pipe_gap : Z;
  min_pipe_gap : Z;
  gap_decrease_rate : Z
}.

(** Attributes that only the presentation reads. *)
Record Scene : Type := mkScene {
  background_key : BackgroundKey;
  background : Surface;
  base_x : Q;
  pipe_image_choice : Surface;
  bird_frames : list Surface
}.

(** What lies outside the process: played cues, [random], the file. *)
Record World : Type := mkWorld {
  sound_log : list Sound;
  rng : Random;
  store : FileStore
}.

Record Game : Type := mkGame {
  config : Config;
  scene : Scene;
  world : World;
  pipes : list PipePair;
  pipe_spawn_timer : Q;
  pipe_gap : Z;
  bird : Bird;
  state : Phase;
  score : Z;
  high_score : Z
}.

Definition set_scene (s : Scene) (g : Game) : Game :=
  mkGame (config g) s (world g) (pipes g) (pipe_spawn_timer g) (pipe_gap g)
         (bird g) (state g) (score g) (high_score g).

Definition set_world (w : World) (g : Game) : Game :=
  mkGame (config g) (scene g) w (pipes g) (pipe_spawn_timer g) (pipe_gap g)
         (bird g) (state g) (score g) (high_score g).

Definition set_pipes (ps : list PipePair) (g : Game) : Game :=
  mkGame (config g) (scene g) (world g) ps (pipe_spawn_timer g) (pipe_gap g)
         (bird g) (state g) (score g) (high_score g).

Definition set_pipe_spawn_timer (t : Q) (g : Game) : Game :=
  mkGame (config g) (scene g) (world g) (pipes g) t (pipe_gap g)
         (bird g) (state g) (score g) (high_score g).

Definition set_bird (b : Bird) (g : Game) : Game :=
  mkGame (config g) (scene g) (world g) (pipes g) (pipe_spawn_timer g)
         (pipe_gap g) b (state g) (score g) (high_score g).

Definition set_state (s : Phase) (g : Game) : Game :=
  mkGame (config g) (scene g) (world g) (pipes g) (pipe_spawn_timer g)
         (pipe_gap g) (bird g) s (score g) (high_score g).

Definition set_score (n : Z) (g : Game) : Game :=
  mkGame (config g) (scene g) (world g) (pipes g) (pipe_spawn_timer g)
         (pipe_gap g) (bird g) (state g) n (high_score g).

Definition set_high_score (n : Z) (g : Game) : Game :=
  mkGame (config g) (scene g) (world g) (pipes g) (pipe_spawn_timer g)
         (pipe_gap g) (bird g) (state g) (score g) n.

(** [self.sounds.play(name)] *)
Definition play (s : Sound) (g : Game) : Game :=
  set_world (mkWorld (sound_log (world g) ++ [s]) (rng (world g))
                     (store (world g))) g.

(** [Game._load_high_score]: any failure of [open], [read] or [int] falls
    into the bare [except] and gives 0. *)
Definition _load_high_score (st : FileStore) : Z :=
  match file_text st with
  | None => 0
  | Some s =>
    match int_of_text (strip s) with
    | Ok n => n
    | Raise _ => 0
    end
  end.

(** The file write of [Game._save_high_score], for the value [n]. *)
Definition write_high_score (n : Z) (st : FileStore) : FileStore :=
  if writable st then mkFileStore (Some (py_str n)) (writable st) else st.

(** [Game._save_high_score] *)
Definition _save_high_score (g : Game) : Game :=
  set_world (mkWorld (sound_log (world g)) (rng (world g))
                     (write_high_score (high_score g) (store (world g)))) g.

(** [Game.__init__], given the loaded sprites and the outside world. *)
Definition Game_init (sp : SpriteLibrary) (w : World) : Game :=
  let (bk, r1) := choice2 day night (rng w) in
  let bg := backgrounds sp bk in
  let sw := get_width bg in
  let sh := get_height bg in
  let (pimg, r2) := choice2 (pipes_green sp) (pipes_red sp) r1 in
  let (fr, r3) := choice3 (birds_yellow sp) (birds_blue sp) (birds_red sp) r2 in
  {| config :=
       {| sprites := sp; screen_width := sw; screen_height := sh;
          base := base_sprite sp;
          base_y := sh - get_height (base_sprite sp);
          base_speed := 150; pipe_spawn_interval := 18 # 10;
          gravity := 700; rotation_speed := 8; flap_impulse := 280;
          base_pipe_gap := 140; min_pipe_gap := 100;
          gap_decrease_rate := 2 |};
     scene :=
       {| background_key := bk; background := bg; base_x := 0;
          pipe_image_choice := pimg; bird_frames := fr |};
     world := mkWorld (sound_log w) r3 (store w);
     pipes := [];
     pipe_spawn_timer := 0;
     pipe_gap := 140;
     bird := Bird_init fr (sw / 4, sh / 2);
     state := WELCOME;
     score := 0;
     high_score := _load_high_score (store w) |}.

(** [Game.reset] *)
Definition reset (g : Game) : Game :=
  let c := config g in
  let bk := match background_key (scene g) with day => night | night => day end in
  let (pimg, r1) :=
    choice2 (pipes_green (sprites c)) (pipes_red (sprites c)) (rng (world g)) in
  let (fr, r2) :=
    choice3 (birds_yellow (sprites c)) (birds_blue (sprites c))
            (birds_red (sprites c)) r1 in
  {| config := c;
     scene :=
       {| background_key := bk; background := backgrounds (sprites c) bk;
          base_x := 0; pipe_image_choice := pimg; bird_frames := fr |};
     world := mkWorld (sound_log (world g)) r2 (store (world g));
     pipes := [];
     pipe_spawn_timer := 0;
     pipe_gap := base_pipe_gap c;
     bird := Bird_init fr (screen_width c / 4, screen_height c / 2);
     state := WELCOME;
     score := 0;
     high_score := high_score g |}.

(** The gap of the next pipe: it narrows as the score grows. *)
Definition current_gap (g : Game) : result Z :=
  q <- py_floordiv (score g) (gap_decrease_rate (config g)) ;;
  Ok (Z.max (min_pipe_gap (config g)) (base_pipe_gap (config g) - q * 5)).

Definition min_center (g : Game) (gap : Z) : Z :=
  int_quarter (screen_height (config g)) + gap / 2.

Definition max_center (g : Game) (gap : Z) : Z :=
  base_y (config g) - 20 - gap / 2.

(** [Game.spawn_pipe] *)
Definition spawn_pipe (g : Game) : result Game :=
  gap <- current_gap g ;;
  dr <- randint (min_center g gap) (max_center g gap) (rng (world g)) ;;
  let (gap_center, r') := dr : Z * Random in
  let p := PipePair_init (pipe_image_choice (scene g))
                         (screen_width (config g) + 10) gap_center gap
                         (base_y (config g)) in
  Ok (set_pipes (pipes g ++ [p])
        (set_world (mkWorld (sound_log (world g)) r' (store (world g))) g)).

(** [Game.update_base] *)
Definition update_base (dt : Q) (g : Game) : Game :=
  let bx := (base_x (scene g) - base_speed (config g) * dt)%Q in
  let limit := inject_Z (- (get_width (base (config g)) - screen_width (config g))) in
  let bx' := if Qle_bool bx limit then 0%Q else bx in
  set_scene (mkScene (background_key (scene g)) (background (scene g)) bx'
                     (pipe_image_choice (scene g)) (bird_frames (scene g))) g.

Definition hits_pipe (bird_rect : Rect) (p : PipePair) : bool :=
  let (top_rect, bottom_rect) := rects p in
  colliderect bird_rect top_rect || colliderect bird_rect bottom_rect.

(** [Game.check_collisions] *)
Definition check_collisions (g : Game) : result bool :=
  bird_rect <- rect (bird g) ;;
  if rect_bottom bird_rect >=? base_y (config g) - 5 then Ok true
  else if rect_top bird_rect <=? 0 then Ok true
  else Ok (existsb (hits_pipe bird_rect) (pipes g)).

(** The test of [Game.update_score] on one pipe. *)
Definition crossing (bird_x : Q) (p : PipePair) : bool :=
  negb (passed p) && Qltb (x p + inject_Z (width p)) bird_x.

(** Body of the [if] of [Game.update_score]: one more point. *)
Definition add_point (g : Game) : Game :=
  let g1 := set_score (score g + 1) g in
  let g2 := if score g1 >? high_score g1
            then _save_high_score (set_high_score (score g1) g1)
            else g1 in
  play point g2.

(** The loop of [Game.update_score] over the pipes, in spawn order. *)
Fixpoint score_pipes (ps : list PipePair) (g : Game) : list PipePair * Game :=
  match ps with
  | [] => ([], g)
  | p :: rest =>
    if crossing (position_x (bird g)) p then
      let (rest', g') := score_pipes rest (add_point g) in
      (set_passed true p :: rest', g')
    else
      let (rest', g') := score_pipes rest g in
      (p :: rest', g')
  end.

(** [Game.update_score] *)
Definition update_score (g : Game) : Game :=
  let (ps, g') := score_pipes (pipes g) g in set_pipes ps g'.

(** What [Game.handle_input] does on a flap input; the keyboard branch and
    the mouse branch have this same body. *)
Definition on_flap (g : Game) : Game :=
  match state g with
  | WELCOME =>
    let g1 := set_state PLAYING g in
    play swoosh (set_bird (flap (bird g1) (flap_impulse (config g1))) g1)
  | PLAYING =>
    play wing (set_bird (flap (bird g) (flap_impulse (config g))) g)
  | GAME_OVER => reset g
  end.

(** [Game.handle_input] *)
Definition handle_input (g : Game) (e : Event) : Game :=
  match e with
  | KEYDOWN K_SPACE | KEYDOWN K_UP => on_flap g
  | MOUSEBUTTONDOWN button => if button =? 1 then on_flap g else g
  | _ => g
  end.

(** ** The loop of [Game.run] *)

Record LoopState : Type := mkLoop {
  game : Game;
  running : bool;
  death_sound_played : bool
}.

(** The event loop at the head of one iteration. *)
Fixpoint poll_events (events : list Event) (ls : LoopState) : LoopState :=
  match events with
  | [] => ls
  | e :: rest =>
    poll_events rest
      match e with
      | QUIT | KEYDOWN K_ESCAPE => mkLoop (game ls) false (death_sound_played ls)
      | _ => mkLoop (handle_input (game ls) e) (running ls) (death_sound_played ls)
      end
  end.

(** Timer and spawn step of the [PLAYING] branch. *)
Definition spawn_on_timer (dt : Q) (g : Game) : result Game :=
  let t := (pipe_spawn_timer g + dt)%Q in
  if Qle_bool (pipe_spawn_interval (config g)) t
  then spawn_pipe (set_pipe_spawn_timer 0 g)
  else Ok (set_pipe_spawn_timer t g).

(** Pipes move left, then those that left the screen are dropped. *)
Definition move_pipes (dt : Q) (g : Game) : Game :=
  set_pipes (map (PipePair_update dt) (pipes g)) g.

Definition on_screen (p : PipePair) : bool :=
  Qltb (-50) (x p + inject_Z (width p)).

Definition prune_pipes (g : Game) : Game :=
  set_pipes (filter on_screen (pipes g)) g.

(** The [PLAYING] branch up to, and excluding, the collision check. *)
Definition playing_advance (sin : Q -> Q) (dt : Q) (g : Game) : result Game :=
  b <- update sin (bird g) dt (gravity (config g)) (rotation_speed (config g)) true ;;
  g1 <- spawn_on_timer dt (set_bird b g) ;;
  Ok (prune_pipes (move_pipes dt g1)).

(** What the [PLAYING] branch does when [check_collisions] is true. *)
Definition game_over (g : Game) : Game :=
  play hit (set_bird (set_dead true (bird g)) (set_state GAME_OVER g)).

(** The [PLAYING] branch. *)
Definition playing_tick (sin : Q -> Q) (dt : Q) (ls : LoopState) : result LoopState :=
  g1 <- playing_advance sin dt (game ls) ;;
  collided <- check_collisions g1 ;;
  let ls1 := if collided : bool
             then mkLoop (game_over g1) (running ls) false
             else mkLoop g1 (running ls) (death_sound_played ls) in
  Ok (mkLoop (update_score (game ls1)) (running ls1) (death_sound_played ls1)).

(** The [GAME_OVER] branch. *)
Definition game_over_tick (sin : Q -> Q) (dt : Q) (ls : LoopState) : result LoopState :=
  let g := game ls in
  b <- update sin (bird g) dt (gravity (config g) * (15 # 10))%Q
              (rotation_speed (config g)) true ;;
  let g1 := set_bird b g in
  if negb (death_sound_played ls) then
    r <- rect b ;;
    if rect_bottom r >=? base_y (config g) - 1
    then Ok (mkLoop (play die g1) (running ls) true)
    else Ok (mkLoop g1 (running ls) (death_sound_played ls))
  else Ok (mkLoop g1 (running ls) (death_sound_played ls)).

(** The [WELCOME] branch. *)
Definition welcome_tick (sin : Q -> Q) (dt : Q) (ls : LoopState) : result LoopState :=
  let g := game ls in
  b <- update sin (bird g) dt (gravity (config g)) (rotation_speed (config g)) false ;;
  Ok (mkLoop (set_bird b g) (running ls) (death_sound_played ls)).

(** One iteration of the [while] loop of [Game.run], drawing left out;
    [dt_ms] is what [clock.tick] returned and [events] what
    [pygame.event.get] returned. *)
Definition run_iteration (sin : Q -> Q) (dt_ms : Z) (events : list Event)
    (ls : LoopState) : result LoopState :=
  let dt := (inject_Z dt_ms / 1000)%Q in
  let ls1 := poll_events events ls in
  let ls2 := mkLoop (update_base dt (game ls1)) (running ls1)
                    (death_sound_played ls1) in
  match state (game ls2) with
  | WELCOME => welcome_tick sin dt ls2
  | PLAYING => playing_tick sin dt ls2
  | GAME_OVER => game_over_tick sin dt ls2
  end.

End Main1.

(** * [mian.py] *)

Module Mian.

(** ** Bird *)

Record Bird : Type := mkBird {
  frames : list Surface;
  animation_index : Z;
  animation_timer : Q;
  animation_interval : Q;
  position_x : Q;
  position_y : Q;
  velocity_y : Q;
  rotation : Q;
  dead : bool
}.

(** [Bird.__init__] *)
Definition Bird_init (fr : list Surface) (start_pos : Z * Z) : Bird :=
  {| frames := fr;
     animation_index := 0;
     animation_timer := 0;
     animation_interval := 8 # 100;
     position_x := inject_Z (fst start_pos);
     position_y := inject_Z (snd start_pos);
     velocity_y := 0;
     rotation := 0;
     dead := false |}.

Definition set_animation (idx : Z) (timer : Q) (b : Bird) : Bird :=
  mkBird (frames b) idx timer (animation_interval b) (position_x b)
         (position_y b) (velocity_y b) (rotation b) (dead b).

Definition set_motion (y v rot : Q) (b : Bird) : Bird :=
  mkBird (frames b) (animation_index b) (animation_timer b)
         (animation_interval b) (position_x b) y v rot (dead b).

Definition set_dead (d : bool) (b : Bird) : Bird :=
  mkBird (frames b) (animation_index b) (animation_timer b)
         (animation_interval b) (position_x b) (position_y b) (velocity_y b)
         (rotation b) d.

Definition len_frames (b : Bird) : Z := Z.of_nat (List.length (frames b)).

(** [Bird.image] *)
Definition image (b : Bird) : result Surface :=
  i <- py_mod (animation_index b) (len_frames b) ;;
  Ok (nth (Z.to_nat i) (frames b) (mkSurface 0 0)).

(** [Bird.rect] *)
Definition rect (b : Bird) : result Rect :=
  img <- image b ;;
  Ok (mkRect (py_int (position_x b)) (py_int (position_y b))
             (get_width img) (get_height img)).

(** [Bird.update_animation] *)
Definition update_animation (b : Bird) (dt : Q) : result Bird :=
  let t := (animation_timer b + dt)%Q in
  if Qle_bool (animation_interval b) t then
    i <- py_mod (animation_index b + 1) (len_frames b) ;;
    Ok (set_animation i 0 b)
  else Ok (set_animation (animation_index b) t b).

(** First statement of [Bird.update]: the animation index. *)
Definition animate (b : Bird) (dt : Q) : result Bird :=
  if dead b then Ok (set_animation 1 (animation_timer b) b)
  else update_animation b dt.

(** Rest of [Bird.update]: gravity and rotation. *)
Definition integrate (b : Bird) (dt gravity max_fall_speed rot_down_speed : Q) : Bird :=
  let v := py_min (velocity_y b + gravity * dt) max_fall_speed in
  let y := (position_y b + v * dt)%Q in
  let rot :=
    if Qltb v 0 then 45%Q
    else if Qltb (-90) (rotation b)
         then py_max (-90) (rotation b - rot_down_speed * dt)
         else rotation b in
  set_motion y v rot b.

(** [Bird.update] *)
Definition update (b : Bird) (dt gravity max_fall_speed rot_down_speed : Q)
    : result Bird :=
  b1 <- animate b dt ;;
  Ok (integrate b1 dt gravity max_fall_speed rot_down_speed).

(** [Bird.flap] *)
Definition flap (b : Bird) (impulse : Q) : Bird :=
  if negb (dead b) then set_motion (position_y b) (- impulse) 45 b else b.

(** ** PipePair *)

Record PipePair : Type := mkPipePair {
  pipe_image : Surface;
  x : Q;
  gap_y : Z;
  gap_size : Z;
  bottom_y : Z;
  speed : Q;
  passed : bool
}.

(** [PipePair.__init__] *)
Definition PipePair_init (img : Surface) (x0 gy gs by_ : Z) : PipePair :=
  {| pipe_image := img; x := inject_Z x0; gap_y := gy; gap_size := gs;
     bottom_y := by_; speed := 150; passed := false |}.

Definition width (p : PipePair) : Z := get_width (pipe_image p).

Definition set_x (x' : Q) (p : PipePair) : PipePair :=
  mkPipePair (pipe_image p) x' (gap_y p) (gap_size p) (bottom_y p) (speed p)
             (passed p).

Definition set_passed (f : bool) (p : PipePair) : PipePair :=
  mkPipePair (pipe_image p) (x p) (gap_y p) (gap_size p) (bottom_y p)
             (speed p) f.

Definition top_height (p : PipePair) : Z := gap_y p - gap_size p / 2.
Definition bottom_top (p : PipePair) : Z := gap_y p + gap_size p / 2.

(** [PipePair.rects] *)
Definition rects (p : PipePair) : Rect * Rect :=
  let h := get_height (pipe_image p) in
  (mkRect (py_int (x p)) (top_height p - h) (width p) h,
   mkRect (py_int (x p)) (bottom_top p) (width p) h).

(** [PipePair.update] *)
Definition PipePair_update (dt : Q) (p : PipePair) : PipePair :=
  set_x (x p - speed p * dt)%Q p.

(** ** Game *)

(** Attributes of [Game] that are assigned once, in [__init__]. *)
Record Config : Type := mkConfig {
  sprites : SpriteLibrary;
  screen_width : Z;
  screen_height : Z;
  base : Surface;
  base_y : Z;
  base_speed : Q;
  pipe_spawn_interval : Q;
  pipe_gap : Z;
  gravity : Q;
  max_fall_speed : Q;
  rot_down_speed : Q;
  flap_impulse : Q
}.

Record Scene : Type := mkScene {
  background_key : BackgroundKey;
  background : Surface;
  base_x : Q;
  pipe_image_choice : Surface;
  bird_frames : list Surface
}.

Record World : Type := mkWorld {
  sound_log : list Sound;
  rng : Random
}.

Record Game : Type := mkGame {
  config : Config;
  scene : Scene;
  world : World;
  pipes : list PipePair;
  pipe_spawn_timer : Q;
  bird : Bird;
  state : Phase;
  score : Z;
  high_score : Z
}.

Definition set_scene (s : Scene) (g : Game) : Game :=
  mkGame (config g) s (world g) (pipes g) (pipe_spawn_timer g) (bird g)
         (state g) (score g) (high_score g).

Definition set_world (w : World) (g : Game) : Game :=
  mkGame (config g) (scene g) w (pipes g) (pipe_spawn_timer g) (bird g)
         (state g) (score g) (high_score g).

Definition set_pipes (ps : list PipePair) (g : Game) : Game :=
  mkGame (config g) (scene g) (world g) ps (pipe_spawn_timer g) (bird g)
         (state g) (score g) (high_score g).

Definition set_pipe_spawn_timer (t : Q) (g : Game) : Game :=
  mkGame (config g) (scene g) (world g) (pipes g) t (bird g) (state g)
         (score g) (high_score g).

Definition set_bird (b : Bird) (g : Game) : Game :=
  mkGame (config g) (scene g) (world g) (pipes g) (pipe_spawn_timer g) b
         (state g) (score g) (high_score g).

Definition set_state (s : Phase) (g : Game) : Game :=
  mkGame (config g) (scene g) (world g) (pipes g) (pipe_spawn_timer g)
         (bird g) s (score g) (high_score g).

Definition set_scores (n hi : Z) (g : Game) : Game :=
  mkGame (config g) (scene g) (world g) (pipes g) (pipe_spawn_timer g)
         (bird g) (state g) n hi.

(** [self.sounds.play(name)] *)
Definition play (s : Sound) (g : Game) : Game :=
  set_world (mkWorld (sound_log (world g) ++ [s]) (rng (world g))) g.

(** [Game.__init__] *)
Definition Game_init (sp : SpriteLibrary) (w : World) : Game :=
  let (bk, r1) := choice2 day night (rng w) in
  let bg := backgrounds sp bk in
  let sw := get_width bg in
  let sh := get_height bg in
  {| config :=
       {| sprites := sp; screen_width := sw; screen_height := sh;
          base := base_sprite sp;
          base_y := sh - get_height (base_sprite sp);
          base_speed := 150; pipe_spawn_interval := 125 # 100;
          pipe_gap := 100; gravity := 1800; max_fall_speed := 600;
          rot_down_speed := 250; flap_impulse := 350 |};
     scene :=
       {| background_key := bk; background := bg; base_x := 0;
          pipe_image_choice := pipes_green sp;
          bird_frames := birds_yellow sp |};
     world := mkWorld (sound_log w) r1;
     pipes := [];
     pipe_spawn_timer := 0;
     bird := Bird_init (birds_yellow sp) (sw / 6, sh / 2);
     state := WELCOME;
     score := 0;
     high_score := 0 |}.

(** [Game.reset] *)
Definition reset (g : Game) : Game :=
  let c := config g in
  let bk := match background_key (scene g) with day => night | night => day end in
  {| config := c;
     scene :=
       {| background_key := bk; background := backgrounds (sprites c) bk;
          base_x := 0; pipe_image_choice := pipes_green (sprites c);
          bird_frames := birds_yellow (sprites c) |};
     world := world g;
     pipes := [];
     pipe_spawn_timer := 0;
     bird := Bird_init (birds_yellow (sprites c))
                       (screen_width c / 6, screen_height c / 2);
     state := WELCOME;
     score := 0;
     high_score := high_score g |}.

Definition min_center (g : Game) : Z :=
  int_quarter (screen_height (config g)) + pipe_gap (config g) / 2.

Definition max_center (g : Game) : Z :=
  base_y (config g) - 10 - pipe_gap (config g) / 2.

(** The bias of [spawn_pipe], [int(20 * math.sin(t * 1.3))] with
    [t = get_ticks() / 1000.0]; [now_ms] is what [get_ticks] returned. *)
Definition spawn_bias (sin : Q -> Q) (now_ms : Z) : Z :=
  let t := (inject_Z now_ms / 1000)%Q in
  py_int (20 * sin (t * (13 # 10)))%Q.

(** [Game.spawn_pipe] *)
Definition spawn_pipe (sin : Q -> Q) (now_ms : Z) (g : Game) : result Game :=
  dr <- randint (min_center g) (max_center g) (rng (world g)) ;;
  let (base_center, r') := dr : Z * Random in
  let bias := spawn_bias sin now_ms in
  let gap_center :=
    Z.max (min_center g) (Z.min (max_center g) (base_center + bias)) in
  let p := PipePair_init (pipe_image_choice (scene g))
                         (screen_width (config g) + 10) gap_center
                         (pipe_gap (config g)) (base_y (config g)) in
  Ok (set_pipes (pipes g ++ [p])
        (set_world (mkWorld (sound_log (world g)) r') g)).

(** [Game.update_base] *)
Definition update_base (dt : Q) (g : Game) : Game :=
  let bx := (base_x (scene g) - base_speed (config g) * dt)%Q in
  let limit := inject_Z (- (get_width (base (config g)) - screen_width (config g))) in
  let bx' := if Qle_bool bx limit then 0%Q else bx in
  set_scene (mkScene (background_key (scene g)) (background (scene g)) bx'
                     (pipe_image_choice (scene g)) (bird_frames (scene g))) g.

(** [Game.check_collisions].  The pixel masks are not part of the model:
    [mask_hit b p] stands for the two [bird_mask.overlap] tests of the
    rotated image of [b] against pipe [p]. *)
Definition check_collisions (mask_hit : Bird -> PipePair -> bool) (g : Game)
    : result bool :=
  bird_rect <- rect (bird g) ;;
  if rect_bottom bird_rect >=? base_y (config g) then Ok true
  else Ok (existsb (mask_hit (bird g)) (pipes g)).

(** The test of [Game.update_score] on one pipe; [Bird.rect] is only
    evaluated for a pipe that is not yet passed. *)
Definition crossing (b : Bird) (p : PipePair) : result bool :=
  if negb (passed p) then
    r <- rect b ;;
    Ok (Qltb (x p + inject_Z (width p)) (inject_Z (rect_left r)))
  else Ok false.

(** Body of the [if] of [Game.update_score]: one more point. *)
Definition add_point (g : Game) : Game :=
  let s := score g + 1 in
  play point (set_scores s (Z.max (high_score g) s) g).

(** The loop of [Game.update_score] over the pipes, in spawn order. *)
Fixpoint score_pipes (ps : list PipePair) (g : Game)
    : result (list PipePair * Game) :=
  match ps with
  | [] => Ok ([], g)
  | p :: rest =>
    c <- crossing (bird g) p ;;
    if c : bool then
      rg <- score_pipes rest (add_point g) ;;
      Ok (set_passed true p :: fst rg, snd rg)
    else
      rg <- score_pipes rest g ;;
      Ok (p :: fst rg, snd rg)
  end.

(** [Game.update_score] *)
Definition update_score (g : Game) : result Game :=
  rg <- score_pipes (pipes g) g ;;
  Ok (set_pipes (fst rg) (snd rg)).

(** What [Game.handle_input] does on a flap input; the keyboard branch and
    the mouse branch have this same body. *)
Definition on_flap (g : Game) : Game :=
  match state g with
  | WELCOME => play swoosh (set_state PLAYING g)
  | PLAYING =>
    play wing (set_bird (flap (bird g) (flap_impulse (config g))) g)
  | GAME_OVER => reset g
  end.

(** [Game.handle_input] *)
Definition handle_input (g : Game) (e : Event) : Game :=
  match e with
  | KEYDOWN K_SPACE | KEYDOWN K_UP => on_flap g
  | MOUSEBUTTONDOWN button => if button =? 1 then on_flap g else g
  | _ => g
  end.

(** ** The loop of [Game.run] *)

Record LoopState : Type := mkLoop {
  game : Game;
  running : bool;
  death_sound_played : bool
}.

(** The event loop at the head of one iteration. *)
Fixpoint poll_events (events : list Event) (ls : LoopState) : LoopState :=
  match events with
  | [] => ls
  | e :: rest =>
    poll_events rest
      match e with
      | QUIT => mkLoop (game ls) false (death_sound_played ls)
      | _ => mkLoop (handle_input (game ls) e) (running ls) (death_sound_played ls)
      end
  end.

(** The bird of the welcome screen: animated, hovering on a sine. *)
Definition welcome_bird (sin : Q -> Q) (now_ms : Z) (dt : Q) (g : Game)
    : result Bird :=
  b <- update_animation (bird g) dt ;;
  let y := (inject_Z (screen_height (config g) / 2)
            + 6 * sin (inject_Z now_ms / 250))%Q in
  Ok (set_motion y (velocity_y b) 0 b).

(** First [if] of the loop body: ground scroll and bird, unless game over. *)
Definition advance_bird (sin : Q -> Q) (now_ms : Z) (dt : Q) (g : Game)
    : result Game :=
  match state g with
  | WELCOME =>
    let g1 := update_base dt g in
    b <- welcome_bird sin now_ms dt g1 ;;
    Ok (set_bird b g1)
  | PLAYING =>
    let g1 := update_base dt g in
    b <- update (bird g1) dt (gravity (config g1)) (max_fall_speed (config g1))
                (rot_down_speed (config g1)) ;;
    Ok (set_bird b g1)
  | GAME_OVER => Ok g
  end.

(** Timer and spawn step of the [PLAYING] branch. *)
Definition spawn_on_timer (sin : Q -> Q) (now_ms : Z) (dt : Q) (g : Game)
    : result Game :=
  let t := (pipe_spawn_timer g + dt)%Q in
  if Qle_bool (pipe_spawn_interval (config g)) t
  then spawn_pipe sin now_ms (set_pipe_spawn_timer 0 g)
  else Ok (set_pipe_spawn_timer t g).

Definition move_pipes (dt : Q) (g : Game) : Game :=
  set_pipes (map (PipePair_update dt) (pipes g)) g.

Definition on_screen (p : PipePair) : bool :=
  Qltb (-10) (x p + inject_Z (width p)).

Definition prune_pipes (g : Game) : Game :=
  set_pipes (filter on_screen (pipes g)) g.

(** The [PLAYING] branch up to, and excluding, the collision check. *)
Definition playing_advance (sin : Q -> Q) (now_ms : Z) (dt : Q) (g : Game)
    : result Game :=
  g1 <- spawn_on_timer sin now_ms dt g ;;
  Ok (prune_pipes (move_pipes dt g1)).

(** What the [PLAYING] branch does when [check_collisions] is true. *)
Definition game_over (g : Game) : Game :=
  play hit (set_bird (set_dead true (bird g)) (set_state GAME_OVER g)).

(** The [PLAYING] branch. *)
Definition playing_tick (sin : Q -> Q) (mask_hit : Bird -> PipePair -> bool)
    (now_ms : Z) (dt : Q) (ls : LoopState) : result LoopState :=
  g1 <- playing_advance sin now_ms dt (game ls) ;;
  collided <- check_collisions mask_hit g1 ;;
  let ls1 := if collided : bool
             then mkLoop (game_over g1) (running ls) false
             else mkLoop g1 (running ls) (death_sound_played ls) in
  g2 <- update_score (game ls1) ;;
  Ok (mkLoop g2 (running ls1) (death_sound_played ls1)).

(** The [GAME_OVER] branch. *)
Definition game_over_tick (dt : Q) (ls : LoopState) : result LoopState :=
  let g := update_base dt (game ls) in
  b <- update (bird g) dt (gravity (config g)) (max_fall_speed (config g))
              (rot_down_speed (config g)) ;;
  let g1 := set_bird b g in
  if negb (death_sound_played ls) then
    r <- rect b ;;
    if rect_bottom r >=? base_y (config g) - 1
    then Ok (mkLoop (play die g1) (running ls) true)
    else Ok (mkLoop g1 (running ls) (death_sound_played ls))
  else Ok (mkLoop g1 (running ls) (death_sound_played ls)).

(** One iteration of the [while] loop of [Game.run], drawing left out. *)
Definition run_iteration (sin : Q -> Q) (mask_hit : Bird -> PipePair -> bool)
    (now_ms dt_ms : Z) (events : list Event) (ls : LoopState)
    : result LoopState :=
  let dt := (inject_Z dt_ms / 1000)%Q in
  let ls1 := poll_events events ls in
  g1 <- advance_bird sin now_ms dt (game ls1) ;;
  let ls2 := mkLoop g1 (running ls1) (death_sound_played ls1) in
  match state g1 with
  | PLAYING => playing_tick sin mask_hit now_ms dt ls2
  | GAME_OVER => game_over_tick dt ls2
  | WELCOME => Ok ls2
  end.

End Mian.

(** * Scripts of bird actions

    A tick of the loop integrates the bird once; a flap may come before any
    tick.  [Tick] carries the arguments of that call of [Bird.update]. *)

Module Main1Script.
Import Main1.

Inductive Action : Type :=
| Tick (dt gravity rotation_speed : Q)
| Flap (impulse : Q).

Definition act (sin : Q -> Q) (a : Action) (b : Bird) : result Bird :=
  match a with
  | Tick dt gravity rotation_speed => update sin b dt gravity rotation_speed true
  | Flap impulse => Ok (flap b impulse)
  end.

Fixpoint play_actions (sin : Q -> Q) (acts : list Action) (b : Bird) : result Bird :=
  match acts with
  | [] => Ok b
  | a :: rest => b1 <- act sin a b ;; play_actions sin rest b1
  end.

End Main1Script.

Module MianScript.
Import Mian.

Inductive Action : Type :=
| Tick (dt gravity max_fall_speed rot_down_speed : Q)
| Flap (impulse : Q).

Definition act (a : Action) (b : Bird) : result Bird :=
  match a with
  | Tick dt gravity max_fall_speed rot_down_speed =>
    update b dt gravity max_fall_speed rot_down_speed
  | Flap impulse => Ok (flap b impulse)
  end.

Fixpoint play_actions (acts : list Action) (b : Bird) : result Bird :=
  match acts with
  | [] => Ok b
  | a :: rest => b1 <- act a b ;; play_actions rest b1
  end.

End MianScript.

(** * Sample data

    The sizes of the classic sprite sheet, a fixed stream of draws, and the
    games that [__init__] builds from them. *)

Module Sample.

Definition bird_frame : Surface := mkSurface 34 24.

Definition sample_sprites : SpriteLibrary :=
  {| background_day := mkSurface 288 512;
     background_night := mkSurface 288 512;
     base_sprite := mkSurface 336 112;
     birds_yellow := [bird_frame; bird_frame; bird_frame];
     birds_blue := [bird_frame; bird_frame; bird_frame];
     birds_red := [bird_frame; bird_frame; bird_frame];
     pipes_green := mkSurface 52 320;
     pipes_red := mkSurface 52 320 |}.

Definition sample_random : Random :=
  mkRandom (fun n => 7 * Z.of_nat n + 3) 0.

Definition no_sin : Q -> Q := fun _ => 0%Q.

Definition no_mask_hit : Mian.Bird -> Mian.PipePair -> bool := fun _ _ => false.

Definition main1_game : Main1.Game :=
  Main1.Game_init sample_sprites
    (Main1.mkWorld [] sample_random (mkFileStore None true)).

Definition mian_game : Mian.Game :=
  Mian.Game_init sample_sprites (Mian.mkWorld [] sample_random).

Definition main1_bird : Main1.Bird := Main1.bird main1_game.

Definition mian_bird : Mian.Bird := Mian.bird mian_game.

(** Two pipes whose right edges, 62 and 67, are left of the bird at 72. *)
Definition main1_pipe (x0 : Z) : Main1.PipePair :=
  Main1.PipePair_init (mkSurface 52 320) x0 250 140 400.

Definition main1_two_pipes : Main1.Game :=
  Main1.set_pipes [main1_pipe 10; main1_pipe 15] main1_game.

Definition mian_pipe (x0 : Z) : Mian.PipePair :=
  Mian.PipePair_init (mkSurface 52 320) x0 250 100 400.

Definition mian_two_pipes : Mian.Game :=
  Mian.set_pipes [mian_pipe (-10); mian_pipe (-5)] mian_game.

(** A game in play in which, after the next 16 ms, the pipe at 21 has its
    right edge left of the bird while the bird is inside the lower pipe of
    the pair at 80. *)
Definition main1_collision : Main1.LoopState :=
  Main1.mkLoop
    (Main1.set_state PLAYING
       (Main1.set_pipes
          [main1_pipe 21;
           Main1.PipePair_init (mkSurface 52 320) 80 100 100 400]
          main1_game))
    true false.

(** A game in play whose bird reaches the ground while the pipe at -3
    gets behind it. *)
Definition mian_collision : Mian.LoopState :=
  Mian.mkLoop
    (Mian.set_state PLAYING
       (Mian.set_bird (Mian.set_motion 380 0 0 mian_bird)
          (Mian.set_pipes [mian_pipe (-3)] mian_game)))
    true false.

(** The bird of [main1.py] after it died: dead, index pinned to 1. *)
Definition main1_dead_bird : Main1.Bird :=
  Main1.set_animation 1 0 (Main1.set_dead true main1_bird).

End Sample.

(** * Vocabulary of the properties *)

(** The inputs that [handle_input] takes for a flap or a confirmation:
    space, arrow up, or the primary mouse button. *)
Definition flap_input (e : Event) : Prop :=
  e = KEYDOWN K_SPACE \/ e = KEYDOWN K_UP \/ e = MOUSEBUTTONDOWN 1.

(** What [update_score] of [main1.py] leaves of one pipe: the flag is set
    when the pipe is counted. *)
Definition mark (bird_x : Q) (p : Main1.PipePair) : Main1.PipePair :=
  if Main1.crossing bird_x p then Main1.set_passed true p else p.

(** Number of pipes that [update_score] counts in one call. *)
Definition points (bird_x : Q) (ps : list Main1.PipePair) : Z :=
  Z.of_nat (List.length (filter (Main1.crossing bird_x) ps)).

(** Number of pipes whose flag is set. *)
Definition passed_count (ps : list Main1.PipePair) : Z :=
  Z.of_nat (List.length (filter Main1.passed ps)).

(** A run of ticks as far as scoring goes: the pipes move by [dt], then
    [update_score] runs. *)
Definition scored_ticks (dts : list Q) (g : Main1.Game) : Main1.Game :=
  fold_left (fun g dt => Main1.update_score (Main1.move_pipes dt g)) dts g.

(** Flags that are set stay set, position by position. *)
Definition flags_kept (ps ps' : list Main1.PipePair) : Prop :=
  Forall2 (fun p p' => Main1.passed p = true -> Main1.passed p' = true) ps ps'.

(** Text without any whitespace character. *)
Definition plain (s : text) : Prop := Forall (fun c => is_space c = false) s.

(** The same vocabulary for [mian.py], where the test of [update_score]
    compares with the left edge of the bird's rectangle. *)
Definition mian_crossing (left : Z) (p : Mian.PipePair) : bool :=
  negb (Mian.passed p)
  && Qltb (Mian.x p + inject_Z (Mian.width p)) (inject_Z left).

Definition mian_mark (left : Z) (p : Mian.PipePair) : Mian.PipePair :=
  if mian_crossing left p then Mian.set_passed true p else p.

Definition mian_points (left : Z) (ps : list Mian.PipePair) : Z :=
  Z.of_nat (List.length (filter (mian_crossing left) ps)).

(** The loop states of [main1.py] that [Game.run] can be in at the head of
    an iteration, starting from [Game.__init__]. *)
Inductive main1_reachable (sin : Q -> Q) : Main1.LoopState -> Prop :=
| reach_init (sp : SpriteLibrary) (w : Main1.World) :
    main1_reachable sin (Main1.mkLoop (Main1.Game_init sp w) true false)
| reach_iteration (ls ls' : Main1.LoopState) (dt_ms : Z) (events : list Event) :
    main1_reachable sin ls ->
    Main1.run_iteration sin dt_ms events ls = Ok ls' ->
    main1_reachable sin ls'.

(** Outside [GAME_OVER] the bird is alive. *)
Definition alive_unless_over (g : Main1.Game) : Prop :=
  Main1.state g <> GAME_OVER -> Main1.dead (Main1.bird g) = false.

(** ** Further vocabulary: the rest of the loop *)

(** The loop states of [mian.py] that [Game.run] can be in at the head of
    an iteration; [now_ms] is what [get_ticks] returned in that iteration. *)
Inductive mian_reachable (sin : Q -> Q)
    (mask_hit : Mian.Bird -> Mian.PipePair -> bool) : Mian.LoopState -> Prop :=
| mian_reach_init (sp : SpriteLibrary) (w : Mian.World) :
    mian_reachable sin mask_hit (Mian.mkLoop (Mian.Game_init sp w) true false)
| mian_reach_iteration (ls ls' : Mian.LoopState) (now_ms dt_ms : Z)
    (events : list Event) :
    mian_reachable sin mask_hit ls ->
    Mian.run_iteration sin mask_hit now_ms dt_ms events ls = Ok ls' ->
    mian_reachable sin mask_hit ls'.

(** What every pipe of [main1.py] keeps from its spawn: a gap of at least
    the minimal size, between the upper band and the ground margin. *)
Definition pipe_in_band (c : Main1.Config) (p : Main1.PipePair) : Prop :=
  Main1.min_pipe_gap c <= Main1.gap_size p
  /\ int_quarter (Main1.screen_height c) <= Main1.top_height p
  /\ Main1.bottom_top p <= Main1.base_y c - 20.

(** The loop of [main1.py] after one long first iteration: the space key
    starts the round, and within the same two seconds a pipe is spawned and
    passed and the bird reaches the ground. *)
Definition main1_first_loop : Main1.LoopState :=
  Main1.mkLoop Sample.main1_game true false.

Definition main1_played : Main1.LoopState :=
  match Main1.run_iteration Sample.no_sin 2000 [KEYDOWN K_SPACE] main1_first_loop with
  | Ok ls => ls
  | Raise _ => main1_first_loop
  end.

(** The events on which the loop of [main1.py] clears [running]: the
    window's quit request and the escape key.  In [mian.py] only the quit
    request does. *)
Definition main1_is_quit (e : Event) : bool :=
  match e with
  | QUIT | KEYDOWN K_ESCAPE => true
  | _ => false
  end.

Definition mian_is_quit (e : Event) : bool :=
  match e with
  | QUIT => true
  | _ => false
  end.

(** The two-pipe game of the samples with a store that cannot be written. *)
Definition main1_two_pipes_readonly : Main1.Game :=
  Main1.set_world
    (Main1.mkWorld [] Sample.sample_random (mkFileStore None false))
    Sample.main1_two_pipes.

(** [PipePair.draw] of [main1.py]: where the flipped and the upright pipe
    image are blitted (their top-left corners). *)
Definition main1_pipe_draw (p : Main1.PipePair) : (Z * Z) * (Z * Z) :=
  let (top_rect, bottom_rect) := Main1.rects p in
  let draw_top :=
    mkRect (py_int (Main1.x p) - 2) (rect_top top_rect) (Main1.width p)
           (rect_h top_rect) in
  let draw_bottom :=
    mkRect (py_int (Main1.x p) - 2) (rect_top bottom_rect) (Main1.width p)
           (rect_h bottom_rect) in
  ((rect_left draw_top, rect_top draw_top),
   (rect_left draw_bottom, rect_top draw_bottom)).

(** A tick of [mian.py] in which the rotation step [rot_down_speed * dt]
    is not negative, as with the constants of the game and a clock that
    runs forward. *)
Definition mian_turns_down (a : MianScript.Action) : Prop :=
  match a with
  | MianScript.Tick dt _ _ rot_down_speed => (0 <= rot_down_speed * dt)%Q
  | MianScript.Flap _ => True
  end.

(** [[int(d) for d in text]], evaluated left to right. *)
Fixpoint int_each (s : text) : result (list Z) :=
  match s with
  | [] => Ok []
  | c :: r => d <- int_of_text [c] ;; ds <- int_each r ;; Ok (d :: ds)
  end.

(** The digits that [draw_score] and [draw_high_score] look up in
    [sprites.digits]: [[int(d) for d in str(n)]]. *)
Definition score_digits (n : Z) : result (list Z) := int_each (py_str n).

(** The loop of [mian.py] after one long first iteration, in which a pipe
    is spawned and passed while the bird drops to the ground. *)
Definition mian_first_loop : Mian.LoopState :=
  Mian.mkLoop Sample.mian_game true false.

Definition mian_played : Mian.LoopState :=
  match Mian.run_iteration Sample.no_sin Sample.no_mask_hit 0 2100
          [KEYDOWN K_SPACE] mian_first_loop with
  | Ok ls => ls
  | Raise _ => mian_first_loop
  end.

(** * Properties *)

(** ** Generic facts *)

Lemma bind_Ok {A B : Type} (r : result A) (k : A -> result B) (b : B) :
  bind r k = Ok b -> exists a, r = Ok a /\ k a = Ok b.
Proof.
  destruct r as [a|e]; simpl; intro H; [exists a; split; auto | discriminate].
Qed.

Lemma Qltb_true (a b : Q) : Qltb a b = true <-> (a < b)%Q.
Proof.
  unfold Qltb. rewrite negb_true_iff. split; intro H.
  - apply Qnot_le_lt. intro Hle. apply Qle_bool_iff in Hle. congruence.
  - destruct (Qle_bool b a) eqn:E; [|reflexivity].
    apply Qle_bool_iff in E. exfalso. exact (Qlt_not_le _ _ H E).
Qed.

Lemma Qltb_false (a b : Q) : Qltb a b = false <-> (b <= a)%Q.
Proof.
  unfold Qltb. rewrite negb_false_iff. apply Qle_bool_iff.
Qed.

Lemma py_min_le_r (a b : Q) : (py_min a b <= b)%Q.
Proof.
  unfold py_min. destruct (Qltb b a) eqn:E.
  - apply Qle_refl.
  - apply Qltb_false in E. exact E.
Qed.

Lemma py_mod_Ok (a b : Z) : b <> 0 -> py_mod a b = Ok (a mod b).
Proof.
  intro H. unfold py_mod. destruct (b =? 0) eqn:E; [lia | reflexivity].
Qed.

(** ** Terminal velocity (C3) *)

Lemma main1_update_animation_frame (b b1 : Main1.Bird) (dt : Q) :
  Main1.update_animation b dt = Ok b1 ->
  Main1.max_fall_speed b1 = Main1.max_fall_speed b
  /\ Main1.frames b1 = Main1.frames b
  /\ Main1.dead b1 = Main1.dead b
  /\ Main1.velocity_y b1 = Main1.velocity_y b.
Proof.
  unfold Main1.update_animation.
  destruct (Main1.dead b) eqn:D.
  - intro H. injection H as <-. simpl. auto.
  - destruct (Qle_bool _ _).
    + intro H. apply bind_Ok in H. destruct H as [i [_ H]].
      injection H as <-. simpl. auto.
    + intro H. injection H as <-. simpl. auto.
Qed.

Lemma main1_update_animation_total (b : Main1.Bird) (dt : Q) :
  Main1.frames b <> [] -> exists b1, Main1.update_animation b dt = Ok b1.
Proof.
  intro Hf. unfold Main1.update_animation.
  destruct (Main1.dead b); [eexists; reflexivity|].
  destruct (Qle_bool _ _); [|eexists; reflexivity].
  rewrite py_mod_Ok; [simpl; eexists; reflexivity|].
  unfold Main1.len_frames. destruct (Main1.frames b); [congruence | simpl; lia].
Qed.

Lemma main1_update_cap sin (b b' : Main1.Bird) (dt gravity rs : Q) :
  Main1.update sin b dt gravity rs true = Ok b' ->
  (Main1.velocity_y b' <= Main1.max_fall_speed b)%Q
  /\ Main1.max_fall_speed b' = Main1.max_fall_speed b
  /\ Main1.frames b' = Main1.frames b.
Proof.
  unfold Main1.update. intro H. apply bind_Ok in H.
  destruct H as [b1 [H1 H]]. injection H as <-.
  apply main1_update_animation_frame in H1. destruct H1 as [Hm [Hf _]].
  unfold Main1.update_motion. simpl. rewrite <- Hm.
  split; [apply py_min_le_r | auto].
Qed.

Lemma main1_flap_frame (b : Main1.Bird) (impulse : Q) :
  Main1.max_fall_speed (Main1.flap b impulse) = Main1.max_fall_speed b
  /\ Main1.frames (Main1.flap b impulse) = Main1.frames b.
Proof.
  unfold Main1.flap. destruct (negb (Main1.dead b)); simpl; auto.
Qed.

Lemma main1_act_frame sin a (b b' : Main1.Bird) :
  Main1Script.act sin a b = Ok b' ->
  Main1.max_fall_speed b' = Main1.max_fall_speed b
  /\ Main1.frames b' = Main1.frames b.
Proof.
  destruct a as [dt gravity rs | impulse]; simpl; intro H.
  - apply main1_update_cap in H. tauto.
  - injection H as <-. apply main1_flap_frame.
Qed.

Lemma main1_act_total sin a (b : Main1.Bird) :
  Main1.frames b <> [] -> exists b', Main1Script.act sin a b = Ok b'.
Proof.
  intro Hf. destruct a as [dt gravity rs | impulse]; simpl.
  - unfold Main1.update.
    destruct (main1_update_animation_total b dt Hf) as [b1 ->].
    simpl. eexists; reflexivity.
  - eexists; reflexivity.
Qed.

Lemma main1_script_cap sin acts : forall (b b' : Main1.Bird) dt gravity rs,
  Main1Script.play_actions sin (acts ++ [Main1Script.Tick dt gravity rs]) b = Ok b' ->
  (Main1.velocity_y b' <= Main1.max_fall_speed b)%Q.
Proof.
  induction acts as [|a acts IH]; intros b b' dt gravity rs H.
  - simpl in H. apply bind_Ok in H. destruct H as [b1 [H1 H]].
    injection H as <-. apply main1_update_cap in H1. tauto.
  - simpl in H. apply bind_Ok in H. destruct H as [b1 [H1 H]].
    apply IH in H. apply main1_act_frame in H1. destruct H1 as [Hm _].
    rewrite <- Hm. exact H.
Qed.

Lemma main1_script_total sin acts : forall (b : Main1.Bird),
  Main1.frames b <> [] -> exists b', Main1Script.play_actions sin acts b = Ok b'.
Proof.
  induction acts as [|a acts IH]; intros b Hf.
  - eexists; reflexivity.
  - simpl. destruct (main1_act_total sin a b Hf) as [b1 H1]. rewrite H1. simpl.
    apply IH. apply main1_act_frame in H1. destruct H1 as [_ ->]. exact Hf.
Qed.

Lemma mian_animate_frame (b b1 : Mian.Bird) (dt : Q) :
  Mian.animate b dt = Ok b1 ->
  Mian.frames b1 = Mian.frames b /\ Mian.velocity_y b1 = Mian.velocity_y b
  /\ Mian.dead b1 = Mian.dead b.
Proof.
  unfold Mian.animate, Mian.update_animation.
  destruct (Mian.dead b) eqn:D.
  - intro H. injection H as <-. simpl. auto.
  - destruct (Qle_bool _ _).
    + intro H. apply bind_Ok in H. destruct H as [i [_ H]].
      injection H as <-. simpl. auto.
    + intro H. injection H as <-. simpl. auto.
Qed.

Lemma mian_animate_total (b : Mian.Bird) (dt : Q) :
  Mian.frames b <> [] -> exists b1, Mian.animate b dt = Ok b1.
Proof.
  intro Hf. unfold Mian.animate, Mian.update_animation.
  destruct (Mian.dead b); [eexists; reflexivity|].
  destruct (Qle_bool _ _); [|eexists; reflexivity].
  rewrite py_mod_Ok; [simpl; eexists; reflexivity|].
  unfold Mian.len_frames. destruct (Mian.frames b); [congruence | simpl; lia].
Qed.

Lemma mian_update_cap (b b' : Mian.Bird) (dt gravity cap rd : Q) :
  Mian.update b dt gravity cap rd = Ok b' ->
  (Mian.velocity_y b' <= cap)%Q /\ Mian.frames b' = Mian.frames b.
Proof.
  unfold Mian.update. intro H. apply bind_Ok in H.
  destruct H as [b1 [H1 H]]. injection H as <-.
  apply mian_animate_frame in H1. destruct H1 as [Hf _].
  unfold Mian.integrate. simpl. split; [apply py_min_le_r | auto].
Qed.

Lemma mian_act_frames a (b b' : Mian.Bird) :
  MianScript.act a b = Ok b' -> Mian.frames b' = Mian.frames b.
Proof.
  destruct a as [dt gravity cap rd | impulse]; simpl; intro H.
  - apply mian_update_cap in H. tauto.
  - injection H as <-. unfold Mian.flap.
    destruct (negb (Mian.dead b)); reflexivity.
Qed.

Lemma mian_script_cap acts : forall (b b' : Mian.Bird) dt gravity cap rd,
  MianScript.play_actions (acts ++ [MianScript.Tick dt gravity cap rd]) b = Ok b' ->
  (Mian.velocity_y b' <= cap)%Q.
Proof.
  induction acts as [|a acts IH]; intros b b' dt gravity cap rd H.
  - simpl in H. apply bind_Ok in H. destruct H as [b1 [H1 H]].
    injection H as <-. apply mian_update_cap in H1. tauto.
  - simpl in H. apply bind_Ok in H. destruct H as [b1 [_ H]].
    exact (IH _ _ _ _ _ _ H).
Qed.

Lemma mian_script_total acts : forall (b : Mian.Bird),
  Mian.frames b <> [] -> exists b', MianScript.play_actions acts b = Ok b'.
Proof.
  induction acts as [|a acts IH]; intros b Hf.
  - eexists; reflexivity.
  - simpl.
    assert (exists b1, MianScript.act a b = Ok b1) as [b1 H1].
    { destruct a as [dt gravity cap rd | impulse]; simpl.
      - unfold Mian.update. destruct (mian_animate_total b dt Hf) as [b1 ->].
        simpl. eexists; reflexivity.
      - eexists; reflexivity. }
    rewrite H1. simpl. apply IH.
    rewrite (mian_act_frames _ _ _ H1). exact Hf.
Qed.

(** C3.  After every integration step the vertical velocity is at most the
    fall-speed cap.  Whatever ticks and flaps came before, with any [dt], any
    gravity (the death drop's [1.5 * gravity] included) and any impulses, a
    script that ends in a tick leaves [velocity_y <= max_fall_speed]; and a
    bird with at least one frame runs every script to its end.  In
    [main1.py] the cap is the bird's own attribute, in [mian.py] it is the
    argument of the last tick. *)
Theorem velocity_capped_after_integration :
  (forall sin acts (b : Main1.Bird) dt gravity rs,
      (forall b', Main1Script.play_actions sin
                    (acts ++ [Main1Script.Tick dt gravity rs]) b = Ok b' ->
                  (Main1.velocity_y b' <= Main1.max_fall_speed b)%Q)
      /\ (Main1.frames b <> [] ->
          exists b', Main1Script.play_actions sin
                       (acts ++ [Main1Script.Tick dt gravity rs]) b = Ok b'))
  /\
  (forall acts (b : Mian.Bird) dt gravity cap rd,
      (forall b', MianScript.play_actions
                    (acts ++ [MianScript.Tick dt gravity cap rd]) b = Ok b' ->
                  (Mian.velocity_y b' <= cap)%Q)
      /\ (Mian.frames b <> [] ->
          exists b', MianScript.play_actions
                       (acts ++ [MianScript.Tick dt gravity cap rd]) b = Ok b')).
Proof.
  split.
  - intros sin acts b dt gravity rs. split.
    + intros b' H. exact (main1_script_cap sin acts b b' dt gravity rs H).
    + intro Hf. apply main1_script_total. exact Hf.
  - intros acts b dt gravity cap rd. split.
    + intros b' H. exact (mian_script_cap acts b b' dt gravity cap rd H).
    + intro Hf. apply mian_script_total. exact Hf.
Qed.

Lemma velocity_capped_witness :
  (exists b', Main1Script.play_actions Sample.no_sin
                ([Main1Script.Flap 280; Main1Script.Tick (1 # 60) 700 8]
                 ++ [Main1Script.Tick (1 # 60) 1050 8]) Sample.main1_bird = Ok b'
              /\ (Main1.velocity_y b' <= 400)%Q)
  /\
  (exists b', MianScript.play_actions
                ([MianScript.Flap 350] ++ [MianScript.Tick 1 1800 600 250])
                Sample.mian_bird = Ok b'
              /\ (Mian.velocity_y b' <= 600)%Q).
Proof.
  split.
  - destruct (proj1 velocity_capped_after_integration Sample.no_sin
                [Main1Script.Flap 280; Main1Script.Tick (1 # 60) 700 8]
                Sample.main1_bird (1 # 60) 1050%Q 8%Q) as [Hcap Htot].
    destruct (Htot ltac:(discriminate)) as [b' Hb'].
    exists b'. split; [exact Hb' | exact (Hcap b' Hb')].
  - destruct (proj2 velocity_capped_after_integration
                [MianScript.Flap 350] Sample.mian_bird 1%Q 1800%Q 600%Q 250%Q)
      as [Hcap Htot].
    destruct (Htot ltac:(discriminate)) as [b' Hb'].
    exists b'. split; [exact Hb' | exact (Hcap b' Hb')].
Defined.

(** ** The flap impulse (C4) *)

(** C4, as the code has it.  On a living bird [flap] sets
    [velocity_y = -impulse]; in [main1.py] that is the only field that
    changes, in [mian.py] the rotation is also snapped to 45 degrees and
    nothing else changes.  On a dead bird [flap] changes nothing, in both
    files. *)
Theorem flap_effect :
  (forall (b : Main1.Bird) (impulse : Q),
      (Main1.dead b = false ->
       Main1.flap b impulse =
       Main1.mkBird (Main1.frames b) (Main1.animation_index b)
         (Main1.animation_timer b) (Main1.animation_interval b)
         (Main1.position_x b) (Main1.position_y b) (- impulse)
         (Main1.rotation b) (Main1.dead b) (Main1.max_fall_speed b)
         (Main1.wobble_amplitude b) (Main1.wobble_timer b))
      /\ (Main1.dead b = true -> Main1.flap b impulse = b))
  /\
  (forall (b : Mian.Bird) (impulse : Q),
      (Mian.dead b = false ->
       Mian.flap b impulse =
       Mian.mkBird (Mian.frames b) (Mian.animation_index b)
         (Mian.animation_timer b) (Mian.animation_interval b)
         (Mian.position_x b) (Mian.position_y b) (- impulse) 45
         (Mian.dead b))
      /\ (Mian.dead b = true -> Mian.flap b impulse = b)).
Proof.
  split; intros b impulse; split; intro D.
  - unfold Main1.flap. destruct b. simpl in *. subst. reflexivity.
  - unfold Main1.flap. rewrite D. reflexivity.
  - unfold Mian.flap. destruct b. simpl in *. subst. reflexivity.
  - unfold Mian.flap. rewrite D. reflexivity.
Qed.

Lemma flap_effect_witness :
  Main1.velocity_y (Main1.flap Sample.main1_bird 280) = (- (280))%Q
  /\ Main1.rotation (Main1.flap Sample.main1_bird 280) = 0%Q
  /\ Main1.flap (Main1.set_dead true Sample.main1_bird) 280
     = Main1.set_dead true Sample.main1_bird
  /\ Mian.velocity_y (Mian.flap Sample.mian_bird 350) = (- (350))%Q
  /\ Mian.rotation (Mian.flap Sample.mian_bird 350) = 45%Q
  /\ Mian.flap (Mian.set_dead true Sample.mian_bird) 350
     = Mian.set_dead true Sample.mian_bird.
Proof.
  destruct flap_effect as [H1 H2].
  destruct (H1 Sample.main1_bird 280%Q) as [Ha _].
  destruct (H1 (Main1.set_dead true Sample.main1_bird) 280%Q) as [_ Hd].
  destruct (H2 Sample.mian_bird 350%Q) as [Hb _].
  destruct (H2 (Mian.set_dead true Sample.mian_bird) 350%Q) as [_ He].
  split; [rewrite (Ha eq_refl); reflexivity|].
  split; [rewrite (Ha eq_refl); reflexivity|].
  split; [exact (Hd eq_refl)|].
  split; [rewrite (Hb eq_refl); reflexivity|].
  split; [rewrite (Hb eq_refl); reflexivity|].
  exact (He eq_refl).
Defined.

(** In [mian.py] a flap on a living bird does change another field: the
    rotation of the fresh bird goes from 0 to 45. *)
Lemma flap_changes_rotation_in_mian :
  Mian.dead Sample.mian_bird = false
  /\ Mian.rotation Sample.mian_bird = 0%Q
  /\ Mian.rotation (Mian.flap Sample.mian_bird 350) = 45%Q
  /\ ~ (Mian.rotation (Mian.flap Sample.mian_bird 350)
        == Mian.rotation Sample.mian_bird)%Q.
Proof.
  repeat split. intro H. vm_compute in H. discriminate.
Qed.

(** ** The animation index (C8) *)

Lemma three_frames_len (A : Type) (l : list A) :
  List.length l = 3%nat -> Z.of_nat (List.length l) = 3.
Proof. intros ->. reflexivity. Qed.

(** C8, as the code has it.  With the three frames of a bird set, every
    [Bird.update] of a living bird adds [dt] to the animation timer and,
    once the timer has reached the interval, resets it and steps the index
    to the next of the three phases; on a dead bird every update pins the
    index to 1 and leaves the timer alone, so a dead bird does not cycle.
    The same holds in both files. *)
Theorem animation_advance :
  (forall sin (b : Main1.Bird) dt gravity rs playing,
      List.length (Main1.frames b) = 3%nat ->
      exists b', Main1.update sin b dt gravity rs playing = Ok b'
        /\ (Main1.dead b = true ->
            Main1.animation_index b' = 1
            /\ Main1.animation_timer b' = Main1.animation_timer b)
        /\ (Main1.dead b = false ->
            (Main1.animation_interval b <= Main1.animation_timer b + dt)%Q ->
            Main1.animation_index b' = (Main1.animation_index b + 1) mod 3
            /\ Main1.animation_timer b' = 0%Q)
        /\ (Main1.dead b = false ->
            (Main1.animation_timer b + dt < Main1.animation_interval b)%Q ->
            Main1.animation_index b' = Main1.animation_index b
            /\ Main1.animation_timer b' = (Main1.animation_timer b + dt)%Q))
  /\
  (forall (b : Mian.Bird) dt gravity cap rd,
      List.length (Mian.frames b) = 3%nat ->
      exists b', Mian.update b dt gravity cap rd = Ok b'
        /\ (Mian.dead b = true ->
            Mian.animation_index b' = 1
            /\ Mian.animation_timer b' = Mian.animation_timer b)
        /\ (Mian.dead b = false ->
            (Mian.animation_interval b <= Mian.animation_timer b + dt)%Q ->
            Mian.animation_index b' = (Mian.animation_index b + 1) mod 3
            /\ Mian.animation_timer b' = 0%Q)
        /\ (Mian.dead b = false ->
            (Mian.animation_timer b + dt < Mian.animation_interval b)%Q ->
            Mian.animation_index b' = Mian.animation_index b
            /\ Mian.animation_timer b' = (Mian.animation_timer b + dt)%Q)).
Proof.
  split.
  - intros sin b dt gravity rs playing Hlen.
    unfold Main1.update, Main1.update_animation, Main1.len_frames.
    rewrite (three_frames_len _ _ Hlen).
    destruct (Main1.dead b) eqn:D.
    + simpl. eexists. split; [reflexivity|].
      unfold Main1.update_motion. destruct playing; simpl;
        (split; [auto | split; discriminate]).
    + destruct (Qle_bool (Main1.animation_interval b)
                         (Main1.animation_timer b + dt)) eqn:E.
      * simpl. eexists. split; [reflexivity|].
        unfold Main1.update_motion. destruct playing; simpl;
          (split; [discriminate | split; [auto|]]);
          intros _ Hlt; apply Qle_bool_iff in E;
          exfalso; exact (Qlt_not_le _ _ Hlt E).
      * simpl. eexists. split; [reflexivity|].
        unfold Main1.update_motion. destruct playing; simpl;
          (split; [discriminate | split; [|auto]]);
          intros _ Hle; apply Qle_bool_iff in Hle; congruence.
  - intros b dt gravity cap rd Hlen.
    unfold Mian.update, Mian.animate, Mian.update_animation, Mian.len_frames.
    rewrite (three_frames_len _ _ Hlen).
    destruct (Mian.dead b) eqn:D.
    + simpl. eexists. split; [reflexivity|].
      simpl. split; [auto | split; discriminate].
    + destruct (Qle_bool (Mian.animation_interval b)
                         (Mian.animation_timer b + dt)) eqn:E.
      * simpl. eexists. split; [reflexivity|].
        simpl. split; [discriminate | split; [auto|]].
        intros _ Hlt. apply Qle_bool_iff in E.
        exfalso. exact (Qlt_not_le _ _ Hlt E).
      * simpl. eexists. split; [reflexivity|].
        simpl. split; [discriminate | split; [|auto]].
        intros _ Hle. apply Qle_bool_iff in Hle. congruence.
Qed.

Lemma animation_advance_witness :
  (exists b', Main1.update Sample.no_sin Sample.main1_bird (1 # 10) 700 8 true = Ok b'
              /\ Main1.animation_index b' = 1 /\ Main1.animation_timer b' = 0%Q)
  /\
  (exists b', Mian.update (Mian.set_dead true Sample.mian_bird) 1 1800 600 250 = Ok b'
              /\ Mian.animation_index b' = 1
              /\ Mian.animation_timer b' = 0%Q).
Proof.
  destruct animation_advance as [H1 H2]. split.
  - destruct (H1 Sample.no_sin Sample.main1_bird (1 # 10) 700%Q 8%Q true eq_refl)
      as [b' [Hb [_ [Hfire _]]]].
    exists b'. split; [exact Hb|].
    apply (Hfire eq_refl). vm_compute. discriminate.
  - destruct (H2 (Mian.set_dead true Sample.mian_bird) 1%Q 1800%Q 600%Q 250%Q eq_refl)
      as [b' [Hb [Hdead _]]].
    exists b'. split; [exact Hb|]. exact (Hdead eq_refl).
Defined.

(** A dead bird does not cycle through two phases: with the index at 1 and
    the interval elapsed, the update leaves the index at 1, where a
    two-phase cycle would step it to [(1 + 1) mod 2 = 0]. *)
Lemma dead_bird_animation_is_pinned :
  Main1.dead Sample.main1_dead_bird = true
  /\ Main1.animation_index Sample.main1_dead_bird = 1
  /\ (Main1.animation_interval Sample.main1_dead_bird
      <= Main1.animation_timer Sample.main1_dead_bird + 1)%Q
  /\ exists b',
       Main1.update Sample.no_sin Sample.main1_dead_bird 1 700 8 true = Ok b'
       /\ Main1.animation_index b' = 1
       /\ Main1.animation_index b'
          <> (Main1.animation_index Sample.main1_dead_bird + 1) mod 2.
Proof.
  split; [reflexivity|]. split; [reflexivity|].
  split; [vm_compute; discriminate|].
  eexists. split; [reflexivity|]. split; [reflexivity|].
  vm_compute. discriminate.
Qed.

(** ** Scoring in [main1.py] (C1, C6) *)

Lemma main1_add_point_frame (g : Main1.Game) :
  Main1.score (Main1.add_point g) = Main1.score g + 1
  /\ Main1.high_score (Main1.add_point g)
     = Z.max (Main1.high_score g) (Main1.score g + 1)
  /\ Main1.bird (Main1.add_point g) = Main1.bird g
  /\ Main1.state (Main1.add_point g) = Main1.state g
  /\ Main1.config (Main1.add_point g) = Main1.config g.
Proof.
  unfold Main1.add_point. simpl.
  destruct (Main1.score g + 1 >? Main1.high_score g) eqn:E; simpl;
    repeat split; lia.
Qed.

Lemma main1_score_pipes_spec ps : forall (g : Main1.Game),
  fst (Main1.score_pipes ps g) = map (mark (Main1.position_x (Main1.bird g))) ps
  /\ Main1.score (snd (Main1.score_pipes ps g))
     = Main1.score g + points (Main1.position_x (Main1.bird g)) ps
  /\ Main1.bird (snd (Main1.score_pipes ps g)) = Main1.bird g
  /\ Main1.state (snd (Main1.score_pipes ps g)) = Main1.state g
  /\ Main1.config (snd (Main1.score_pipes ps g)) = Main1.config g.
Proof.
  induction ps as [|p ps IH]; intro g.
  - unfold points. simpl. repeat split; lia.
  - simpl. unfold mark at 1. unfold points. simpl.
    destruct (Main1.crossing (Main1.position_x (Main1.bird g)) p) eqn:C.
    + specialize (IH (Main1.add_point g)).
      destruct (main1_add_point_frame g) as [Hs [_ [Hb [Hst Hc]]]].
      destruct (Main1.score_pipes ps (Main1.add_point g)) as [rest g'].
      simpl in *. rewrite Hb in IH. destruct IH as [I1 [I2 [I3 [I4 I5]]]].
      unfold points in I2.
      repeat split; try congruence.
      rewrite I2, Hs. lia.
    + specialize (IH g).
      destruct (Main1.score_pipes ps g) as [rest g'].
      simpl in *. destruct IH as [I1 [I2 [I3 [I4 I5]]]].
      repeat split; try congruence. exact I2.
Qed.

Lemma main1_update_score_spec (g : Main1.Game) :
  Main1.pipes (Main1.update_score g)
  = map (mark (Main1.position_x (Main1.bird g))) (Main1.pipes g)
  /\ Main1.score (Main1.update_score g)
     = Main1.score g + points (Main1.position_x (Main1.bird g)) (Main1.pipes g)
  /\ Main1.bird (Main1.update_score g) = Main1.bird g
  /\ Main1.state (Main1.update_score g) = Main1.state g
  /\ Main1.config (Main1.update_score g) = Main1.config g.
Proof.
  unfold Main1.update_score.
  pose proof (main1_score_pipes_spec (Main1.pipes g) g) as H.
  destruct (Main1.score_pipes (Main1.pipes g) g) as [ps g']. simpl in *.
  exact H.
Qed.

Lemma main1_score_pipes_best ps : forall (g : Main1.Game),
  Main1.score g <= Main1.high_score g ->
  Main1.score (snd (Main1.score_pipes ps g))
  <= Main1.high_score (snd (Main1.score_pipes ps g)).
Proof.
  induction ps as [|p ps IH]; intros g H.
  - exact H.
  - simpl. destruct (Main1.crossing _ p).
    + assert (Main1.score (Main1.add_point g)
              <= Main1.high_score (Main1.add_point g)) as H'.
      { destruct (main1_add_point_frame g) as [Hs [Hh _]]. lia. }
      specialize (IH _ H').
      destruct (Main1.score_pipes ps (Main1.add_point g)). exact IH.
    + specialize (IH _ H). destruct (Main1.score_pipes ps g). exact IH.
Qed.

Lemma passed_count_mark bx ps :
  passed_count (map (mark bx) ps) = passed_count ps + points bx ps.
Proof.
  unfold passed_count, points.
  rewrite <- Nat2Z.inj_add. f_equal.
  induction ps as [|p ps IH]; [reflexivity|].
  cbn [map filter].
  destruct (Main1.crossing bx p) eqn:C.
  - assert (Main1.passed p = false) as P.
    { unfold Main1.crossing in C. destruct (Main1.passed p); [discriminate|reflexivity]. }
    replace (mark bx p) with (Main1.set_passed true p)
      by (unfold mark; rewrite C; reflexivity).
    rewrite P. cbn [Main1.passed Main1.set_passed List.length]. lia.
  - replace (mark bx p) with p by (unfold mark; rewrite C; reflexivity).
    destruct (Main1.passed p); cbn [List.length]; lia.
Qed.

Lemma passed_count_move dt ps :
  passed_count (map (Main1.PipePair_update dt) ps) = passed_count ps.
Proof.
  unfold passed_count. f_equal.
  induction ps as [|p ps IH]; [reflexivity|].
  cbn [map filter Main1.PipePair_update Main1.set_x Main1.passed].
  destruct (Main1.passed p); cbn [List.length]; lia.
Qed.

Lemma flags_kept_refl ps : flags_kept ps ps.
Proof. induction ps; constructor; auto. Qed.

Lemma flags_kept_trans ps1 : forall ps2 ps3,
  flags_kept ps1 ps2 -> flags_kept ps2 ps3 -> flags_kept ps1 ps3.
Proof.
  induction ps1 as [|p ps1 IH]; intros ps2 ps3 H12 H23.
  - inversion H12; subst. inversion H23; subst. constructor.
  - inversion H12; subst. inversion H23; subst. constructor; eauto.
    eapply IH; eassumption.
Qed.

Lemma flags_kept_tick bx dt ps :
  flags_kept ps (map (mark bx) (map (Main1.PipePair_update dt) ps)).
Proof.
  induction ps as [|p ps IH]; simpl; constructor; [|exact IH].
  unfold mark. destruct (Main1.crossing bx _); simpl; auto.
Qed.

Lemma scored_ticks_account dts : forall (g : Main1.Game),
  Main1.score (scored_ticks dts g)
  = Main1.score g
    + (passed_count (Main1.pipes (scored_ticks dts g))
       - passed_count (Main1.pipes g))
  /\ flags_kept (Main1.pipes g) (Main1.pipes (scored_ticks dts g)).
Proof.
  induction dts as [|dt dts IH]; intro g.
  - simpl. split; [lia | apply flags_kept_refl].
  - simpl. specialize (IH (Main1.update_score (Main1.move_pipes dt g))).
    destruct IH as [IS IF].
    destruct (main1_update_score_spec (Main1.move_pipes dt g)) as [Hp [Hs _]].
    unfold scored_ticks in *. simpl in *.
    rewrite Hp in IS, IF. rewrite Hs in IS.
    rewrite passed_count_mark, passed_count_move in IS.
    split; [lia|].
    eapply flags_kept_trans; [apply flags_kept_tick | exact IF].
Qed.

Lemma passed_count_all ps : forall ps',
  Forall (fun p => Main1.passed p = true) ps -> flags_kept ps ps' ->
  passed_count ps' = passed_count ps.
Proof.
  unfold passed_count.
  induction ps as [|p ps IH]; intros ps' Hall Hk.
  - inversion Hk. reflexivity.
  - inversion Hk as [|? p' ? ps1 Hp Hrest]; subst.
    inversion Hall as [|? ? Hpp Hall']; subst.
    specialize (IH _ Hall' Hrest).
    cbn [filter]. rewrite Hpp, (Hp Hpp). cbn [List.length]. lia.
Qed.

Lemma crossing_iff bx (p : Main1.PipePair) :
  Main1.crossing bx p = true
  <-> Main1.passed p = false
      /\ (Main1.x p + inject_Z (Main1.width p) < bx)%Q.
Proof.
  unfold Main1.crossing. rewrite andb_true_iff, negb_true_iff, Qltb_true.
  tauto.
Qed.

(** C1.  [update_score] of [main1.py] gives one point for each pipe that is
    not yet flagged and whose right edge [x + width] is strictly left of
    the bird's [position_x], and flags exactly those pipes; so two pipes
    crossing in the same tick give two points.  Over any sequence of [dt],
    the score gained equals the number of flags that were set in the
    meantime and a set flag stays set: no pipe is counted twice, and once
    all pipes are flagged the score no longer moves. *)
Theorem score_once_per_obstacle :
  (forall (g : Main1.Game),
      Main1.pipes (Main1.update_score g)
      = map (mark (Main1.position_x (Main1.bird g))) (Main1.pipes g)
      /\ Main1.score (Main1.update_score g)
         = Main1.score g
           + points (Main1.position_x (Main1.bird g)) (Main1.pipes g))
  /\ (forall bx (p : Main1.PipePair),
        (Main1.crossing bx p = true
         <-> Main1.passed p = false
             /\ (Main1.x p + inject_Z (Main1.width p) < bx)%Q)
        /\ Main1.passed (mark bx p)
           = Main1.passed p || Main1.crossing bx p)
  /\ (forall (g : Main1.Game) p q,
        Main1.pipes g = [p; q] ->
        Main1.crossing (Main1.position_x (Main1.bird g)) p = true ->
        Main1.crossing (Main1.position_x (Main1.bird g)) q = true ->
        Main1.score (Main1.update_score g) = Main1.score g + 2)
  /\ (forall dts (g : Main1.Game),
        Main1.score (scored_ticks dts g)
        = Main1.score g
          + (passed_count (Main1.pipes (scored_ticks dts g))
             - passed_count (Main1.pipes g))
        /\ flags_kept (Main1.pipes g) (Main1.pipes (scored_ticks dts g)))
  /\ (forall dts (g : Main1.Game),
        Forall (fun p => Main1.passed p = true) (Main1.pipes g) ->
        Main1.score (scored_ticks dts g) = Main1.score g).
Proof.
  split; [|split; [|split; [|split]]].
  - intro g. destruct (main1_update_score_spec g) as [Hp [Hs _]]. auto.
  - intros bx p. split; [apply crossing_iff|].
    unfold mark. destruct (Main1.crossing bx p) eqn:C.
    + simpl. symmetry. apply orb_true_r.
    + symmetry. apply orb_false_r.
  - intros g p q Hps Hp Hq.
    destruct (main1_update_score_spec g) as [_ [Hs _]].
    rewrite Hs, Hps. unfold points. cbn [filter]. rewrite Hp, Hq. reflexivity.
  - intros dts g. apply scored_ticks_account.
  - intros dts g Hall.
    destruct (scored_ticks_account dts g) as [Hs Hk].
    rewrite (passed_count_all _ _ Hall Hk) in Hs. lia.
Qed.

Lemma score_once_per_obstacle_witness :
  Main1.score (Main1.update_score Sample.main1_two_pipes)
  = Main1.score Sample.main1_two_pipes + 2
  /\ Main1.score (scored_ticks [1 # 60; 1 # 60]%Q
                   (Main1.update_score Sample.main1_two_pipes))
     = Main1.score (Main1.update_score Sample.main1_two_pipes).
Proof.
  destruct score_once_per_obstacle as [_ [_ [Htwo [_ Hnever]]]].
  split.
  - apply (Htwo Sample.main1_two_pipes (Sample.main1_pipe 10) (Sample.main1_pipe 15));
      reflexivity.
  - apply Hnever. vm_compute. repeat constructor.
Defined.

(** ** Scoring in [mian.py] (C6) *)

Lemma mian_add_point_frame (g : Mian.Game) :
  Mian.score (Mian.add_point g) = Mian.score g + 1
  /\ Mian.high_score (Mian.add_point g)
     = Z.max (Mian.high_score g) (Mian.score g + 1)
  /\ Mian.bird (Mian.add_point g) = Mian.bird g.
Proof. unfold Mian.add_point. simpl. auto. Qed.

Lemma mian_score_pipes_best ps : forall (g : Mian.Game) rg,
  Mian.score g <= Mian.high_score g ->
  Mian.score_pipes ps g = Ok rg ->
  Mian.score (snd rg) <= Mian.high_score (snd rg).
Proof.
  induction ps as [|p ps IH]; intros g rg H Hrun.
  - simpl in Hrun. injection Hrun as <-. exact H.
  - simpl in Hrun. apply bind_Ok in Hrun. destruct Hrun as [c [_ Hrun]].
    destruct c; apply bind_Ok in Hrun; destruct Hrun as [rg' [Hrest Hrun]];
      injection Hrun as <-; simpl.
    + apply (IH (Mian.add_point g)); [|exact Hrest].
      destruct (mian_add_point_frame g) as [Hs [Hh _]]. lia.
    + apply (IH g); assumption.
Qed.

Lemma mian_rect_total (b : Mian.Bird) :
  Mian.frames b <> [] -> exists r, Mian.rect b = Ok r.
Proof.
  intro Hf. unfold Mian.rect, Mian.image.
  rewrite py_mod_Ok; [simpl; eexists; reflexivity|].
  unfold Mian.len_frames. destruct (Mian.frames b); [congruence | simpl; lia].
Qed.

Lemma mian_score_pipes_total ps : forall (g : Mian.Game),
  Mian.frames (Mian.bird g) <> [] -> exists rg, Mian.score_pipes ps g = Ok rg.
Proof.
  induction ps as [|p ps IH]; intros g Hf.
  - eexists; reflexivity.
  - simpl.
    assert (exists c, Mian.crossing (Mian.bird g) p = Ok c) as [c ->].
    { unfold Mian.crossing. destruct (negb (Mian.passed p)).
      - destruct (mian_rect_total _ Hf) as [r ->]. simpl. eexists; reflexivity.
      - eexists; reflexivity. }
    simpl. destruct c.
    + destruct (IH (Mian.add_point g)) as [rg ->]; [exact Hf|].
      simpl. eexists; reflexivity.
    + destruct (IH g Hf) as [rg ->]. simpl. eexists; reflexivity.
Qed.

(** C6.  If the high score is at least the score before [update_score], it
    is at least the score after it, however many pipes were counted; in
    [mian.py], where the call reads the bird's rectangle, a bird with at
    least one frame makes the call return. *)
Theorem best_at_least_current :
  (forall (g : Main1.Game),
      Main1.score g <= Main1.high_score g ->
      Main1.score (Main1.update_score g)
      <= Main1.high_score (Main1.update_score g))
  /\
  (forall (g : Mian.Game),
      Mian.score g <= Mian.high_score g ->
      (forall g', Mian.update_score g = Ok g' ->
                  Mian.score g' <= Mian.high_score g')
      /\ (Mian.frames (Mian.bird g) <> [] ->
          exists g', Mian.update_score g = Ok g')).
Proof.
  split.
  - intros g H. unfold Main1.update_score.
    pose proof (main1_score_pipes_best (Main1.pipes g) g H) as Hb.
    destruct (Main1.score_pipes (Main1.pipes g) g) as [ps g']. exact Hb.
  - intros g H. split.
    + intros g' Hrun. unfold Mian.update_score in Hrun.
      apply bind_Ok in Hrun. destruct Hrun as [rg [Hrun Hg']].
      injection Hg' as <-. simpl.
      exact (mian_score_pipes_best _ _ _ H Hrun).
    + intro Hf. unfold Mian.update_score.
      destruct (mian_score_pipes_total (Mian.pipes g) g Hf) as [rg ->].
      simpl. eexists; reflexivity.
Qed.

Lemma best_at_least_current_witness :
  Main1.score (Main1.update_score Sample.main1_two_pipes)
  <= Main1.high_score (Main1.update_score Sample.main1_two_pipes)
  /\ exists g', Mian.update_score Sample.mian_two_pipes = Ok g'
                /\ Mian.score g' <= Mian.high_score g'.
Proof.
  destruct best_at_least_current as [H1 H2]. split.
  - apply H1. vm_compute. discriminate.
  - destruct (H2 Sample.mian_two_pipes) as [Hinv Htot].
    { vm_compute. discriminate. }
    destruct Htot as [g' Hg']; [discriminate|].
    exists g'. split; [exact Hg' | exact (Hinv g' Hg')].
Defined.

(** ** The high-score file (C7) *)

Lemma digit_char_value (d : Z) :
  0 <= d < 10 -> digit_value (digit_char d) = Some d.
Proof.
  intro H.
  assert (d = 0 \/ d = 1 \/ d = 2 \/ d = 3 \/ d = 4 \/ d = 5 \/ d = 6
          \/ d = 7 \/ d = 8 \/ d = 9) as Hd by lia.
  repeat (destruct Hd as [-> | Hd]; [reflexivity|]). subst. reflexivity.
Qed.

Lemma digit_not_space (c : ascii) (d : Z) :
  digit_value c = Some d -> is_space c = false.
Proof.
  unfold digit_value, is_space.
  generalize (Z.of_nat (nat_of_ascii c)). intros n H.
  destruct ((48 <=? n) && (n <=? 57)) eqn:E; [|discriminate].
  apply andb_true_iff in E. destruct E as [E1 E2].
  apply Z.leb_le in E1. apply Z.leb_le in E2.
  apply orb_false_iff. split; apply andb_false_iff; right; apply Z.leb_gt; lia.
Qed.

Lemma lstrip_plain (s : text) : plain s -> lstrip s = s.
Proof.
  intro H. destruct H as [|c r Hc Hr]; [reflexivity|].
  simpl. rewrite Hc. reflexivity.
Qed.

Lemma strip_plain (s : text) : plain s -> strip s = s.
Proof.
  intro H. unfold strip, rstrip. rewrite (lstrip_plain s H).
  rewrite lstrip_plain; [apply rev_involutive|].
  unfold plain. apply Forall_rev. exact H.
Qed.

Lemma digits_fuel_plain fuel : forall n acc,
  0 <= n -> plain acc -> plain (digits_fuel fuel n acc).
Proof.
  induction fuel as [|fuel IH]; intros n acc Hn Hacc; [exact Hacc|].
  simpl. destruct (n <? 10) eqn:E.
  - apply Z.ltb_lt in E. constructor; [|exact Hacc].
    apply (digit_not_space _ n). apply digit_char_value. lia.
  - apply IH; [apply Z.div_pos; lia|].
    constructor; [|exact Hacc].
    apply (digit_not_space _ (n mod 10)). apply digit_char_value.
    apply Z.mod_pos_bound. lia.
Qed.

Lemma parse_digits_digit (c : ascii) (d : Z) (r : text) (a : Z) (pd : bool) :
  digit_value c = Some d ->
  parse_digits (c :: r) a pd = parse_digits r (10 * a + d) true.
Proof. intro H. cbn [parse_digits]. rewrite H. reflexivity. Qed.

Lemma digits_fuel_parse fuel : forall n acc,
  (0 < fuel)%nat -> 0 <= n < 2 ^ Z.of_nat fuel ->
  exists k, forall a pd,
    parse_digits (digits_fuel fuel n acc) a pd
    = parse_digits acc (a * 10 ^ Z.of_nat k + n) true.
Proof.
  induction fuel as [|fuel IH]; intros n acc Hfuel Hn; [lia|].
  cbn [digits_fuel]. destruct (n <? 10) eqn:E.
  - apply Z.ltb_lt in E. exists 1%nat. intros a pd.
    rewrite (parse_digits_digit _ n) by (apply digit_char_value; lia).
    f_equal. change (Z.of_nat 1) with 1. lia.
  - apply Z.ltb_ge in E.
    rewrite Nat2Z.inj_succ, Z.pow_succ_r in Hn by lia.
    destruct (IH (n / 10) (digit_char (n mod 10) :: acc)) as [k Hk].
    { destruct fuel; [change (2 ^ Z.of_nat 0) with 1 in Hn; lia | lia]. }
    { split; [apply Z.div_pos; lia|].
      apply Z.div_lt_upper_bound; lia. }
    exists (S k). intros a pd. rewrite Hk.
    rewrite (parse_digits_digit _ (n mod 10))
      by (apply digit_char_value; apply Z.mod_pos_bound; lia).
    f_equal. rewrite Nat2Z.inj_succ, Z.pow_succ_r by lia.
    pose proof (Z.div_mod n 10 ltac:(lia)) as Hdm.
    generalize dependent (10 ^ Z.of_nat k). intros t _. nia.
Qed.

Lemma digits_of_parse (n : Z) :
  0 <= n -> parse_digits (digits_of n) 0 false = Some n.
Proof.
  intro Hn. unfold digits_of.
  destruct (digits_fuel_parse (S (Z.to_nat (Z.log2 n))) n []) as [k Hk].
  - lia.
  - split; [exact Hn|].
    rewrite Nat2Z.inj_succ, Z2Nat.id by apply Z.log2_nonneg.
    destruct (Z.eq_dec n 0) as [-> | Hnz]; [reflexivity|].
    apply Z.log2_spec. lia.
  - rewrite Hk. simpl. reflexivity.
Qed.

Lemma digits_of_plain (n : Z) : 0 <= n -> plain (digits_of n).
Proof.
  intro Hn. apply digits_fuel_plain; [exact Hn | constructor].
Qed.

Lemma digits_of_head (n : Z) :
  0 <= n ->
  exists c r d, digits_of n = c :: r /\ digit_value c = Some d.
Proof.
  intro Hn. pose proof (digits_of_parse n Hn) as Hp.
  destruct (digits_of n) as [|c r]; [discriminate|].
  simpl in Hp. destruct (digit_value c) as [d|] eqn:E.
  - exists c, r, d. auto.
  - rewrite andb_false_r in Hp. discriminate.
Qed.

Lemma int_of_text_py_str (n : Z) : int_of_text (strip (py_str n)) = Ok n.
Proof.
  assert (forall s, plain s -> int_of_text (strip s) = int_of_text s) as Hstrip.
  { intros s Hs. rewrite (strip_plain s Hs). reflexivity. }
  unfold py_str. destruct (n <? 0) eqn:E.
  - apply Z.ltb_lt in E.
    assert (plain ("-"%char :: digits_of (- n))) as Hpl.
    { constructor; [reflexivity | apply digits_of_plain; lia]. }
    rewrite (Hstrip _ Hpl). unfold int_of_text. rewrite (strip_plain _ Hpl).
    simpl. rewrite digits_of_parse by lia. simpl. f_equal. lia.
  - apply Z.ltb_ge in E.
    pose proof (digits_of_plain n E) as Hpl.
    rewrite (Hstrip _ Hpl). unfold int_of_text. rewrite (strip_plain _ Hpl).
    destruct (digits_of_head n E) as [c [r [d [Hd Hc]]]].
    pose proof (digits_of_parse n E) as Hp. rewrite Hd in *.
    destruct (Ascii.eqb c "-") eqn:E1.
    { apply Ascii.eqb_eq in E1. subst c. discriminate. }
    destruct (Ascii.eqb c "+") eqn:E2.
    { apply Ascii.eqb_eq in E2. subst c. discriminate. }
    rewrite Hp. reflexivity.
Qed.

(** C7.  Round trip of the high-score store.  [_save_high_score] writes the
    decimal text of the high score when the file is writable, and
    [_load_high_score], which strips the text and reads it with [int],
    then returns that same number: this holds for every integer, the
    non-negative ones in particular.  A missing file and a text that [int]
    rejects both load as 0. *)
Theorem high_score_round_trip :
  (forall (best : Z) (st : FileStore),
      writable st = true ->
      file_text (Main1.write_high_score best st) = Some (py_str best)
      /\ Main1._load_high_score (Main1.write_high_score best st) = best)
  /\ (forall (g : Main1.Game),
        writable (Main1.store (Main1.world g)) = true ->
        Main1._load_high_score
          (Main1.store (Main1.world (Main1._save_high_score g)))
        = Main1.high_score g)
  /\ (forall (st : FileStore),
        file_text st = None -> Main1._load_high_score st = 0)
  /\ (forall (st : FileStore) (s : text) (e : exn),
        file_text st = Some s -> int_of_text (strip s) = Raise e ->
        Main1._load_high_score st = 0).
Proof.
  assert (forall best st, writable st = true ->
            file_text (Main1.write_high_score best st) = Some (py_str best)
            /\ Main1._load_high_score (Main1.write_high_score best st) = best)
    as Hrt.
  { intros best st Hw. unfold Main1.write_high_score. rewrite Hw.
    split; [reflexivity|].
    unfold Main1._load_high_score. cbn [file_text].
    rewrite int_of_text_py_str. reflexivity. }
  split; [exact Hrt|]. split; [|split].
  - intros g Hw. unfold Main1._save_high_score. cbn.
    apply Hrt. exact Hw.
  - intros st H. unfold Main1._load_high_score. rewrite H. reflexivity.
  - intros st s e H He. unfold Main1._load_high_score. rewrite H, He.
    reflexivity.
Qed.

Lemma high_score_round_trip_witness :
  Main1._load_high_score (Main1.write_high_score 1234 (mkFileStore None true))
  = 1234
  /\ Main1._load_high_score (mkFileStore None true) = 0
  /\ Main1._load_high_score
       (mkFileStore (Some ["1"; "2"; "a"]%char) true) = 0.
Proof.
  destruct high_score_round_trip as [Hrt [_ [Hmiss Hbad]]].
  split; [apply Hrt; reflexivity|].
  split; [apply Hmiss; reflexivity|].
  apply (Hbad _ ["1"; "2"; "a"]%char ValueError); reflexivity.
Defined.

(** ** The spawner (C2, C10) *)

Lemma randint_Ok (a b : Z) (r : Random) :
  a <= b ->
  exists v r', randint a b r = Ok (v, r') /\ a <= v <= b.
Proof.
  intro H. unfold randint. destruct (b <? a) eqn:E; [apply Z.ltb_lt in E; lia|].
  cbn. eexists. eexists. split; [reflexivity|].
  pose proof (Z.mod_pos_bound (draws r (cursor r)) (b - a + 1) ltac:(lia)). lia.
Qed.

Lemma randint_Raise (a b : Z) (r : Random) :
  b < a -> randint a b r = Raise ValueError.
Proof.
  intro H. unfold randint. apply Z.ltb_lt in H. rewrite H. reflexivity.
Qed.

Lemma randint_range (a b v : Z) (r r' : Random) :
  randint a b r = Ok (v, r') -> a <= v <= b.
Proof.
  intro H. destruct (Z_lt_le_dec b a) as [Hlt | Hle].
  - rewrite (randint_Raise a b r Hlt) in H. discriminate.
  - destruct (randint_Ok a b r Hle) as [v0 [r0 [H0 Hv]]].
    rewrite H0 in H. injection H as <- <-. exact Hv.
Qed.

Lemma main1_current_gap_Ok (g : Main1.Game) (gap : Z) :
  Main1.current_gap g = Ok gap ->
  Main1.gap_decrease_rate (Main1.config g) <> 0
  /\ gap = Z.max (Main1.min_pipe_gap (Main1.config g))
                 (Main1.base_pipe_gap (Main1.config g)
                  - Main1.score g / Main1.gap_decrease_rate (Main1.config g) * 5).
Proof.
  unfold Main1.current_gap, py_floordiv.
  destruct (Main1.gap_decrease_rate (Main1.config g) =? 0) eqn:E.
  - discriminate.
  - apply Z.eqb_neq in E. cbn. intro H. injection H as <-. auto.
Qed.

Lemma main1_spawn_pipe_Ok (g g' : Main1.Game) :
  Main1.spawn_pipe g = Ok g' ->
  exists gap gap_center,
    Main1.current_gap g = Ok gap
    /\ Main1.min_center g gap <= gap_center <= Main1.max_center g gap
    /\ Main1.pipes g' =
       Main1.pipes g
       ++ [Main1.PipePair_init (Main1.pipe_image_choice (Main1.scene g))
             (Main1.screen_width (Main1.config g) + 10) gap_center gap
             (Main1.base_y (Main1.config g))]
    /\ Main1.score g' = Main1.score g
    /\ Main1.config g' = Main1.config g.
Proof.
  unfold Main1.spawn_pipe. intro H.
  apply bind_Ok in H. destruct H as [gap [Hgap H]].
  apply bind_Ok in H. destruct H as [[v r'] [Hr H]].
  injection H as <-. exists gap, v.
  split; [exact Hgap|]. split; [exact (randint_range _ _ _ _ _ Hr)|].
  cbn. auto.
Qed.

Lemma mian_spawn_pipe_Ok sin now (g g' : Mian.Game) :
  Mian.spawn_pipe sin now g = Ok g' ->
  Mian.min_center g <= Mian.max_center g
  /\ exists gap_center,
    Mian.min_center g <= gap_center <= Mian.max_center g
    /\ Mian.pipes g' =
       Mian.pipes g
       ++ [Mian.PipePair_init (Mian.pipe_image_choice (Mian.scene g))
             (Mian.screen_width (Mian.config g) + 10) gap_center
             (Mian.pipe_gap (Mian.config g)) (Mian.base_y (Mian.config g))].
Proof.
  unfold Mian.spawn_pipe. intro H.
  apply bind_Ok in H. destruct H as [[v r'] [Hr H]].
  injection H as <-. apply randint_range in Hr.
  split; [lia|]. eexists. split; [|cbn; reflexivity]. lia.
Qed.

(** C2.  Every pipe that [spawn_pipe] appends has a gap inside the
    playfield band: the upper edge of the gap, [gap_y - gap_size // 2], is
    at or below a quarter of the screen height, and the lower edge,
    [gap_y + gap_size // 2], is at or above the ground line less the margin
    (20 in [main1.py], 10 in [mian.py]); the edges are those that
    [PipePair.rects] computes.  In [main1.py] the gap size is
    [max(min_pipe_gap, base_pipe_gap - (score // gap_decrease_rate) * 5)],
    so never below [min_pipe_gap], whatever the score; in [mian.py] it is
    the fixed [pipe_gap]. *)
Theorem spawned_gap_within_bounds :
  (forall (g g' : Main1.Game),
      Main1.spawn_pipe g = Ok g' ->
      exists p,
        Main1.pipes g' = Main1.pipes g ++ [p]
        /\ Main1.min_pipe_gap (Main1.config g) <= Main1.gap_size p
        /\ Main1.gap_size p
           = Z.max (Main1.min_pipe_gap (Main1.config g))
                   (Main1.base_pipe_gap (Main1.config g)
                    - Main1.score g / Main1.gap_decrease_rate (Main1.config g) * 5)
        /\ int_quarter (Main1.screen_height (Main1.config g)) <= Main1.top_height p
        /\ Main1.bottom_top p <= Main1.base_y (Main1.config g) - 20)
  /\
  (forall sin now (g g' : Mian.Game),
      Mian.spawn_pipe sin now g = Ok g' ->
      exists p,
        Mian.pipes g' = Mian.pipes g ++ [p]
        /\ Mian.gap_size p = Mian.pipe_gap (Mian.config g)
        /\ int_quarter (Mian.screen_height (Mian.config g)) <= Mian.top_height p
        /\ Mian.bottom_top p <= Mian.base_y (Mian.config g) - 10).
Proof.
  split.
  - intros g g' H. apply main1_spawn_pipe_Ok in H.
    destruct H as [gap [c [Hgap [Hc [Hp _]]]]].
    apply main1_current_gap_Ok in Hgap. destruct Hgap as [_ Hgap].
    eexists. split; [exact Hp|].
    unfold Main1.top_height, Main1.bottom_top, Main1.PipePair_init.
    cbn [Main1.gap_size Main1.gap_y].
    unfold Main1.min_center, Main1.max_center in Hc.
    repeat split; try lia.
  - intros sin now g g' H. apply mian_spawn_pipe_Ok in H.
    destruct H as [_ [c [Hc Hp]]].
    eexists. split; [exact Hp|].
    unfold Mian.top_height, Mian.bottom_top, Mian.PipePair_init.
    cbn [Mian.gap_size Mian.gap_y].
    unfold Mian.min_center, Mian.max_center in Hc.
    repeat split; lia.
Qed.

Lemma spawned_gap_within_bounds_witness :
  (exists g' p,
      Main1.spawn_pipe (Main1.set_score 9 Sample.main1_game) = Ok g'
      /\ Main1.pipes g' = [p]
      /\ 100 <= Main1.gap_size p
      /\ Main1.gap_size p = 120
      /\ 128 <= Main1.top_height p
      /\ Main1.bottom_top p <= 380)
  /\
  (exists g' p,
      Mian.spawn_pipe Sample.no_sin 0 Sample.mian_game = Ok g'
      /\ Mian.pipes g' = [p]
      /\ Mian.gap_size p = 100
      /\ 128 <= Mian.top_height p
      /\ Mian.bottom_top p <= 390).
Proof.
  destruct spawned_gap_within_bounds as [H1 H2]. split.
  - destruct (Main1.spawn_pipe (Main1.set_score 9 Sample.main1_game))
      as [g'|e] eqn:E; [|vm_compute in E; discriminate].
    destruct (H1 _ _ E) as [p [Hp [Hmin [Hgap [Htop Hbot]]]]].
    exists g', p. repeat split; assumption.
  - destruct (Mian.spawn_pipe Sample.no_sin 0 Sample.mian_game)
      as [g'|e] eqn:E; [|vm_compute in E; discriminate].
    destruct (H2 _ _ _ _ E) as [p [Hp [Hgap [Htop Hbot]]]].
    exists g', p. repeat split; assumption.
Defined.

Lemma main1_spawn_pipe_cases (g : Main1.Game) (gap : Z) :
  Main1.current_gap g = Ok gap ->
  (Main1.min_center g gap <= Main1.max_center g gap ->
   exists g', Main1.spawn_pipe g = Ok g')
  /\ (Main1.max_center g gap < Main1.min_center g gap ->
      Main1.spawn_pipe g = Raise ValueError).
Proof.
  intro Hgap. unfold Main1.spawn_pipe. rewrite Hgap. cbn [bind]. split; intro H.
  - destruct (randint_Ok _ _ (Main1.rng (Main1.world g)) H) as [v [r' [Hr _]]].
    rewrite Hr. cbn. eexists; reflexivity.
  - rewrite (randint_Raise _ _ _ H). reflexivity.
Qed.

Lemma mian_spawn_pipe_cases sin now (g : Mian.Game) :
  (Mian.min_center g <= Mian.max_center g ->
   exists g', Mian.spawn_pipe sin now g = Ok g')
  /\ (Mian.max_center g < Mian.min_center g ->
      Mian.spawn_pipe sin now g = Raise ValueError).
Proof.
  unfold Mian.spawn_pipe. split; intro H.
  - destruct (randint_Ok _ _ (Mian.rng (Mian.world g)) H) as [v [r' [Hr _]]].
    rewrite Hr. cbn. eexists; reflexivity.
  - rewrite (randint_Raise _ _ _ H). reflexivity.
Qed.

(** C10.  The draw of [spawn_pipe] succeeds exactly when
    [min_center <= max_center], that is, in the integer arithmetic of the
    code, when [int(screen_height * 0.25) + gap // 2 <= base_y - margin -
    gap // 2]; otherwise [randint] raises [ValueError].  In [main1.py],
    where the gap shrinks as the score grows, a playfield that satisfies the
    condition for the widest gap (score 0) satisfies it for every score
    from 0 on, so the error cannot occur; in [mian.py] the condition does
    not depend on the score. *)
Theorem spawn_pipe_safe_iff :
  (forall (g : Main1.Game) (gap : Z),
      Main1.current_gap g = Ok gap ->
      ((exists g', Main1.spawn_pipe g = Ok g')
       <-> Main1.min_center g gap <= Main1.max_center g gap)
      /\ (Main1.spawn_pipe g = Raise ValueError
          <-> Main1.max_center g gap < Main1.min_center g gap)
      /\ (Main1.min_center g gap <= Main1.max_center g gap
          <-> int_quarter (Main1.screen_height (Main1.config g)) + gap / 2
              <= Main1.base_y (Main1.config g) - 20 - gap / 2))
  /\ (forall (g : Main1.Game),
        0 < Main1.gap_decrease_rate (Main1.config g) ->
        0 <= Main1.score g ->
        (let widest := Z.max (Main1.min_pipe_gap (Main1.config g))
                             (Main1.base_pipe_gap (Main1.config g)) in
         Main1.min_center g widest <= Main1.max_center g widest) ->
        exists g', Main1.spawn_pipe g = Ok g')
  /\ (forall sin now (g : Mian.Game),
        ((exists g', Mian.spawn_pipe sin now g = Ok g')
         <-> Mian.min_center g <= Mian.max_center g)
        /\ (Mian.spawn_pipe sin now g = Raise ValueError
            <-> Mian.max_center g < Mian.min_center g)
        /\ (Mian.min_center g <= Mian.max_center g
            <-> int_quarter (Mian.screen_height (Mian.config g))
                + Mian.pipe_gap (Mian.config g) / 2
                <= Mian.base_y (Mian.config g) - 10
                   - Mian.pipe_gap (Mian.config g) / 2)).
Proof.
  split; [|split].
  - intros g gap Hgap.
    destruct (main1_spawn_pipe_cases g gap Hgap) as [Hok Hbad].
    split; [|split].
    + split; [|exact Hok]. intros [g' Hg'].
      destruct (Z_lt_le_dec (Main1.max_center g gap) (Main1.min_center g gap))
        as [Hlt|Hle]; [|exact Hle].
      rewrite (Hbad Hlt) in Hg'. discriminate.
    + split; [|exact Hbad]. intro Hr.
      destruct (Z_lt_le_dec (Main1.max_center g gap) (Main1.min_center g gap))
        as [Hlt|Hle]; [exact Hlt|].
      destruct (Hok Hle) as [g' Hg']. rewrite Hg' in Hr. discriminate.
    + unfold Main1.min_center, Main1.max_center. tauto.
  - intros g Hrate Hscore Hwide. cbv zeta in Hwide.
    assert (exists gap, Main1.current_gap g = Ok gap
                        /\ gap <= Z.max (Main1.min_pipe_gap (Main1.config g))
                                        (Main1.base_pipe_gap (Main1.config g)))
      as [gap [Hgap Hle]].
    { unfold Main1.current_gap, py_floordiv.
      destruct (Main1.gap_decrease_rate (Main1.config g) =? 0) eqn:E;
        [apply Z.eqb_eq in E; lia|].
      cbn. eexists. split; [reflexivity|].
      pose proof (Z.div_pos (Main1.score g)
                    (Main1.gap_decrease_rate (Main1.config g)) Hscore Hrate).
      lia. }
    destruct (main1_spawn_pipe_cases g gap Hgap) as [Hok _]. apply Hok.
    unfold Main1.min_center, Main1.max_center in *.
    pose proof (Z.div_le_mono _ _ 2 ltac:(lia) Hle). lia.
  - intros sin now g.
    destruct (mian_spawn_pipe_cases sin now g) as [Hok Hbad].
    split; [|split].
    + split; [|exact Hok]. intros [g' Hg'].
      destruct (Z_lt_le_dec (Mian.max_center g) (Mian.min_center g))
        as [Hlt|Hle]; [|exact Hle].
      rewrite (Hbad Hlt) in Hg'. discriminate.
    + split; [|exact Hbad]. intro Hr.
      destruct (Z_lt_le_dec (Mian.max_center g) (Mian.min_center g))
        as [Hlt|Hle]; [exact Hlt|].
      destruct (Hok Hle) as [g' Hg']. rewrite Hg' in Hr. discriminate.
    + unfold Mian.min_center, Mian.max_center. tauto.
Qed.

Lemma spawn_pipe_safe_iff_witness :
  (exists g', Main1.spawn_pipe (Main1.set_score 31 Sample.main1_game) = Ok g')
  /\ (exists g', Mian.spawn_pipe Sample.no_sin 0 Sample.mian_game = Ok g').
Proof.
  destruct spawn_pipe_safe_iff as [_ [H1 H2]]. split.
  - apply H1; vm_compute; [reflexivity | discriminate | discriminate].
  - apply (H2 Sample.no_sin 0 Sample.mian_game). vm_compute. discriminate.
Defined.

(** ** The tick of a collision (C9) *)

Lemma write_high_score_twice (n m : Z) (st : FileStore) :
  Main1.write_high_score n (Main1.write_high_score m st)
  = Main1.write_high_score n st.
Proof.
  unfold Main1.write_high_score. destruct (writable st) eqn:W; cbn.
  - reflexivity.
  - rewrite W. reflexivity.
Qed.

Lemma main1_add_point_store (g : Main1.Game) :
  Main1.store (Main1.world (Main1.add_point g))
  = if Main1.high_score g <? Main1.score g + 1
    then Main1.write_high_score (Main1.score g + 1) (Main1.store (Main1.world g))
    else Main1.store (Main1.world g).
Proof.
  unfold Main1.add_point. cbn.
  rewrite Z.gtb_ltb.
  destruct (Main1.high_score g <? Main1.score g + 1); reflexivity.
Qed.

(** The high score and the file after the loop of [update_score], in
    closed form: with [k] pipes counted, the high score becomes the larger
    of its old value and the new score, and the file is rewritten once the
    new score exceeds the old high score. *)
Lemma main1_score_pipes_best_store ps : forall (g : Main1.Game),
  let k := points (Main1.position_x (Main1.bird g)) ps in
  let g' := snd (Main1.score_pipes ps g) in
  Main1.high_score g'
  = (if 0 <? k then Z.max (Main1.high_score g) (Main1.score g + k)
     else Main1.high_score g)
  /\ Main1.store (Main1.world g')
     = (if (0 <? k) && (Main1.high_score g <? Main1.score g + k)
        then Main1.write_high_score (Main1.score g + k)
                                    (Main1.store (Main1.world g))
        else Main1.store (Main1.world g)).
Proof.
  induction ps as [|p ps IH]; intro g; cbv zeta.
  - unfold points. cbn. auto.
  - unfold points. cbn [filter Main1.score_pipes].
    destruct (Main1.crossing (Main1.position_x (Main1.bird g)) p) eqn:C.
    + specialize (IH (Main1.add_point g)). cbv zeta in IH.
      destruct (main1_add_point_frame g) as [Hs [Hh [Hb _]]].
      rewrite Hb, Hs, Hh, main1_add_point_store in IH.
      destruct (Main1.score_pipes ps (Main1.add_point g)) as [rest g'].
      cbn [snd] in *. destruct IH as [IH1 IH2].
      unfold points in *.
      set (k := Z.of_nat (List.length
                  (filter (Main1.crossing (Main1.position_x (Main1.bird g))) ps))) in *.
      assert (0 <= k) as Hk by (unfold k; lia).
      cbn [List.length]. rewrite Nat2Z.inj_succ. fold k.
      assert ((0 <? Z.succ k) = true) as -> by (apply Z.ltb_lt; lia).
      cbn [andb].
      rewrite IH1, IH2. clear IH1 IH2.
      destruct (0 <? k) eqn:K0; cbn [andb].
      * apply Z.ltb_lt in K0. split; [lia|].
        destruct (Z.max (Main1.high_score g) (Main1.score g + 1)
                  <? Main1.score g + 1 + k) eqn:E1;
          destruct (Main1.high_score g <? Main1.score g + Z.succ k) eqn:E2;
          destruct (Main1.high_score g <? Main1.score g + 1) eqn:E3;
          try apply Z.ltb_lt in E1; try apply Z.ltb_ge in E1;
          try apply Z.ltb_lt in E2; try apply Z.ltb_ge in E2;
          try apply Z.ltb_lt in E3; try apply Z.ltb_ge in E3;
          try lia;
          rewrite ?write_high_score_twice;
          try (replace (Main1.score g + 1 + k)
                 with (Main1.score g + Z.succ k) by lia);
          reflexivity.
      * apply Z.ltb_ge in K0. assert (k = 0) as -> by lia. split; [reflexivity|].
        change (Z.succ 0) with 1. reflexivity.
    + specialize (IH g). cbv zeta in IH.
      destruct (Main1.score_pipes ps g) as [rest g']. exact IH.
Qed.

Lemma main1_update_score_best_store (g : Main1.Game) :
  let k := points (Main1.position_x (Main1.bird g)) (Main1.pipes g) in
  Main1.high_score (Main1.update_score g)
  = (if 0 <? k then Z.max (Main1.high_score g) (Main1.score g + k)
     else Main1.high_score g)
  /\ Main1.store (Main1.world (Main1.update_score g))
     = (if (0 <? k) && (Main1.high_score g <? Main1.score g + k)
        then Main1.write_high_score (Main1.score g + k)
                                    (Main1.store (Main1.world g))
        else Main1.store (Main1.world g)).
Proof.
  cbv zeta. unfold Main1.update_score.
  pose proof (main1_score_pipes_best_store (Main1.pipes g) g) as H.
  cbv zeta in H.
  destruct (Main1.score_pipes (Main1.pipes g) g) as [ps g']. exact H.
Qed.

Lemma main1_spawn_on_timer_score dt (g g' : Main1.Game) :
  Main1.spawn_on_timer dt g = Ok g' -> Main1.score g' = Main1.score g.
Proof.
  unfold Main1.spawn_on_timer. destruct (Qle_bool _ _); intro H.
  - apply main1_spawn_pipe_Ok in H.
    destruct H as [gap [c [_ [_ [_ [Hs _]]]]]]. exact Hs.
  - injection H as <-. reflexivity.
Qed.

Lemma main1_playing_advance_score sin dt (g g1 : Main1.Game) :
  Main1.playing_advance sin dt g = Ok g1 -> Main1.score g1 = Main1.score g.
Proof.
  unfold Main1.playing_advance. intro H.
  apply bind_Ok in H. destruct H as [b [_ H]].
  apply bind_Ok in H. destruct H as [g2 [H2 H]].
  injection H as <-. apply main1_spawn_on_timer_score in H2. exact H2.
Qed.

Lemma mian_crossing_Ok (b : Mian.Bird) (r : Rect) (p : Mian.PipePair) :
  Mian.rect b = Ok r -> Mian.crossing b p = Ok (mian_crossing (rect_left r) p).
Proof.
  intro H. unfold Mian.crossing, mian_crossing.
  destruct (negb (Mian.passed p)); [rewrite H|]; reflexivity.
Qed.

Lemma mian_score_pipes_spec ps : forall (g : Mian.Game) (r : Rect),
  Mian.rect (Mian.bird g) = Ok r ->
  let k := mian_points (rect_left r) ps in
  exists g',
    Mian.score_pipes ps g = Ok (map (mian_mark (rect_left r)) ps, g')
    /\ Mian.score g' = Mian.score g + k
    /\ Mian.high_score g'
       = (if 0 <? k then Z.max (Mian.high_score g) (Mian.score g + k)
          else Mian.high_score g)
    /\ Mian.bird g' = Mian.bird g
    /\ Mian.state g' = Mian.state g.
Proof.
  induction ps as [|p ps IH]; intros g r Hr; cbv zeta.
  - exists g. unfold mian_points. cbn. repeat split; lia.
  - cbn [Mian.score_pipes map]. rewrite (mian_crossing_Ok _ _ _ Hr). cbn [bind].
    unfold mian_points. cbn [filter]. unfold mian_mark at 1.
    destruct (mian_crossing (rect_left r) p) eqn:C.
    + destruct (IH (Mian.add_point g) r Hr) as [g' [Hrun [Hs [Hh [Hb Hst]]]]].
      rewrite Hrun. cbn [bind fst snd]. exists g'.
      unfold mian_points in *.
      set (k := Z.of_nat (List.length (filter (mian_crossing (rect_left r)) ps))) in *.
      assert (0 <= k) as Hk by (unfold k; lia).
      cbn [List.length]. rewrite Nat2Z.inj_succ. fold k.
      destruct (mian_add_point_frame g) as [As [Ah Ab]].
      split; [reflexivity|]. split; [lia|]. split; [|split].
      * rewrite Hh, As, Ah.
        assert ((0 <? Z.succ k) = true) as -> by (apply Z.ltb_lt; lia).
        destruct (0 <? k) eqn:K0.
        -- lia.
        -- apply Z.ltb_ge in K0. lia.
      * rewrite Hb. exact Ab.
      * rewrite Hst. reflexivity.
    + destruct (IH g r Hr) as [g' [Hrun H]].
      rewrite Hrun. cbn [bind fst snd]. exists g'.
      split; [reflexivity | exact H].
Qed.

Lemma mian_advance_bird_state sin now dt (g g0 : Mian.Game) :
  Mian.advance_bird sin now dt g = Ok g0 -> Mian.state g0 = Mian.state g.
Proof.
  unfold Mian.advance_bird. destruct (Mian.state g) eqn:S; intro H.
  - apply bind_Ok in H. destruct H as [b [_ H]]. injection H as <-. exact S.
  - apply bind_Ok in H. destruct H as [b [_ H]]. injection H as <-. exact S.
  - injection H as <-. exact S.
Qed.

(** C9.  On the tick of [Game.run] in which [check_collisions] is true, the
    game goes to [GAME_OVER] and the bird is marked dead, and
    [update_score] still runs in the same iteration: with [g1] the game as
    the collision check saw it, every pipe of [g1] that is not yet flagged
    and lies left of the bird gives its point and gets its flag, the high
    score follows, and in [main1.py] a new high score is written to the
    file. *)
Theorem score_runs_on_collision_tick :
  (forall sin dt_ms events (ls : Main1.LoopState) (g1 : Main1.Game),
      let dt := (inject_Z dt_ms / 1000)%Q in
      let ls1 := Main1.poll_events events ls in
      Main1.state (Main1.game ls1) = PLAYING ->
      Main1.playing_advance sin dt (Main1.update_base dt (Main1.game ls1)) = Ok g1 ->
      Main1.check_collisions g1 = Ok true ->
      let k := points (Main1.position_x (Main1.bird g1)) (Main1.pipes g1) in
      exists ls',
        Main1.run_iteration sin dt_ms events ls = Ok ls'
        /\ Main1.state (Main1.game ls') = GAME_OVER
        /\ Main1.dead (Main1.bird (Main1.game ls')) = true
        /\ Main1.score (Main1.game ls') = Main1.score (Main1.game ls1) + k
        /\ Main1.pipes (Main1.game ls')
           = map (mark (Main1.position_x (Main1.bird g1))) (Main1.pipes g1)
        /\ (0 < k ->
            Main1.high_score (Main1.game ls')
            = Z.max (Main1.high_score g1) (Main1.score (Main1.game ls')))
        /\ (0 < k ->
            Main1.high_score g1 < Main1.score (Main1.game ls') ->
            writable (Main1.store (Main1.world g1)) = true ->
            file_text (Main1.store (Main1.world (Main1.game ls')))
            = Some (py_str (Main1.score (Main1.game ls')))))
  /\
  (forall sin mask_hit now dt_ms events (ls : Mian.LoopState) (g0 g1 : Mian.Game),
      let dt := (inject_Z dt_ms / 1000)%Q in
      let ls1 := Mian.poll_events events ls in
      Mian.state (Mian.game ls1) = PLAYING ->
      Mian.advance_bird sin now dt (Mian.game ls1) = Ok g0 ->
      Mian.playing_advance sin now dt g0 = Ok g1 ->
      Mian.check_collisions mask_hit g1 = Ok true ->
      exists ls' r,
        Mian.run_iteration sin mask_hit now dt_ms events ls = Ok ls'
        /\ Mian.rect (Mian.bird g1) = Ok r
        /\ Mian.state (Mian.game ls') = GAME_OVER
        /\ Mian.dead (Mian.bird (Mian.game ls')) = true
        /\ Mian.score (Mian.game ls')
           = Mian.score g1 + mian_points (rect_left r) (Mian.pipes g1)
        /\ Mian.pipes (Mian.game ls')
           = map (mian_mark (rect_left r)) (Mian.pipes g1)
        /\ (0 < mian_points (rect_left r) (Mian.pipes g1) ->
            Mian.high_score (Mian.game ls')
            = Z.max (Mian.high_score g1) (Mian.score (Mian.game ls')))).
Proof.
  split.
  - intros sin dt_ms events ls g1 dt ls1 Hst Hadv Hcol k.
    unfold Main1.run_iteration. fold dt. fold ls1.
    cbn [Main1.game Main1.update_base Main1.set_scene Main1.state].
    rewrite Hst. unfold Main1.playing_tick.
    cbn [Main1.game Main1.running Main1.death_sound_played].
    change (Main1.mkGame (Main1.config (Main1.game ls1)) _ _ _ _ _ _ _ _ _)
      with (Main1.update_base dt (Main1.game ls1)).
    rewrite Hadv. cbn [bind]. rewrite Hcol. cbn [bind].
    cbn [Main1.game Main1.running Main1.death_sound_played].
    eexists. split; [reflexivity|].
    cbn [Main1.game].
    destruct (main1_update_score_spec (Main1.game_over g1))
      as [Hp [Hs [Hb [Hstate _]]]].
    destruct (main1_update_score_best_store (Main1.game_over g1)) as [Hh Hf].
    cbn [Main1.game_over Main1.play Main1.set_world Main1.set_bird
         Main1.set_state Main1.set_dead Main1.bird Main1.position_x Main1.pipes
         Main1.score Main1.state Main1.high_score Main1.world Main1.store
         Main1.dead] in Hp, Hs, Hb, Hstate, Hh, Hf.
    fold k in Hs, Hh, Hf.
    rewrite (main1_playing_advance_score _ _ _ _ Hadv) in Hs.
    cbn [Main1.update_base Main1.set_scene Main1.score] in Hs.
    split; [exact Hstate|]. split; [rewrite Hb; reflexivity|].
    split; [exact Hs|]. split; [exact Hp|].
    pose proof (main1_playing_advance_score _ _ _ _ Hadv) as Hs1.
    cbn [Main1.update_base Main1.set_scene Main1.score] in Hs1.
    split.
    + intro Hk. apply Z.ltb_lt in Hk. rewrite Hk in Hh.
      rewrite Hh, Hs, Hs1. reflexivity.
    + intros Hk Hlt Hw. rewrite Hs in Hlt |- *. rewrite <- Hs1 in Hlt |- *.
      apply Z.ltb_lt in Hk. apply Z.ltb_lt in Hlt.
      rewrite Hk, Hlt in Hf. cbn [andb] in Hf. rewrite Hf.
      unfold Main1.write_high_score. rewrite Hw. reflexivity.
  - intros sin mask_hit now dt_ms events ls g0 g1 dt ls1 Hst Hbird Hadv Hcol.
    assert (exists r, Mian.rect (Mian.bird g1) = Ok r) as [r Hr].
    { unfold Mian.check_collisions in Hcol.
      destruct (Mian.rect (Mian.bird g1)) as [r|e]; [eexists; reflexivity|].
      discriminate. }
    unfold Mian.run_iteration. fold dt. fold ls1.
    rewrite Hbird. cbn [bind].
    rewrite (mian_advance_bird_state _ _ _ _ _ Hbird), Hst.
    unfold Mian.playing_tick.
    cbn [Mian.game Mian.running Mian.death_sound_played].
    rewrite Hadv. cbn [bind]. rewrite Hcol. cbn [bind].
    cbn [Mian.game Mian.running Mian.death_sound_played].
    destruct (mian_score_pipes_spec (Mian.pipes g1) (Mian.game_over g1) r)
      as [g' [Hrun [Hs [Hh [Hb Hstate]]]]].
    { exact Hr. }
    unfold Mian.update_score.
    cbn [Mian.game_over Mian.play Mian.set_world Mian.set_bird Mian.set_state
         Mian.pipes] in Hrun |- *.
    rewrite Hrun. cbn [bind fst snd].
    exists (Mian.mkLoop (Mian.set_pipes
                           (map (mian_mark (rect_left r)) (Mian.pipes g1)) g')
                        (Mian.running ls1) false), r.
    split; [reflexivity|]. split; [exact Hr|].
    cbn [Mian.game Mian.set_pipes Mian.state Mian.bird Mian.score Mian.pipes
         Mian.high_score].
    cbn [Mian.game_over Mian.play Mian.set_world Mian.set_bird Mian.set_state
         Mian.set_dead Mian.bird Mian.state Mian.score Mian.high_score Mian.dead]
      in Hs, Hh, Hb, Hstate.
    split; [exact Hstate|]. split; [rewrite Hb; reflexivity|].
    split; [exact Hs|]. split; [reflexivity|].
    intro Hk. apply Z.ltb_lt in Hk. rewrite Hk in Hh. rewrite Hh, Hs.
    reflexivity.
Qed.

Lemma score_runs_on_collision_tick_witness :
  (exists ls',
      Main1.run_iteration Sample.no_sin 16 [] Sample.main1_collision = Ok ls'
      /\ Main1.state (Main1.game ls') = GAME_OVER
      /\ Main1.dead (Main1.bird (Main1.game ls')) = true
      /\ Main1.score (Main1.game ls') = 1
      /\ Main1.high_score (Main1.game ls') = 1
      /\ file_text (Main1.store (Main1.world (Main1.game ls')))
         = Some ["1"%char])
  /\
  (exists ls',
      Mian.run_iteration Sample.no_sin Sample.no_mask_hit 0 16 []
        Sample.mian_collision = Ok ls'
      /\ Mian.state (Mian.game ls') = GAME_OVER
      /\ Mian.dead (Mian.bird (Mian.game ls')) = true
      /\ Mian.score (Mian.game ls') = 1
      /\ Mian.high_score (Mian.game ls') = 1).
Proof.
  destruct score_runs_on_collision_tick as [H1 H2]. split.
  - pose (g1 :=
      match Main1.playing_advance Sample.no_sin (inject_Z 16 / 1000)
              (Main1.update_base (inject_Z 16 / 1000)
                 (Main1.game (Main1.poll_events [] Sample.main1_collision)))
      with
      | Ok g => g
      | Raise _ => Sample.main1_game
      end).
    destruct (H1 Sample.no_sin 16 [] Sample.main1_collision g1)
      as [ls' [Hrun [Hst [Hd [Hs [_ [Hh Hf]]]]]]].
    + reflexivity.
    + vm_compute. reflexivity.
    + vm_compute. reflexivity.
    + exists ls'. split; [exact Hrun|]. split; [exact Hst|].
      split; [exact Hd|].
      assert (Main1.score (Main1.game ls') = 1) as Hone.
      { rewrite Hs. vm_compute. reflexivity. }
      split; [exact Hone|]. split.
      * rewrite Hh; [rewrite Hone; vm_compute; reflexivity|].
        vm_compute. reflexivity.
      * rewrite Hf; [rewrite Hone; vm_compute; reflexivity| | |].
        -- vm_compute. reflexivity.
        -- rewrite Hone. vm_compute. reflexivity.
        -- vm_compute. reflexivity.
  - pose (g0 :=
      match Mian.advance_bird Sample.no_sin 0 (inject_Z 16 / 1000)
              (Mian.game (Mian.poll_events [] Sample.mian_collision))
      with
      | Ok g => g
      | Raise _ => Sample.mian_game
      end).
    pose (g1 :=
      match Mian.playing_advance Sample.no_sin 0 (inject_Z 16 / 1000) g0 with
      | Ok g => g
      | Raise _ => Sample.mian_game
      end).
    destruct (H2 Sample.no_sin Sample.no_mask_hit 0 16 [] Sample.mian_collision
                 g0 g1)
      as [ls' [r [Hrun [Hr [Hst [Hd [Hs [_ Hh]]]]]]]].
    + reflexivity.
    + vm_compute. reflexivity.
    + vm_compute. reflexivity.
    + vm_compute. reflexivity.
    + assert (r = mkRect 48 380 34 24) as ->.
      { vm_compute in Hr. injection Hr as <-. reflexivity. }
      exists ls'. split; [exact Hrun|]. split; [exact Hst|].
      split; [exact Hd|].
      assert (Mian.score (Mian.game ls') = 1) as Hone.
      { rewrite Hs. vm_compute. reflexivity. }
      split; [exact Hone|].
      rewrite Hh; [rewrite Hone; vm_compute; reflexivity|].
      vm_compute. reflexivity.
Defined.

(** ** Leaving the welcome screen (C5) *)

Lemma main1_update_dead sin (b b' : Main1.Bird) dt gravity rs playing :
  Main1.update sin b dt gravity rs playing = Ok b' ->
  Main1.dead b' = Main1.dead b.
Proof.
  unfold Main1.update. intro H. apply bind_Ok in H. destruct H as [b1 [H1 H]].
  injection H as <-. apply main1_update_animation_frame in H1.
  destruct H1 as [_ [_ [Hd _]]]. rewrite <- Hd.
  unfold Main1.update_motion. destruct playing; reflexivity.
Qed.

Lemma main1_init_alive sp w : alive_unless_over (Main1.Game_init sp w).
Proof.
  intros _. unfold Main1.Game_init, choice2, choice3, next_draw.
  reflexivity.
Qed.

Lemma main1_handle_input_alive (g : Main1.Game) (e : Event) :
  alive_unless_over g -> alive_unless_over (Main1.handle_input g e).
Proof.
  intro Inv.
  assert (alive_unless_over (Main1.on_flap g)) as Hflap.
  { unfold Main1.on_flap. destruct (Main1.state g) eqn:S.
    - intros _. cbn. unfold Main1.flap.
      rewrite (Inv ltac:(congruence)). cbn. apply Inv. congruence.
    - intros _. cbn. unfold Main1.flap.
      rewrite (Inv ltac:(congruence)). cbn. apply Inv. congruence.
    - intros _. unfold Main1.reset, choice2, choice3, next_draw. reflexivity. }
  unfold Main1.handle_input. destruct e as [|k|button|]; try exact Inv.
  - destruct k; assumption.
  - destruct (button =? 1); assumption.
Qed.

Lemma main1_poll_events_alive events : forall (ls : Main1.LoopState),
  alive_unless_over (Main1.game ls) ->
  alive_unless_over (Main1.game (Main1.poll_events events ls)).
Proof.
  induction events as [|e events IH]; intros ls Inv; [exact Inv|].
  cbn [Main1.poll_events]. apply IH.
  destruct e as [|k|button|]; cbn [Main1.game];
    try exact Inv; try (apply main1_handle_input_alive; exact Inv).
  destruct k; cbn [Main1.game];
    try exact Inv; apply main1_handle_input_alive; exact Inv.
Qed.

Lemma main1_spawn_on_timer_frame dt (g g' : Main1.Game) :
  Main1.spawn_on_timer dt g = Ok g' ->
  Main1.bird g' = Main1.bird g /\ Main1.state g' = Main1.state g.
Proof.
  unfold Main1.spawn_on_timer, Main1.spawn_pipe.
  destruct (Qle_bool _ _); intro H.
  - apply bind_Ok in H. destruct H as [gap [_ H]].
    apply bind_Ok in H. destruct H as [[v r'] [_ H]].
    injection H as <-. cbn. auto.
  - injection H as <-. cbn. auto.
Qed.

Lemma main1_run_iteration_alive sin dt_ms events (ls ls' : Main1.LoopState) :
  alive_unless_over (Main1.game ls) ->
  Main1.run_iteration sin dt_ms events ls = Ok ls' ->
  alive_unless_over (Main1.game ls').
Proof.
  intros Inv Hrun.
  apply (main1_poll_events_alive events) in Inv.
  unfold alive_unless_over in *.
  unfold Main1.run_iteration in Hrun.
  remember (Main1.poll_events events ls) as ls1 eqn:E1. clear E1.
  cbn [Main1.game Main1.update_base Main1.set_scene Main1.state] in Hrun.
  destruct (Main1.state (Main1.game ls1)) eqn:S.
  - unfold Main1.welcome_tick in Hrun. cbn [Main1.game] in Hrun.
    apply bind_Ok in Hrun. destruct Hrun as [b [Hb Hrun]].
    injection Hrun as <-. cbn. intros _.
    rewrite (main1_update_dead _ _ _ _ _ _ _ Hb). cbn.
    apply Inv. congruence.
  - unfold Main1.playing_tick in Hrun. cbn [Main1.game] in Hrun.
    apply bind_Ok in Hrun. destruct Hrun as [g1 [Hadv Hrun]].
    apply bind_Ok in Hrun. destruct Hrun as [collided [_ Hrun]].
    injection Hrun as <-. cbn [Main1.game].
    destruct collided; cbn [Main1.game].
    + intro Hne. exfalso. apply Hne.
      destruct (main1_update_score_spec (Main1.game_over g1))
        as [_ [_ [_ [Hst _]]]].
      rewrite Hst. reflexivity.
    + destruct (main1_update_score_spec g1) as [_ [_ [Hb [Hst _]]]].
      intro Hne. rewrite Hb. rewrite Hst in Hne.
      unfold Main1.playing_advance in Hadv.
      apply bind_Ok in Hadv. destruct Hadv as [b [Hbird Hadv]].
      apply bind_Ok in Hadv. destruct Hadv as [g2 [Hsp Hadv]].
      injection Hadv as <-.
      apply main1_spawn_on_timer_frame in Hsp. destruct Hsp as [Hb2 Hs2].
      cbn in Hb2, Hs2 |- *. rewrite Hb2.
      rewrite (main1_update_dead _ _ _ _ _ _ _ Hbird). cbn.
      apply Inv. congruence.
  - unfold Main1.game_over_tick in Hrun.
    cbn [Main1.game Main1.death_sound_played Main1.running] in Hrun.
    apply bind_Ok in Hrun. destruct Hrun as [b [_ Hrun]].
    intro Hne. exfalso. apply Hne.
    destruct (negb (Main1.death_sound_played ls1)).
    + apply bind_Ok in Hrun. destruct Hrun as [r [_ Hrun]].
      destruct (rect_bottom r >=? _); injection Hrun as <-; cbn; exact S.
    + injection Hrun as <-. cbn. exact S.
Qed.

Lemma main1_reachable_alive sin (ls : Main1.LoopState) :
  main1_reachable sin ls -> alive_unless_over (Main1.game ls).
Proof.
  induction 1 as [sp w | ls ls' dt_ms events _ IH Hrun].
  - apply main1_init_alive.
  - exact (main1_run_iteration_alive _ _ _ _ _ IH Hrun).
Qed.

(** C5, as the code has it.  A flap input in [WELCOME] moves the game to
    [PLAYING].  In [main1.py] the bird, alive as it is whenever the loop
    started by [Game.__init__] is in [WELCOME], also gets the impulse,
    [velocity_y = -flap_impulse], and nothing else of it changes; in
    [mian.py] the bird is left as it is. *)
Theorem welcome_flap_starts_play :
  (forall sin (ls : Main1.LoopState) (events : list Event) (e : Event),
      main1_reachable sin ls ->
      let g := Main1.game (Main1.poll_events events ls) in
      Main1.state g = WELCOME -> flap_input e ->
      Main1.state (Main1.handle_input g e) = PLAYING
      /\ Main1.velocity_y (Main1.bird (Main1.handle_input g e))
         = (- Main1.flap_impulse (Main1.config g))%Q
      /\ Main1.bird (Main1.handle_input g e)
         = Main1.set_motion (Main1.position_y (Main1.bird g))
             (- Main1.flap_impulse (Main1.config g))
             (Main1.rotation (Main1.bird g))
             (Main1.wobble_timer (Main1.bird g)) (Main1.bird g))
  /\
  (forall (g : Mian.Game) (e : Event),
      Mian.state g = WELCOME -> flap_input e ->
      Mian.state (Mian.handle_input g e) = PLAYING
      /\ Mian.bird (Mian.handle_input g e) = Mian.bird g).
Proof.
  split.
  - intros sin ls events e Hreach g Hs He.
    assert (Main1.dead (Main1.bird g) = false) as Hd.
    { apply (main1_poll_events_alive events ls
               (main1_reachable_alive sin ls Hreach)).
      fold g. congruence. }
    assert (Main1.handle_input g e = Main1.on_flap g) as ->.
    { destruct He as [-> | [-> | ->]]; reflexivity. }
    unfold Main1.on_flap. rewrite Hs. cbn.
    unfold Main1.flap. rewrite Hd. cbn. auto.
  - intros g e Hs He.
    assert (Mian.handle_input g e = Mian.on_flap g) as ->.
    { destruct He as [-> | [-> | ->]]; reflexivity. }
    unfold Mian.on_flap. rewrite Hs. cbn. auto.
Qed.

Lemma welcome_flap_starts_play_witness :
  (Main1.state (Main1.handle_input Sample.main1_game (KEYDOWN K_SPACE)) = PLAYING
   /\ Main1.velocity_y
        (Main1.bird (Main1.handle_input Sample.main1_game (KEYDOWN K_SPACE)))
      = (- Main1.flap_impulse (Main1.config Sample.main1_game))%Q)
  /\
  (Mian.state (Mian.handle_input Sample.mian_game (MOUSEBUTTONDOWN 1)) = PLAYING
   /\ Mian.bird (Mian.handle_input Sample.mian_game (MOUSEBUTTONDOWN 1))
      = Mian.bird Sample.mian_game).
Proof.
  destruct welcome_flap_starts_play as [H1 H2].
  split.
  - destruct (H1 Sample.no_sin
                (Main1.mkLoop Sample.main1_game true false) []
                (KEYDOWN K_SPACE) (reach_init _ _ _) eq_refl
                (or_introl eq_refl)) as [Ha [Hb _]].
    split; [exact Ha | exact Hb].
  - exact (H2 Sample.mian_game (MOUSEBUTTONDOWN 1) eq_refl
              (or_intror (or_intror eq_refl))).
Defined.

(** In [mian.py] the transition out of [WELCOME] applies no impulse: the
    bird of a fresh game still has velocity 0 after the flap input, not
    [-flap_impulse = -350]. *)
Lemma welcome_flap_no_impulse_in_mian :
  Mian.state Sample.mian_game = WELCOME
  /\ Mian.state (Mian.handle_input Sample.mian_game (KEYDOWN K_SPACE)) = PLAYING
  /\ Mian.velocity_y
       (Mian.bird (Mian.handle_input Sample.mian_game (KEYDOWN K_SPACE))) = 0%Q
  /\ ~ (Mian.velocity_y
          (Mian.bird (Mian.handle_input Sample.mian_game (KEYDOWN K_SPACE)))
        == - Mian.flap_impulse (Mian.config Sample.mian_game))%Q.
Proof.
  repeat split. intro H. vm_compute in H. discriminate.
Qed.

(** * The rest of the loop *)

(** ** Invariants of [Game.run] in [main1.py] *)

Section Main1Invariant.

Variable P : Main1.Game -> Prop.

Hypothesis P_input : forall g e, P g -> P (Main1.handle_input g e).
Hypothesis P_base : forall g dt, P g -> P (Main1.update_base dt g).
Hypothesis P_bird : forall g b, P g -> P (Main1.set_bird b g).
Hypothesis P_spawn :
  forall g g' dt, P g -> Main1.spawn_on_timer dt g = Ok g' -> P g'.
Hypothesis P_move :
  forall g dt, P g -> P (Main1.prune_pipes (Main1.move_pipes dt g)).
Hypothesis P_over : forall g, P g -> P (Main1.game_over g).
Hypothesis P_score : forall g, P g -> P (Main1.update_score g).
Hypothesis P_play : forall g snd, P g -> P (Main1.play snd g).

Lemma main1_poll_events_keeps events : forall (ls : Main1.LoopState),
  P (Main1.game ls) -> P (Main1.game (Main1.poll_events events ls)).
Proof.
  induction events as [|e events IH]; intros ls H; [exact H|].
  cbn [Main1.poll_events]. apply IH.
  destruct e as [|k|button|]; cbn [Main1.game]; auto.
  destruct k; cbn [Main1.game]; auto.
Qed.

Lemma main1_run_iteration_keeps sin dt_ms events (ls ls' : Main1.LoopState) :
  P (Main1.game ls) ->
  Main1.run_iteration sin dt_ms events ls = Ok ls' ->
  P (Main1.game ls').
Proof.
  intros H Hrun. apply (main1_poll_events_keeps events) in H.
  unfold Main1.run_iteration in Hrun.
  remember (Main1.poll_events events ls) as ls1 eqn:E1. clear E1.
  remember (inject_Z dt_ms / 1000)%Q as dt eqn:Edt. clear Edt.
  apply (P_base _ dt) in H.
  cbn [Main1.game] in Hrun.
  destruct (Main1.state (Main1.update_base dt (Main1.game ls1))).
  - unfold Main1.welcome_tick in Hrun. cbn [Main1.game] in Hrun.
    apply bind_Ok in Hrun. destruct Hrun as [b [_ Hrun]].
    injection Hrun as <-. cbn [Main1.game]. auto.
  - unfold Main1.playing_tick, Main1.playing_advance in Hrun.
    cbn [Main1.game] in Hrun.
    apply bind_Ok in Hrun. destruct Hrun as [g1 [Hadv Hrun]].
    apply bind_Ok in Hadv. destruct Hadv as [b [_ Hadv]].
    apply bind_Ok in Hadv. destruct Hadv as [g2 [Hsp Hadv]].
    injection Hadv as <-.
    apply bind_Ok in Hrun. destruct Hrun as [collided [_ Hrun]].
    injection Hrun as <-.
    assert (P (Main1.prune_pipes (Main1.move_pipes dt g2))) as H1.
    { apply P_move. eapply P_spawn; [|exact Hsp]. apply P_bird. exact H. }
    destruct collided; cbn [Main1.game]; auto.
  - unfold Main1.game_over_tick in Hrun.
    cbn [Main1.game Main1.death_sound_played Main1.running] in Hrun.
    apply bind_Ok in Hrun. destruct Hrun as [b [_ Hrun]].
    destruct (negb (Main1.death_sound_played ls1)).
    + apply bind_Ok in Hrun. destruct Hrun as [r [_ Hrun]].
      destruct (rect_bottom r >=? _); injection Hrun as <-;
        cbn [Main1.game]; auto.
    + injection Hrun as <-. cbn [Main1.game]. auto.
Qed.

Hypothesis P_init : forall sp w, P (Main1.Game_init sp w).

Lemma main1_reachable_keeps sin (ls : Main1.LoopState) :
  main1_reachable sin ls -> P (Main1.game ls).
Proof.
  induction 1 as [sp w | ls ls' dt_ms events _ IH Hrun].
  - apply P_init.
  - exact (main1_run_iteration_keeps _ _ _ _ _ IH Hrun).
Qed.

End Main1Invariant.

(** Steps of the loop that touch neither the scores, the pipes, the
    configuration nor the file are dismissed by projecting through their
    setters. *)
Ltac main1_frame :=
  intros;
  cbn [Main1.update_base Main1.set_scene Main1.set_bird Main1.prune_pipes
       Main1.move_pipes Main1.set_pipes Main1.game_over Main1.play
       Main1.set_world Main1.set_state Main1.world Main1.store
       Main1.high_score Main1.score Main1.config Main1.pipes Main1.state
       Main1.bird] in *;
  auto.

Lemma main1_on_flap_frame (g : Main1.Game) :
  Main1.config (Main1.on_flap g) = Main1.config g
  /\ Main1.high_score (Main1.on_flap g) = Main1.high_score g
  /\ Main1.store (Main1.world (Main1.on_flap g)) = Main1.store (Main1.world g)
  /\ ((Main1.score (Main1.on_flap g) = Main1.score g
       /\ Main1.pipes (Main1.on_flap g) = Main1.pipes g)
      \/ (Main1.score (Main1.on_flap g) = 0
          /\ Main1.pipes (Main1.on_flap g) = [])).
Proof.
  unfold Main1.on_flap. destruct (Main1.state g).
  - cbn. tauto.
  - cbn. tauto.
  - unfold Main1.reset, choice2, choice3, next_draw. cbn. tauto.
Qed.

Lemma main1_handle_input_frame (g : Main1.Game) (e : Event) :
  Main1.config (Main1.handle_input g e) = Main1.config g
  /\ Main1.high_score (Main1.handle_input g e) = Main1.high_score g
  /\ Main1.store (Main1.world (Main1.handle_input g e))
     = Main1.store (Main1.world g)
  /\ ((Main1.score (Main1.handle_input g e) = Main1.score g
       /\ Main1.pipes (Main1.handle_input g e) = Main1.pipes g)
      \/ (Main1.score (Main1.handle_input g e) = 0
          /\ Main1.pipes (Main1.handle_input g e) = [])).
Proof.
  unfold Main1.handle_input.
  destruct e as [|k|button|]; try (cbn; tauto).
  - destruct k; try (cbn; tauto); apply main1_on_flap_frame.
  - destruct (button =? 1); [apply main1_on_flap_frame | cbn; tauto].
Qed.

Lemma main1_spawn_on_timer_cases dt (g g' : Main1.Game) :
  Main1.spawn_on_timer dt g = Ok g' ->
  Main1.config g' = Main1.config g
  /\ Main1.score g' = Main1.score g
  /\ Main1.high_score g' = Main1.high_score g
  /\ Main1.store (Main1.world g') = Main1.store (Main1.world g)
  /\ (Main1.pipes g' = Main1.pipes g
      \/ exists p, Main1.pipes g' = Main1.pipes g ++ [p]
                   /\ pipe_in_band (Main1.config g) p
                   /\ Main1.passed p = false).
Proof.
  unfold Main1.spawn_on_timer. destruct (Qle_bool _ _); intro H.
  - pose proof H as H0. apply main1_spawn_pipe_Ok in H0.
    destruct H0 as [gap [c [Hgap [Hc [Hp [Hs Hcfg]]]]]].
    unfold Main1.spawn_pipe in H.
    apply bind_Ok in H. destruct H as [gap' [_ H]].
    apply bind_Ok in H. destruct H as [[v r'] [_ H]]. injection H as <-.
    cbn in Hp, Hc, Hgap |- *.
    split; [reflexivity|]. split; [reflexivity|]. split; [reflexivity|].
    split; [reflexivity|]. right. eexists. split; [exact Hp|].
    apply main1_current_gap_Ok in Hgap. destruct Hgap as [_ Hgap].
    cbn in Hgap.
    unfold pipe_in_band, Main1.top_height, Main1.bottom_top, Main1.PipePair_init.
    cbn [Main1.gap_size Main1.gap_y Main1.passed].
    unfold Main1.min_center, Main1.max_center in Hc. cbn in Hc.
    repeat split; lia.
  - injection H as <-. cbn. tauto.
Qed.

Lemma load_after_write (n : Z) (st : FileStore) :
  writable st = true ->
  Main1._load_high_score (Main1.write_high_score n st) = n
  /\ writable (Main1.write_high_score n st) = true.
Proof.
  intro Hw. unfold Main1.write_high_score. rewrite Hw.
  unfold Main1._load_high_score. cbn [file_text writable].
  rewrite int_of_text_py_str. auto.
Qed.

Lemma points_nonneg bx ps : 0 <= points bx ps.
Proof. unfold points. lia. Qed.

(** X1.  The high score never goes down: whatever the events and the
    elapsed time, an iteration of the loop of [main1.py] that returns
    leaves the high score at least where it was, resets included. *)
Theorem main1_high_score_never_drops :
  forall sin dt_ms events (ls ls' : Main1.LoopState),
    Main1.run_iteration sin dt_ms events ls = Ok ls' ->
    Main1.high_score (Main1.game ls) <= Main1.high_score (Main1.game ls').
Proof.
  intros sin dt_ms events ls ls' Hrun.
  apply (main1_run_iteration_keeps
           (fun g => Main1.high_score (Main1.game ls) <= Main1.high_score g))
    with (sin := sin) (dt_ms := dt_ms) (events := events) (ls := ls);
    try exact Hrun; try lia; try (main1_frame; fail).
  - intros g e H. destruct (main1_handle_input_frame g e) as [_ [-> _]]. exact H.
  - intros g g' dt H Hsp.
    destruct (main1_spawn_on_timer_cases _ _ _ Hsp) as [_ [_ [-> _]]]. exact H.
  - intros g H. destruct (main1_update_score_best_store g) as [Hh _].
    rewrite Hh. destruct (0 <? _); lia.
Qed.

Lemma main1_high_score_never_drops_witness :
  exists ls',
    Main1.run_iteration Sample.no_sin 16 [] Sample.main1_collision = Ok ls'
    /\ Main1.high_score (Main1.game Sample.main1_collision)
       <= Main1.high_score (Main1.game ls').
Proof.
  destruct (Main1.run_iteration Sample.no_sin 16 [] Sample.main1_collision)
    as [ls'|e] eqn:E; [|vm_compute in E; discriminate].
  exists ls'. split; [reflexivity|].
  exact (main1_high_score_never_drops _ _ _ _ _ E).
Defined.

Lemma main1_reachable_score_between sin (ls : Main1.LoopState) :
  main1_reachable sin ls ->
  0 <= Main1.score (Main1.game ls)
  <= Z.max 0 (Main1.high_score (Main1.game ls)).
Proof.
  intro Hreach.
  apply (main1_reachable_keeps
           (fun g => 0 <= Main1.score g <= Z.max 0 (Main1.high_score g)))
    with (sin := sin); try exact Hreach; try (main1_frame; fail).
  - intros g e H.
    destruct (main1_handle_input_frame g e) as [_ [Hh [_ [[Hs _]|[Hs _]]]]];
      rewrite Hh, Hs; lia.
  - intros g g' dt H Hsp.
    destruct (main1_spawn_on_timer_cases _ _ _ Hsp) as [_ [-> [-> _]]]. exact H.
  - intros g H. destruct (main1_update_score_spec g) as [_ [Hs _]].
    destruct (main1_update_score_best_store g) as [Hh _].
    pose proof (points_nonneg (Main1.position_x (Main1.bird g)) (Main1.pipes g)).
    rewrite Hs, Hh.
    destruct (0 <? points _ _) eqn:K; [|apply Z.ltb_ge in K]; lia.
  - intros sp w. unfold Main1.Game_init, choice2, choice3, next_draw. cbn. lia.
Qed.

(** X2.  In every state that the loop of [main1.py] reaches from
    [Game.__init__], the score is not negative and is at most the larger of
    0 and the high score (a negative high score can only come from the
    file). *)
Theorem main1_score_between :
  forall sin (ls : Main1.LoopState),
    main1_reachable sin ls ->
    0 <= Main1.score (Main1.game ls)
    <= Z.max 0 (Main1.high_score (Main1.game ls)).
Proof.
  intros sin ls Hreach. exact (main1_reachable_score_between sin ls Hreach).
Qed.

Lemma main1_score_between_witness :
  0 <= Main1.score (Main1.game main1_played)
  <= Z.max 0 (Main1.high_score (Main1.game main1_played)).
Proof.
  apply (main1_score_between Sample.no_sin).
  apply (reach_iteration _ main1_first_loop _ 2000 [KEYDOWN K_SPACE]).
  - apply reach_init.
  - vm_compute. reflexivity.
Defined.

Lemma main1_reachable_file_in_sync sin (ls : Main1.LoopState) :
  main1_reachable sin ls ->
  writable (Main1.store (Main1.world (Main1.game ls))) = true ->
  Main1._load_high_score (Main1.store (Main1.world (Main1.game ls)))
  = Main1.high_score (Main1.game ls).
Proof.
  intro Hreach.
  apply (main1_reachable_keeps
           (fun g => writable (Main1.store (Main1.world g)) = true ->
                     Main1._load_high_score (Main1.store (Main1.world g))
                     = Main1.high_score g))
    with (sin := sin); try exact Hreach; try (main1_frame; fail).
  - intros g e H.
    destruct (main1_handle_input_frame g e) as [_ [-> [-> _]]]. exact H.
  - intros g g' dt H Hsp.
    destruct (main1_spawn_on_timer_cases _ _ _ Hsp) as [_ [_ [-> [-> _]]]].
    exact H.
  - intros g H. destruct (main1_update_score_best_store g) as [Hh Hf].
    rewrite Hh, Hf. clear Hh Hf.
    destruct (0 <? points _ _) eqn:K; cbn [andb]; [|exact H].
    destruct (Main1.high_score g <? Main1.score g + points _ _) eqn:L.
    + apply Z.ltb_lt in L. intro Hw.
      assert (writable (Main1.store (Main1.world g)) = true) as W.
      { unfold Main1.write_high_score in Hw.
        destruct (writable (Main1.store (Main1.world g))) eqn:W;
          [reflexivity | cbn in Hw; congruence]. }
      rewrite (proj1 (load_after_write _ _ W)). lia.
    + apply Z.ltb_ge in L. intro W. rewrite (H W). lia.
Qed.

(** X3.  With a writable store, memory and file agree in every state that
    the loop of [main1.py] reaches: reading [highscore.txt] back gives the
    current high score. *)
Theorem main1_file_in_sync :
  forall sin (ls : Main1.LoopState),
    main1_reachable sin ls ->
    writable (Main1.store (Main1.world (Main1.game ls))) = true ->
    Main1._load_high_score (Main1.store (Main1.world (Main1.game ls)))
    = Main1.high_score (Main1.game ls).
Proof.
  intros sin ls Hreach. exact (main1_reachable_file_in_sync sin ls Hreach).
Qed.

Lemma main1_file_in_sync_witness :
  Main1._load_high_score (Main1.store (Main1.world (Main1.game main1_played)))
  = Main1.high_score (Main1.game main1_played)
  /\ Main1.high_score (Main1.game main1_played) = 1.
Proof.
  split; [|reflexivity].
  apply (main1_file_in_sync Sample.no_sin).
  - apply (reach_iteration _ main1_first_loop _ 2000 [KEYDOWN K_SPACE]).
    + apply reach_init.
    + vm_compute. reflexivity.
  - reflexivity.
Defined.

Lemma pipe_in_band_moved c dt (p : Main1.PipePair) :
  pipe_in_band c p -> pipe_in_band c (Main1.PipePair_update dt p).
Proof. intro H. exact H. Qed.

Lemma pipe_in_band_marked c bx (p : Main1.PipePair) :
  pipe_in_band c p -> pipe_in_band c (mark bx p).
Proof. intro H. unfold mark. destruct (Main1.crossing bx p); exact H. Qed.

Lemma Forall_filter_keep (A : Type) (Q : A -> Prop) (f : A -> bool) (l : list A) :
  Forall Q l -> Forall Q (filter f l).
Proof.
  intro H. apply Forall_forall. intros a Ha. apply filter_In in Ha.
  destruct Ha as [Ha _]. rewrite Forall_forall in H. auto.
Qed.

Lemma Forall_map_keep (A : Type) (Q : A -> Prop) (f : A -> A) (l : list A) :
  (forall a, Q a -> Q (f a)) -> Forall Q l -> Forall Q (map f l).
Proof.
  intros Hf H. induction H as [|a l Ha Hl IH]; cbn; constructor; auto.
Qed.

(** X4.  The hard invariant of the spawner holds for the whole collection
    at all times: in every state that the loop of [main1.py] reaches, each
    pipe of [self.pipes] has a gap of at least [min_pipe_gap] whose edges lie
    between a quarter of the screen height and 20 above the ground, however
    far it has moved and whether or not it was scored. *)
Theorem main1_pipes_stay_in_band :
  forall sin (ls : Main1.LoopState) (p : Main1.PipePair),
    main1_reachable sin ls ->
    In p (Main1.pipes (Main1.game ls)) ->
    pipe_in_band (Main1.config (Main1.game ls)) p.
Proof.
  intros sin ls p Hreach Hin.
  assert (Forall (pipe_in_band (Main1.config (Main1.game ls)))
                 (Main1.pipes (Main1.game ls))) as Hall.
  { apply (main1_reachable_keeps
             (fun g => Forall (pipe_in_band (Main1.config g)) (Main1.pipes g)))
      with (sin := sin); try exact Hreach; try (main1_frame; fail).
    - intros g e H.
      destruct (main1_handle_input_frame g e) as [-> [_ [_ [[_ ->]|[_ ->]]]]];
        [exact H | constructor].
    - intros g g' dt H Hsp.
      destruct (main1_spawn_on_timer_cases _ _ _ Hsp)
        as [-> [_ [_ [_ [-> | [q [-> [Hq _]]]]]]]]; [exact H|].
      apply Forall_app. split; [exact H | constructor; [exact Hq | constructor]].
    - intros g dt H. cbn. apply Forall_filter_keep.
      apply Forall_map_keep; [apply pipe_in_band_moved | exact H].
    - intros g H. destruct (main1_update_score_spec g) as [-> [_ [_ [_ ->]]]].
      apply Forall_map_keep; [apply pipe_in_band_marked | exact H]. }
  rewrite Forall_forall in Hall. exact (Hall p Hin).
Qed.

Lemma main1_pipes_stay_in_band_witness :
  exists p, In p (Main1.pipes (Main1.game main1_played))
            /\ pipe_in_band (Main1.config (Main1.game main1_played)) p.
Proof.
  assert (main1_reachable Sample.no_sin main1_played) as Hreach.
  { apply (reach_iteration _ main1_first_loop _ 2000 [KEYDOWN K_SPACE]).
    - apply reach_init.
    - vm_compute. reflexivity. }
  destruct (Main1.pipes (Main1.game main1_played)) as [|p ps] eqn:E;
    [vm_compute in E; discriminate|].
  exists p. split; [left; reflexivity|].
  apply (main1_pipes_stay_in_band Sample.no_sin main1_played p Hreach).
  rewrite E. left. reflexivity.
Defined.

(** X5.  A store that cannot be written does not get in the way of
    scoring: [update_score] then leaves [highscore.txt] as it was, while
    score and high score in memory move as usual. *)
Theorem main1_unwritable_store_is_left_alone :
  forall (g : Main1.Game),
    writable (Main1.store (Main1.world g)) = false ->
    Main1.store (Main1.world (Main1.update_score g))
    = Main1.store (Main1.world g)
    /\ Main1.score (Main1.update_score g)
       = Main1.score g + points (Main1.position_x (Main1.bird g)) (Main1.pipes g)
    /\ (0 < points (Main1.position_x (Main1.bird g)) (Main1.pipes g) ->
        Main1.high_score (Main1.update_score g)
        = Z.max (Main1.high_score g) (Main1.score (Main1.update_score g))).
Proof.
  intros g W.
  destruct (main1_update_score_best_store g) as [Hh Hf].
  destruct (main1_update_score_spec g) as [_ [Hs _]].
  split; [|split; [exact Hs|]].
  - rewrite Hf. destruct (_ && _); [|reflexivity].
    unfold Main1.write_high_score. rewrite W. reflexivity.
  - intro K. apply Z.ltb_lt in K. rewrite Hh, K, Hs. reflexivity.
Qed.

Lemma main1_unwritable_store_is_left_alone_witness :
  Main1.store (Main1.world (Main1.update_score main1_two_pipes_readonly))
  = mkFileStore None false
  /\ Main1.score (Main1.update_score main1_two_pipes_readonly) = 2.
Proof.
  destruct (main1_unwritable_store_is_left_alone main1_two_pipes_readonly eq_refl)
    as [Hf [Hs _]].
  split; [exact Hf | rewrite Hs; reflexivity].
Defined.

(** ** What an iteration leaves alone *)

Lemma main1_handle_input_ignores (g : Main1.Game) (e : Event) :
  ~ flap_input e -> Main1.handle_input g e = g.
Proof.
  unfold flap_input. intro H. destruct e as [|k|button|]; try reflexivity.
  - destruct k; try reflexivity; exfalso; apply H; auto.
  - cbn. destruct (button =? 1) eqn:E; [|reflexivity].
    apply Z.eqb_eq in E. subst. exfalso. apply H. auto.
Qed.

Lemma main1_poll_no_flap events : forall (ls : Main1.LoopState),
  Forall (fun e => ~ flap_input e) events ->
  Main1.game (Main1.poll_events events ls) = Main1.game ls.
Proof.
  induction events as [|e events IH]; intros ls H; [reflexivity|].
  inversion H as [|? ? He Hrest]; subst.
  cbn [Main1.poll_events]. rewrite (IH _ Hrest).
  destruct e as [|k|button|]; cbn [Main1.game];
    try reflexivity; try (apply main1_handle_input_ignores; exact He).
  destruct k; cbn [Main1.game];
    try reflexivity; apply main1_handle_input_ignores; exact He.
Qed.

Lemma main1_poll_running events : forall (ls : Main1.LoopState),
  Main1.running (Main1.poll_events events ls)
  = Main1.running ls && negb (existsb main1_is_quit events).
Proof.
  induction events as [|e events IH]; intro ls.
  - cbn. rewrite andb_true_r. reflexivity.
  - cbn [Main1.poll_events existsb]. rewrite IH.
    destruct e as [|k|button|]; cbn; try reflexivity.
    + rewrite andb_false_r. reflexivity.
    + destruct k; cbn; try reflexivity. rewrite andb_false_r. reflexivity.
Qed.

Lemma main1_run_iteration_running sin dt_ms events (ls ls' : Main1.LoopState) :
  Main1.run_iteration sin dt_ms events ls = Ok ls' ->
  Main1.running ls' = Main1.running (Main1.poll_events events ls).
Proof.
  unfold Main1.run_iteration. intro Hrun.
  remember (Main1.poll_events events ls) as ls1 eqn:E1. clear E1.
  cbn [Main1.game] in Hrun.
  destruct (Main1.state _).
  - unfold Main1.welcome_tick in Hrun. cbn [Main1.game Main1.running] in Hrun.
    apply bind_Ok in Hrun. destruct Hrun as [b [_ Hrun]].
    injection Hrun as <-. reflexivity.
  - unfold Main1.playing_tick in Hrun. cbn [Main1.game Main1.running] in Hrun.
    apply bind_Ok in Hrun. destruct Hrun as [g1 [_ Hrun]].
    apply bind_Ok in Hrun. destruct Hrun as [collided [_ Hrun]].
    injection Hrun as <-. destruct collided; reflexivity.
  - unfold Main1.game_over_tick in Hrun.
    cbn [Main1.game Main1.death_sound_played Main1.running] in Hrun.
    apply bind_Ok in Hrun. destruct Hrun as [b [_ Hrun]].
    destruct (negb (Main1.death_sound_played ls1)).
    + apply bind_Ok in Hrun. destruct Hrun as [r [_ Hrun]].
      destruct (rect_bottom r >=? _); injection Hrun as <-; reflexivity.
    + injection Hrun as <-. reflexivity.
Qed.

Lemma mian_poll_running events : forall (ls : Mian.LoopState),
  Mian.running (Mian.poll_events events ls)
  = Mian.running ls && negb (existsb mian_is_quit events).
Proof.
  induction events as [|e events IH]; intro ls.
  - cbn. rewrite andb_true_r. reflexivity.
  - cbn [Mian.poll_events existsb]. rewrite IH.
    destruct e as [|k|button|]; cbn; try reflexivity.
    rewrite andb_false_r. reflexivity.
Qed.

Lemma mian_update_score_Ok (g g' : Mian.Game) :
  Mian.update_score g = Ok g' ->
  exists ps g1, Mian.score_pipes (Mian.pipes g) g = Ok (ps, g1)
                /\ g' = Mian.set_pipes ps g1.
Proof.
  unfold Mian.update_score. intro H. apply bind_Ok in H.
  destruct H as [[ps g1] [Hrun H]]. injection H as <-.
  exists ps, g1. auto.
Qed.

Lemma mian_run_iteration_running sin mask_hit now dt_ms events
    (ls ls' : Mian.LoopState) :
  Mian.run_iteration sin mask_hit now dt_ms events ls = Ok ls' ->
  Mian.running ls' = Mian.running (Mian.poll_events events ls).
Proof.
  unfold Mian.run_iteration. intro Hrun.
  remember (Mian.poll_events events ls) as ls1 eqn:E1. clear E1.
  apply bind_Ok in Hrun. destruct Hrun as [g1 [_ Hrun]].
  destruct (Mian.state g1).
  - injection Hrun as <-. reflexivity.
  - unfold Mian.playing_tick in Hrun. cbn [Mian.game Mian.running] in Hrun.
    apply bind_Ok in Hrun. destruct Hrun as [g2 [_ Hrun]].
    apply bind_Ok in Hrun. destruct Hrun as [collided [_ Hrun]].
    apply bind_Ok in Hrun. destruct Hrun as [g3 [_ Hrun]].
    injection Hrun as <-. destruct collided; reflexivity.
  - unfold Mian.game_over_tick in Hrun.
    cbn [Mian.game Mian.death_sound_played Mian.running] in Hrun.
    apply bind_Ok in Hrun. destruct Hrun as [b [_ Hrun]].
    destruct (negb (Mian.death_sound_played ls1)).
    + apply bind_Ok in Hrun. destruct Hrun as [r [_ Hrun]].
      destruct (rect_bottom r >=? _); injection Hrun as <-; reflexivity.
    + injection Hrun as <-. reflexivity.
Qed.

(** X6.  Quitting is final and only quit events quit.  After an iteration
    that returns, [running] is true exactly when it was true before and the
    polled events held no quit event: in [main1.py] the quit request or the
    escape key, in [mian.py] the quit request alone (escape does nothing
    there).  Flaps, collisions and resets never touch it. *)
Theorem running_only_cleared_by_quit :
  (forall sin dt_ms events (ls ls' : Main1.LoopState),
      Main1.run_iteration sin dt_ms events ls = Ok ls' ->
      Main1.running ls'
      = Main1.running ls && negb (existsb main1_is_quit events))
  /\
  (forall sin mask_hit now dt_ms events (ls ls' : Mian.LoopState),
      Mian.run_iteration sin mask_hit now dt_ms events ls = Ok ls' ->
      Mian.running ls'
      = Mian.running ls && negb (existsb mian_is_quit events)).
Proof.
  split.
  - intros sin dt_ms events ls ls' Hrun.
    rewrite (main1_run_iteration_running _ _ _ _ _ Hrun).
    apply main1_poll_running.
  - intros sin mask_hit now dt_ms events ls ls' Hrun.
    rewrite (mian_run_iteration_running _ _ _ _ _ _ _ Hrun).
    apply mian_poll_running.
Qed.

Lemma running_only_cleared_by_quit_witness :
  (exists ls',
      Main1.run_iteration Sample.no_sin 16 [KEYDOWN K_SPACE; KEYDOWN K_ESCAPE]
        main1_first_loop = Ok ls'
      /\ Main1.running ls' = false)
  /\
  (exists ls',
      Mian.run_iteration Sample.no_sin Sample.no_mask_hit 0 16
        [KEYDOWN K_ESCAPE] (Mian.mkLoop Sample.mian_game true false) = Ok ls'
      /\ Mian.running ls' = true).
Proof.
  destruct running_only_cleared_by_quit as [H1 H2]. split.
  - destruct (Main1.run_iteration Sample.no_sin 16
                [KEYDOWN K_SPACE; KEYDOWN K_ESCAPE] main1_first_loop)
      as [ls'|e] eqn:E; [|vm_compute in E; discriminate].
    exists ls'. split; [reflexivity|]. rewrite (H1 _ _ _ _ _ E). reflexivity.
  - destruct (Mian.run_iteration Sample.no_sin Sample.no_mask_hit 0 16
                [KEYDOWN K_ESCAPE] (Mian.mkLoop Sample.mian_game true false))
      as [ls'|e] eqn:E; [|vm_compute in E; discriminate].
    exists ls'. split; [reflexivity|]. rewrite (H2 _ _ _ _ _ _ _ E). reflexivity.
Defined.

Lemma main1_poll_death_sound events : forall (ls : Main1.LoopState),
  Main1.death_sound_played (Main1.poll_events events ls)
  = Main1.death_sound_played ls.
Proof.
  induction events as [|e events IH]; intro ls; [reflexivity|].
  cbn [Main1.poll_events]. rewrite IH.
  destruct e as [|k|button|]; try reflexivity. destruct k; reflexivity.
Qed.

(** X7.  [GAME_OVER] freezes the round.  An iteration of [main1.py] that
    starts in [GAME_OVER] and polls no flap input stays in [GAME_OVER] and
    leaves pipes, spawn timer, score, high score and file untouched: no pipe
    moves, none is spawned or scored, only the dead bird keeps falling.
    Once the death cue has been played, no further cue is played either. *)
Theorem main1_game_over_freezes :
  forall sin dt_ms events (ls ls' : Main1.LoopState),
    Main1.state (Main1.game ls) = GAME_OVER ->
    Forall (fun e => ~ flap_input e) events ->
    Main1.run_iteration sin dt_ms events ls = Ok ls' ->
    Main1.state (Main1.game ls') = GAME_OVER
    /\ Main1.pipes (Main1.game ls') = Main1.pipes (Main1.game ls)
    /\ Main1.pipe_spawn_timer (Main1.game ls')
       = Main1.pipe_spawn_timer (Main1.game ls)
    /\ Main1.score (Main1.game ls') = Main1.score (Main1.game ls)
    /\ Main1.high_score (Main1.game ls') = Main1.high_score (Main1.game ls)
    /\ Main1.store (Main1.world (Main1.game ls'))
       = Main1.store (Main1.world (Main1.game ls))
    /\ Main1.dead (Main1.bird (Main1.game ls'))
       = Main1.dead (Main1.bird (Main1.game ls))
    /\ (Main1.death_sound_played ls = true ->
        Main1.death_sound_played ls' = true
        /\ Main1.sound_log (Main1.world (Main1.game ls'))
           = Main1.sound_log (Main1.world (Main1.game ls))).
Proof.
  intros sin dt_ms events ls ls' Hst Hev Hrun.
  unfold Main1.run_iteration in Hrun.
  pose proof (main1_poll_no_flap events ls Hev) as Hg.
  pose proof (main1_poll_death_sound events ls) as Hd.
  remember (Main1.poll_events events ls) as ls1 eqn:E1. clear E1.
  cbn [Main1.game Main1.update_base Main1.set_scene Main1.state] in Hrun.
  rewrite Hg, Hst in Hrun.
  unfold Main1.game_over_tick in Hrun.
  cbn [Main1.game Main1.death_sound_played Main1.running] in Hrun.
  apply bind_Ok in Hrun. destruct Hrun as [b [Hb Hrun]].
  apply main1_update_dead in Hb. cbn in Hb.
  rewrite Hd in Hrun.
  destruct (Main1.death_sound_played ls) eqn:D; cbn [negb] in Hrun.
  - injection Hrun as <-. cbn. repeat split; auto.
  - apply bind_Ok in Hrun. destruct Hrun as [r [_ Hrun]].
    destruct (rect_bottom r >=? _); injection Hrun as <-; cbn;
      repeat split; auto; discriminate.
Qed.

Lemma main1_game_over_freezes_witness :
  exists ls',
    Main1.run_iteration Sample.no_sin 16 [KEYDOWN K_OTHER; MOUSEBUTTONDOWN 3]
      main1_played = Ok ls'
    /\ Main1.state (Main1.game ls') = GAME_OVER
    /\ Main1.pipes (Main1.game ls') = Main1.pipes (Main1.game main1_played)
    /\ Main1.score (Main1.game ls') = 1.
Proof.
  destruct (Main1.run_iteration Sample.no_sin 16
              [KEYDOWN K_OTHER; MOUSEBUTTONDOWN 3] main1_played)
    as [ls'|e] eqn:E; [|vm_compute in E; discriminate].
  exists ls'. split; [reflexivity|].
  destruct (main1_game_over_freezes Sample.no_sin 16
              [KEYDOWN K_OTHER; MOUSEBUTTONDOWN 3] main1_played ls')
    as [Hst [Hp [_ [Hs _]]]].
  - reflexivity.
  - unfold flap_input. repeat constructor; intros [H|[H|H]]; discriminate.
  - exact E.
  - split; [exact Hst|]. split; [exact Hp|]. rewrite Hs. reflexivity.
Defined.

Lemma main1_update_idle sin (b b' : Main1.Bird) dt gravity rs :
  Main1.update sin b dt gravity rs false = Ok b' ->
  Main1.velocity_y b' = Main1.velocity_y b
  /\ Main1.position_x b' = Main1.position_x b
  /\ Main1.rotation b' = 0%Q
  /\ Main1.dead b' = Main1.dead b.
Proof.
  unfold Main1.update. intro H. apply bind_Ok in H. destruct H as [b1 [H1 H]].
  injection H as <-. unfold Main1.update_animation in H1.
  destruct (Main1.dead b) eqn:D.
  - injection H1 as <-. cbn. auto.
  - destruct (Qle_bool _ _).
    + apply bind_Ok in H1. destruct H1 as [i [_ H1]]. injection H1 as <-.
      cbn. auto.
    + injection H1 as <-. cbn. auto.
Qed.

(** X8.  The welcome screen only idles.  An iteration of [main1.py] that
    starts in [WELCOME] and polls no flap input stays in [WELCOME]; gravity
    is not applied (the velocity is as before and the rotation is 0), and
    pipes, spawn timer, score, high score and played cues are untouched. *)
Theorem main1_welcome_idles :
  forall sin dt_ms events (ls ls' : Main1.LoopState),
    Main1.state (Main1.game ls) = WELCOME ->
    Forall (fun e => ~ flap_input e) events ->
    Main1.run_iteration sin dt_ms events ls = Ok ls' ->
    Main1.state (Main1.game ls') = WELCOME
    /\ Main1.velocity_y (Main1.bird (Main1.game ls'))
       = Main1.velocity_y (Main1.bird (Main1.game ls))
    /\ Main1.rotation (Main1.bird (Main1.game ls')) = 0%Q
    /\ Main1.position_x (Main1.bird (Main1.game ls'))
       = Main1.position_x (Main1.bird (Main1.game ls))
    /\ Main1.pipes (Main1.game ls') = Main1.pipes (Main1.game ls)
    /\ Main1.pipe_spawn_timer (Main1.game ls')
       = Main1.pipe_spawn_timer (Main1.game ls)
    /\ Main1.score (Main1.game ls') = Main1.score (Main1.game ls)
    /\ Main1.high_score (Main1.game ls') = Main1.high_score (Main1.game ls)
    /\ Main1.sound_log (Main1.world (Main1.game ls'))
       = Main1.sound_log (Main1.world (Main1.game ls)).
Proof.
  intros sin dt_ms events ls ls' Hst Hev Hrun.
  unfold Main1.run_iteration in Hrun.
  pose proof (main1_poll_no_flap events ls Hev) as Hg.
  remember (Main1.poll_events events ls) as ls1 eqn:E1. clear E1.
  cbn [Main1.game Main1.update_base Main1.set_scene Main1.state] in Hrun.
  rewrite Hg, Hst in Hrun.
  unfold Main1.welcome_tick in Hrun. cbn [Main1.game] in Hrun.
  apply bind_Ok in Hrun. destruct Hrun as [b [Hb Hrun]].
  apply main1_update_idle in Hb. cbn in Hb.
  destruct Hb as [Hv [Hx [Hr _]]].
  injection Hrun as <-. cbn. repeat split; auto.
Qed.

Lemma main1_welcome_idles_witness :
  exists ls',
    Main1.run_iteration Sample.no_sin 16 [OTHER_EVENT] main1_first_loop = Ok ls'
    /\ Main1.state (Main1.game ls') = WELCOME
    /\ Main1.velocity_y (Main1.bird (Main1.game ls')) = 0%Q.
Proof.
  destruct (Main1.run_iteration Sample.no_sin 16 [OTHER_EVENT] main1_first_loop)
    as [ls'|e] eqn:E; [|vm_compute in E; discriminate].
  exists ls'. split; [reflexivity|].
  destruct (main1_welcome_idles Sample.no_sin 16 [OTHER_EVENT]
              main1_first_loop ls') as [Hst [Hv _]].
  - reflexivity.
  - unfold flap_input. repeat constructor; intros [H|[H|H]]; discriminate.
  - exact E.
  - split; [exact Hst|]. rewrite Hv. reflexivity.
Defined.

(** ** Collision geometry *)

Lemma main1_rect_of_image (b : Main1.Bird) (img : Surface) :
  Main1.image b = Ok img ->
  Main1.rect b
  = Ok (mkRect (py_int (Main1.position_x b) + 4) (py_int (Main1.position_y b) + 4)
               (get_width img - 8) (get_height img - 8)).
Proof.
  intro H. unfold Main1.rect. rewrite H. cbn [bind]. unfold inflate_ip.
  cbn [rect_x rect_y rect_w rect_h].
  change (Z.quot (-8) 2) with (-4).
  replace (py_int (Main1.position_x b) - -4)
    with (py_int (Main1.position_x b) + 4) by lia.
  replace (py_int (Main1.position_y b) - -4)
    with (py_int (Main1.position_y b) + 4) by lia.
  reflexivity.
Qed.

(** X9.  Ground and ceiling in [main1.py], in terms of the sprite.  With
    the hitbox shrunk by 4 on each side and the ground tolerance of 5, the
    bird is in contact as soon as the bottom of its sprite,
    [int(position_y) + height], is within 1 of [base_y] (both bounds
    included), or the top of its sprite is 4 or more above the screen; this
    holds whatever the pipes, and without pipes nothing else is a
    contact. *)
Theorem main1_ground_and_ceiling_contact :
  forall (g : Main1.Game) (img : Surface),
    Main1.image (Main1.bird g) = Ok img ->
    let sprite_top := py_int (Main1.position_y (Main1.bird g)) in
    let sprite_bottom := sprite_top + get_height img in
    (Main1.base_y (Main1.config g) - 1 <= sprite_bottom \/ sprite_top <= -4 ->
     Main1.check_collisions g = Ok true)
    /\ (Main1.pipes g = [] ->
        Main1.check_collisions g = Ok true ->
        Main1.base_y (Main1.config g) - 1 <= sprite_bottom \/ sprite_top <= -4).
Proof.
  intros g img Himg sprite_top sprite_bottom.
  unfold Main1.check_collisions.
  rewrite (main1_rect_of_image _ _ Himg). cbn [bind].
  unfold rect_bottom, rect_top. cbn [rect_x rect_y rect_w rect_h].
  fold sprite_top.
  destruct (sprite_top + 4 + (get_height img - 8)
            >=? Main1.base_y (Main1.config g) - 5) eqn:G.
  - apply Z.geb_le in G. split; [reflexivity|].
    intros _ _. left. unfold sprite_bottom. lia.
  - rewrite Z.geb_leb in G. apply Z.leb_gt in G.
    destruct (sprite_top + 4 <=? 0) eqn:C.
    + apply Z.leb_le in C. split; [reflexivity|]. intros _ _. right. lia.
    + apply Z.leb_gt in C. split.
      * intros [H|H]; [unfold sprite_bottom in H|]; lia.
      * intros Hp Hc. rewrite Hp in Hc. cbn in Hc. discriminate.
Qed.

Lemma main1_ground_and_ceiling_contact_witness :
  Main1.check_collisions
    (Main1.set_bird
       (Main1.set_motion 375 0 0 0 Sample.main1_bird) Sample.main1_two_pipes)
  = Ok true.
Proof.
  apply (main1_ground_and_ceiling_contact
           (Main1.set_bird
              (Main1.set_motion 375 0 0 0 Sample.main1_bird)
              Sample.main1_two_pipes)
           Sample.bird_frame eq_refl).
  left. vm_compute. discriminate.
Defined.

(** X10.  The gap is passable.  In [main1.py] a bird rectangle of
    non-negative height whose top is at or below the upper edge of the gap
    and whose bottom is at or above the lower edge touches neither pipe of
    the pair, wherever it is horizontally. *)
Theorem main1_gap_is_passable :
  forall (r : Rect) (p : Main1.PipePair),
    0 <= rect_h r ->
    0 <= get_height (Main1.pipe_image p) ->
    Main1.top_height p <= rect_top r ->
    rect_bottom r <= Main1.bottom_top p ->
    Main1.hits_pipe r p = false.
Proof.
  intros r p Hh HH Htop Hbot.
  unfold Main1.hits_pipe, Main1.rects, inflate_ip, colliderect.
  unfold rect_top, rect_bottom in *.
  cbn [rect_x rect_y rect_w rect_h].
  apply orb_false_iff. split.
  - destruct (_ || _ || _ || _); [reflexivity|].
    apply andb_false_iff. left. apply andb_false_iff. left.
    apply andb_false_iff. right. apply Z.ltb_ge.
    change (Z.quot 0 2) with 0. lia.
  - destruct (_ || _ || _ || _); [reflexivity|].
    apply andb_false_iff. right. rewrite Z.gtb_ltb. apply Z.ltb_ge.
    change (Z.quot 0 2) with 0. lia.
Qed.

Lemma main1_gap_is_passable_witness :
  Main1.hits_pipe (mkRect 76 200 26 16) (Sample.main1_pipe 60) = false.
Proof.
  apply main1_gap_is_passable.
  - cbn. lia.
  - cbn. lia.
  - vm_compute. discriminate.
  - vm_compute. discriminate.
Defined.

(** X11.  The rectangles of a pipe pair.  The top rectangle ends at
    [gap_y - gap_size // 2] and the bottom one starts at
    [gap_y + gap_size // 2], so the opening between them is
    [2 * (gap_size // 2)]: the full [gap_size] when that is even, one pixel
    less when it is odd.  In [main1.py] both rectangles are 4 narrower than
    the image and start 2 right of [int(x)]; in [mian.py] they are the image
    boxes. *)
Theorem pipe_rects_opening :
  (forall (p : Main1.PipePair),
      let (top_rect, bottom_rect) := Main1.rects p in
      rect_bottom top_rect = Main1.top_height p
      /\ rect_top bottom_rect = Main1.bottom_top p
      /\ rect_top bottom_rect - rect_bottom top_rect = 2 * (Main1.gap_size p / 2)
      /\ Main1.gap_size p - 1 <= rect_top bottom_rect - rect_bottom top_rect
         <= Main1.gap_size p
      /\ rect_left top_rect = py_int (Main1.x p) + 2
      /\ rect_left bottom_rect = py_int (Main1.x p) + 2
      /\ rect_w top_rect = Main1.width p - 4
      /\ rect_w bottom_rect = Main1.width p - 4)
  /\
  (forall (p : Mian.PipePair),
      let (top_rect, bottom_rect) := Mian.rects p in
      rect_bottom top_rect = Mian.top_height p
      /\ rect_top bottom_rect = Mian.bottom_top p
      /\ rect_top bottom_rect - rect_bottom top_rect = 2 * (Mian.gap_size p / 2)
      /\ Mian.gap_size p - 1 <= rect_top bottom_rect - rect_bottom top_rect
         <= Mian.gap_size p
      /\ rect_left top_rect = py_int (Mian.x p)
      /\ rect_left bottom_rect = py_int (Mian.x p)
      /\ rect_w top_rect = Mian.width p
      /\ rect_w bottom_rect = Mian.width p).
Proof.
  split; intro p.
  - unfold Main1.rects, inflate_ip, rect_bottom, rect_top, rect_left,
      Main1.top_height, Main1.bottom_top.
    cbn [rect_x rect_y rect_w rect_h].
    change (Z.quot 0 2) with 0. change (Z.quot (-4) 2) with (-2).
    pose proof (Z.div_mod (Main1.gap_size p) 2 ltac:(lia)).
    pose proof (Z.mod_pos_bound (Main1.gap_size p) 2 ltac:(lia)).
    repeat split; lia.
  - unfold Mian.rects, rect_bottom, rect_top, rect_left,
      Mian.top_height, Mian.bottom_top.
    cbn [rect_x rect_y rect_w rect_h].
    pose proof (Z.div_mod (Mian.gap_size p) 2 ltac:(lia)).
    pose proof (Z.mod_pos_bound (Mian.gap_size p) 2 ltac:(lia)).
    repeat split; lia.
Qed.

(** X12.  Hitbox against drawing in [main1.py].  [PipePair.draw] blits
    both pipe images 2 left of [int(x)], at the tops of the two hit
    rectangles; the hit rectangles therefore start 4 right of the drawn
    image and end exactly at its right edge: the forgiving margin is all on
    the side the bird comes from. *)
Theorem main1_hitbox_inside_drawn_pipe :
  forall (p : Main1.PipePair),
    let (top_rect, bottom_rect) := Main1.rects p in
    let (draw_top, draw_bottom) := main1_pipe_draw p in
    fst draw_top = py_int (Main1.x p) - 2
    /\ fst draw_bottom = py_int (Main1.x p) - 2
    /\ snd draw_top = rect_top top_rect
    /\ snd draw_bottom = rect_top bottom_rect
    /\ rect_left top_rect = fst draw_top + 4
    /\ rect_right top_rect = fst draw_top + Main1.width p
    /\ rect_left bottom_rect = fst draw_bottom + 4
    /\ rect_right bottom_rect = fst draw_bottom + Main1.width p.
Proof.
  intro p. unfold main1_pipe_draw, Main1.rects, inflate_ip, rect_left,
    rect_right, rect_top.
  cbn [rect_x rect_y rect_w rect_h fst snd].
  change (Z.quot (-4) 2) with (-2). repeat split; lia.
Qed.

(** ** Ground scroll, frames, file text *)

(** X13.  The ground offset stays in its window.  Starting from an offset
    that is not positive and scrolling by a non-negative amount,
    [update_base] leaves [base_x] not positive and either at 0 or strictly
    right of [-(base_width - screen_width)], the point where it wraps; the
    same code runs in both files. *)
Theorem ground_offset_stays_in_window :
  (forall (g : Main1.Game) (dt : Q),
      (Main1.base_x (Main1.scene g) <= 0)%Q ->
      (0 <= Main1.base_speed (Main1.config g) * dt)%Q ->
      let bx := Main1.base_x (Main1.scene (Main1.update_base dt g)) in
      (bx <= 0)%Q
      /\ (bx = 0%Q
          \/ (inject_Z (- (get_width (Main1.base (Main1.config g))
                           - Main1.screen_width (Main1.config g))) < bx)%Q))
  /\
  (forall (g : Mian.Game) (dt : Q),
      (Mian.base_x (Mian.scene g) <= 0)%Q ->
      (0 <= Mian.base_speed (Mian.config g) * dt)%Q ->
      let bx := Mian.base_x (Mian.scene (Mian.update_base dt g)) in
      (bx <= 0)%Q
      /\ (bx = 0%Q
          \/ (inject_Z (- (get_width (Mian.base (Mian.config g))
                           - Mian.screen_width (Mian.config g))) < bx)%Q)).
Proof.
  assert (forall a s lim : Q,
             (a <= 0)%Q -> (0 <= s)%Q ->
             let bx := if Qle_bool (a - s) lim then 0%Q else (a - s)%Q in
             (bx <= 0)%Q /\ (bx = 0%Q \/ (lim < bx)%Q)) as Hcore.
  { intros a s lim Ha Hs. cbv zeta.
    destruct (Qle_bool (a - s) lim) eqn:E.
    - split; [apply Qle_refl | left; reflexivity].
    - split.
      + apply Qle_trans with (y := a); [|exact Ha].
        rewrite <- (Qplus_0_r a) at 2. unfold Qminus.
        apply Qplus_le_r. apply (Qopp_le_compat 0 s) in Hs. exact Hs.
      + right. apply Qnot_le_lt. intro Hle.
        apply Qle_bool_iff in Hle. congruence. }
  split; intros g dt Ha Hs; cbn; apply Hcore; assumption.
Qed.

Lemma ground_offset_stays_in_window_witness :
  (Main1.base_x (Main1.scene (Main1.update_base (1 # 3) Sample.main1_game)) <= 0)%Q
  /\ (Mian.base_x (Mian.scene (Mian.update_base (1 # 3) Sample.mian_game)) <= 0)%Q.
Proof.
  destruct ground_offset_stays_in_window as [H1 H2]. split.
  - apply (H1 Sample.main1_game (1 # 3)); vm_compute; discriminate.
  - apply (H2 Sample.mian_game (1 # 3)); vm_compute; discriminate.
Defined.

Lemma nth_mod_In (l : list Surface) (i : Z) :
  l <> [] ->
  In (nth (Z.to_nat (i mod Z.of_nat (List.length l))) l (mkSurface 0 0)) l.
Proof.
  intro Hl. apply nth_In.
  assert (0 < Z.of_nat (List.length l)) as Hpos.
  { destruct l; [congruence | cbn [List.length]; lia]. }
  pose proof (Z.mod_pos_bound i _ Hpos). lia.
Qed.

(** X14.  [Bird.image] always finds a frame.  For any animation index,
    negative ones included, the image of a bird with at least one frame is
    one of its frames; with no frame at all, [image] and [rect] raise
    [ZeroDivisionError].  Both files. *)
Theorem bird_image_is_a_frame :
  (forall (b : Main1.Bird),
      (Main1.frames b <> [] ->
       exists img, Main1.image b = Ok img /\ In img (Main1.frames b))
      /\ (Main1.frames b = [] ->
          Main1.image b = Raise ZeroDivisionError
          /\ Main1.rect b = Raise ZeroDivisionError))
  /\
  (forall (b : Mian.Bird),
      (Mian.frames b <> [] ->
       exists img, Mian.image b = Ok img /\ In img (Mian.frames b))
      /\ (Mian.frames b = [] ->
          Mian.image b = Raise ZeroDivisionError
          /\ Mian.rect b = Raise ZeroDivisionError)).
Proof.
  split; intro b; split.
  - intro Hf. unfold Main1.image, Main1.len_frames.
    rewrite py_mod_Ok
      by (destruct (Main1.frames b); [congruence | cbn [List.length]; lia]).
    cbn [bind]. eexists. split; [reflexivity|]. apply nth_mod_In. exact Hf.
  - intro Hf. unfold Main1.rect, Main1.image, Main1.len_frames.
    rewrite Hf. split; reflexivity.
  - intro Hf. unfold Mian.image, Mian.len_frames.
    rewrite py_mod_Ok
      by (destruct (Mian.frames b); [congruence | cbn [List.length]; lia]).
    cbn [bind]. eexists. split; [reflexivity|]. apply nth_mod_In. exact Hf.
  - intro Hf. unfold Mian.rect, Mian.image, Mian.len_frames.
    rewrite Hf. split; reflexivity.
Qed.

Lemma bird_image_is_a_frame_witness :
  (exists img,
      Main1.image (Main1.set_animation (-1) 0 Sample.main1_bird) = Ok img
      /\ In img (Main1.frames (Main1.set_animation (-1) 0 Sample.main1_bird)))
  /\ Mian.rect (Mian.mkBird [] 0 0 (8 # 100) 48 256 0 0 false)
     = Raise ZeroDivisionError.
Proof.
  destruct bird_image_is_a_frame as [H1 H2]. split.
  - apply (H1 (Main1.set_animation (-1) 0 Sample.main1_bird)). discriminate.
  - apply (H2 (Mian.mkBird [] 0 0 (8 # 100) 48 256 0 0 false)). reflexivity.
Defined.

Lemma lstrip_spaces (l t : text) :
  Forall (fun c => is_space c = true) l -> lstrip (l ++ t) = lstrip t.
Proof.
  intro H. induction H as [|c l Hc Hl IH]; [reflexivity|].
  cbn [app lstrip]. rewrite Hc. exact IH.
Qed.

Lemma lstrip_plain_app (s t : text) :
  plain s -> s <> [] -> lstrip (s ++ t) = s ++ t.
Proof.
  intros H Hne. destruct H as [|c r Hc Hr]; [congruence|].
  cbn [app lstrip]. rewrite Hc. reflexivity.
Qed.

Lemma strip_padded (l s r : text) :
  plain s -> s <> [] ->
  Forall (fun c => is_space c = true) l ->
  Forall (fun c => is_space c = true) r ->
  strip (l ++ s ++ r) = s.
Proof.
  intros Hs Hne Hl Hr. unfold strip, rstrip.
  rewrite (lstrip_spaces l _ Hl), (lstrip_plain_app s r Hs Hne).
  rewrite rev_app_distr.
  rewrite (lstrip_spaces (rev r)) by (apply Forall_rev; exact Hr).
  rewrite lstrip_plain by (unfold plain; apply Forall_rev; exact Hs).
  apply rev_involutive.
Qed.

Lemma py_str_plain (n : Z) : plain (py_str n) /\ py_str n <> [].
Proof.
  unfold py_str. destruct (n <? 0) eqn:E.
  - apply Z.ltb_lt in E. split; [|discriminate].
    constructor; [reflexivity | apply digits_of_plain; lia].
  - apply Z.ltb_ge in E. split; [apply digits_of_plain; exact E|].
    destruct (digits_of_head n E) as [c [r [d [-> _]]]]. discriminate.
Qed.

(** X15.  Loading tolerates padding.  A [highscore.txt] that holds the
    decimal text of a number between any leading and trailing whitespace,
    such as a final newline, loads as that number. *)
Theorem load_ignores_surrounding_whitespace :
  forall (n : Z) (l r : text) (w : bool),
    Forall (fun c => is_space c = true) l ->
    Forall (fun c => is_space c = true) r ->
    Main1._load_high_score (mkFileStore (Some (l ++ py_str n ++ r)) w) = n.
Proof.
  intros n l r w Hl Hr. unfold Main1._load_high_score. cbn [file_text].
  destruct (py_str_plain n) as [Hp Hne].
  rewrite (strip_padded l (py_str n) r Hp Hne Hl Hr).
  rewrite <- (strip_plain (py_str n) Hp) at 1.
  rewrite int_of_text_py_str. reflexivity.
Qed.

Lemma load_ignores_surrounding_whitespace_witness :
  Main1._load_high_score
    (mkFileStore (Some ([" "; " "] ++ py_str 57 ++ ["010"])%char) true) = 57.
Proof.
  apply load_ignores_surrounding_whitespace; repeat constructor.
Defined.

(** ** Rotation, spawn timer and pruning *)

Lemma py_max_cases (a b : Q) :
  (py_max a b = b /\ (a < b)%Q) \/ (py_max a b = a /\ (b <= a)%Q).
Proof.
  unfold py_max. destruct (Qltb a b) eqn:E.
  - left. split; [reflexivity | apply Qltb_true; exact E].
  - right. split; [reflexivity | apply Qltb_false; exact E].
Qed.

Lemma mian_integrate_rotation (b : Mian.Bird) (dt gravity cap rd : Q) :
  (-90 <= Mian.rotation b <= 45)%Q -> (0 <= rd * dt)%Q ->
  (-90 <= Mian.rotation (Mian.integrate b dt gravity cap rd) <= 45)%Q.
Proof.
  intros Hr Hs. unfold Mian.integrate. cbn [Mian.set_motion Mian.rotation].
  destruct (Qltb _ 0); [lra|].
  destruct (Qltb (-90) (Mian.rotation b)) eqn:E; [|exact Hr].
  destruct (py_max_cases (-90) (Mian.rotation b - rd * dt)) as [[-> H]|[-> H]];
    lra.
Qed.

Lemma mian_animate_rotation (b b1 : Mian.Bird) (dt : Q) :
  Mian.animate b dt = Ok b1 -> Mian.rotation b1 = Mian.rotation b.
Proof.
  unfold Mian.animate, Mian.update_animation.
  destruct (Mian.dead b).
  - intro H. injection H as <-. reflexivity.
  - destruct (Qle_bool _ _).
    + intro H. apply bind_Ok in H. destruct H as [i [_ H]].
      injection H as <-. reflexivity.
    + intro H. injection H as <-. reflexivity.
Qed.

(** X16.  The rotation of [mian.py] stays between -90 and 45 degrees.
    Starting in that range, which the fresh bird's 0 is in, any script of
    flaps and ticks whose rotation steps are not negative ends in that
    range: a rising bird and a flap snap to 45, a falling bird turns down
    but never below -90. *)
Theorem mian_rotation_stays_in_range :
  forall acts (b b' : Mian.Bird),
    Forall mian_turns_down acts ->
    (-90 <= Mian.rotation b <= 45)%Q ->
    MianScript.play_actions acts b = Ok b' ->
    (-90 <= Mian.rotation b' <= 45)%Q.
Proof.
  induction acts as [|a acts IH]; intros b b' Hacts Hr Hrun.
  - injection Hrun as <-. exact Hr.
  - inversion Hacts as [|? ? Ha Hrest]; subst.
    cbn [MianScript.play_actions] in Hrun.
    apply bind_Ok in Hrun. destruct Hrun as [b1 [H1 Hrun]].
    apply (IH b1 b' Hrest); [|exact Hrun].
    destruct a as [dt gravity cap rd | impulse]; cbn in H1, Ha.
    + unfold Mian.update in H1. apply bind_Ok in H1.
      destruct H1 as [b0 [H0 H1]]. injection H1 as <-.
      apply mian_integrate_rotation; [|exact Ha].
      rewrite (mian_animate_rotation _ _ _ H0). exact Hr.
    + injection H1 as <-. unfold Mian.flap.
      destruct (negb (Mian.dead b)); [cbn; lra | exact Hr].
Qed.

Lemma mian_rotation_stays_in_range_witness :
  exists b',
    MianScript.play_actions
      [MianScript.Flap 350; MianScript.Tick 1 1800 600 250;
       MianScript.Tick 1 1800 600 250] Sample.mian_bird = Ok b'
    /\ (-90 <= Mian.rotation b' <= 45)%Q.
Proof.
  destruct (MianScript.play_actions
              [MianScript.Flap 350; MianScript.Tick 1 1800 600 250;
               MianScript.Tick 1 1800 600 250] Sample.mian_bird)
    as [b'|e] eqn:E; [|vm_compute in E; discriminate].
  exists b'. split; [reflexivity|].
  eapply mian_rotation_stays_in_range; [| |exact E].
  - constructor; [exact I|].
    constructor; [vm_compute; discriminate|].
    constructor; [vm_compute; discriminate|]. constructor.
  - split; vm_compute; discriminate.
Defined.

Lemma mark_keeps_position bx (p : Main1.PipePair) :
  Main1.x (mark bx p) = Main1.x p /\ Main1.width (mark bx p) = Main1.width p.
Proof. unfold mark. destruct (Main1.crossing bx p); split; reflexivity. Qed.

Lemma main1_update_score_timer (g : Main1.Game) :
  Main1.pipe_spawn_timer (Main1.update_score g) = Main1.pipe_spawn_timer g.
Proof.
  unfold Main1.update_score.
  assert (forall ps g0, Main1.pipe_spawn_timer (snd (Main1.score_pipes ps g0))
                        = Main1.pipe_spawn_timer g0) as Hloop.
  { induction ps as [|q ps IHps]; intro g0; [reflexivity|].
    cbn [Main1.score_pipes]. destruct (Main1.crossing _ q).
    - specialize (IHps (Main1.add_point g0)).
      destruct (Main1.score_pipes ps (Main1.add_point g0)). cbn [snd] in *.
      rewrite IHps. unfold Main1.add_point. cbn.
      destruct (_ >? _); reflexivity.
    - specialize (IHps g0). destruct (Main1.score_pipes ps g0). exact IHps. }
  specialize (Hloop (Main1.pipes g) g).
  destruct (Main1.score_pipes (Main1.pipes g) g). exact Hloop.
Qed.

Lemma main1_playing_tick_shape sin dt (ls ls' : Main1.LoopState) :
  Main1.playing_tick sin dt ls = Ok ls' ->
  exists b g2 bx,
    Main1.spawn_on_timer dt (Main1.set_bird b (Main1.game ls)) = Ok g2
    /\ Main1.pipes (Main1.game ls')
       = map (mark bx)
             (filter Main1.on_screen
                     (map (Main1.PipePair_update dt) (Main1.pipes g2)))
    /\ Main1.pipe_spawn_timer (Main1.game ls') = Main1.pipe_spawn_timer g2.
Proof.
  intro Hrun. unfold Main1.playing_tick, Main1.playing_advance in Hrun.
  apply bind_Ok in Hrun. destruct Hrun as [g1 [Hadv Hrun]].
  apply bind_Ok in Hadv. destruct Hadv as [b [_ Hadv]].
  apply bind_Ok in Hadv. destruct Hadv as [g2 [Hsp Hadv]].
  injection Hadv as <-.
  apply bind_Ok in Hrun. destruct Hrun as [collided [_ Hrun]].
  injection Hrun as <-. exists b, g2.
  destruct collided; cbn [Main1.game].
  - destruct (main1_update_score_spec
                (Main1.game_over (Main1.prune_pipes (Main1.move_pipes dt g2))))
      as [Hps _].
    eexists. split; [exact Hsp|]. split; [exact Hps|].
    rewrite main1_update_score_timer. reflexivity.
  - destruct (main1_update_score_spec
                (Main1.prune_pipes (Main1.move_pipes dt g2))) as [Hps _].
    eexists. split; [exact Hsp|]. split; [exact Hps|].
    rewrite main1_update_score_timer. reflexivity.
Qed.

(** X17.  One [PLAYING] iteration of [main1.py] adds at most one pipe to
    the collection; every pipe it keeps still has its right edge right of
    -50, scored or not; and the spawn timer ends either reset to 0 or
    strictly below the spawn interval. *)
Theorem main1_playing_tick_pipes :
  forall sin dt (ls ls' : Main1.LoopState),
    Main1.playing_tick sin dt ls = Ok ls' ->
    (List.length (Main1.pipes (Main1.game ls'))
     <= List.length (Main1.pipes (Main1.game ls)) + 1)%nat
    /\ Forall (fun p => (-50 < Main1.x p + inject_Z (Main1.width p))%Q)
              (Main1.pipes (Main1.game ls'))
    /\ (Main1.pipe_spawn_timer (Main1.game ls') = 0%Q
        \/ (Main1.pipe_spawn_timer (Main1.game ls')
            < Main1.pipe_spawn_interval (Main1.config (Main1.game ls)))%Q).
Proof.
  intros sin dt ls ls' Hrun.
  destruct (main1_playing_tick_shape _ _ _ _ Hrun) as [b [g2 [bx [Hsp [Hp Ht]]]]].
  rewrite Hp, Ht. clear Hp Ht Hrun.
  assert ((List.length (Main1.pipes g2)
           <= List.length (Main1.pipes (Main1.game ls)) + 1)%nat
          /\ (Main1.pipe_spawn_timer g2 = 0%Q
              \/ (Main1.pipe_spawn_timer g2
                  < Main1.pipe_spawn_interval (Main1.config (Main1.game ls)))%Q))
    as [Hlen Htimer].
  { unfold Main1.spawn_on_timer in Hsp.
    cbn [Main1.set_bird Main1.pipe_spawn_timer Main1.config] in Hsp.
    destruct (Qle_bool _ _) eqn:E.
    - unfold Main1.spawn_pipe in Hsp.
      apply bind_Ok in Hsp. destruct Hsp as [gap [_ Hsp]].
      apply bind_Ok in Hsp. destruct Hsp as [[v r'] [_ Hsp]].
      injection Hsp as <-. cbn. rewrite length_app. cbn.
      split; [lia | left; reflexivity].
    - injection Hsp as <-. cbn. split; [lia|]. right.
      apply Qnot_le_lt. intro Hle. apply Qle_bool_iff in Hle. congruence. }
  split; [|split; [|exact Htimer]].
  - rewrite length_map.
    pose proof (filter_length_le Main1.on_screen
                  (map (Main1.PipePair_update dt) (Main1.pipes g2))) as Hf.
    rewrite length_map in Hf. lia.
  - apply Forall_forall. intros p Hin. apply in_map_iff in Hin.
    destruct Hin as [q [<- Hq]]. apply filter_In in Hq. destruct Hq as [_ Hq].
    destruct (mark_keeps_position bx q) as [-> ->].
    unfold Main1.on_screen in Hq. apply Qltb_true in Hq. exact Hq.
Qed.

Lemma main1_playing_tick_pipes_witness :
  exists ls',
    Main1.playing_tick Sample.no_sin (16 # 1000) Sample.main1_collision = Ok ls'
    /\ (List.length (Main1.pipes (Main1.game ls')) <= 3)%nat.
Proof.
  destruct (Main1.playing_tick Sample.no_sin (16 # 1000) Sample.main1_collision)
    as [ls'|e] eqn:E; [|vm_compute in E; discriminate].
  exists ls'. split; [reflexivity|].
  destruct (main1_playing_tick_pipes _ _ _ _ E) as [Hlen _].
  exact Hlen.
Defined.

(** ** The digits of the score display *)

Lemma digit_value_range (c : ascii) (d : Z) :
  digit_value c = Some d -> 0 <= d <= 9.
Proof.
  unfold digit_value. generalize (Z.of_nat (nat_of_ascii c)). intros n H.
  destruct ((48 <=? n) && (n <=? 57)) eqn:E; [|discriminate].
  injection H as <-. apply andb_true_iff in E. destruct E as [E1 E2].
  apply Z.leb_le in E1. apply Z.leb_le in E2. lia.
Qed.

Lemma int_of_digit (c : ascii) (d : Z) :
  digit_value c = Some d -> int_of_text [c] = Ok d.
Proof.
  intro H. unfold int_of_text.
  rewrite strip_plain
    by (constructor; [exact (digit_not_space c d H) | constructor]).
  destruct (Ascii.eqb c "-") eqn:E1.
  { apply Ascii.eqb_eq in E1. subst c. discriminate. }
  destruct (Ascii.eqb c "+") eqn:E2.
  { apply Ascii.eqb_eq in E2. subst c. discriminate. }
  rewrite (parse_digits_digit c d [] 0 false H). cbn [parse_digits].
  replace (10 * 0 + d) with d by lia. reflexivity.
Qed.

Lemma digits_fuel_all_digits fuel : forall n acc,
  0 <= n ->
  Forall (fun c => digit_value c <> None) acc ->
  Forall (fun c => digit_value c <> None) (digits_fuel fuel n acc).
Proof.
  induction fuel as [|fuel IH]; intros n acc Hn Hacc; [exact Hacc|].
  cbn [digits_fuel]. destruct (n <? 10) eqn:E.
  - apply Z.ltb_lt in E. constructor; [|exact Hacc].
    rewrite digit_char_value by lia. discriminate.
  - apply IH; [apply Z.div_pos; lia|]. constructor; [|exact Hacc].
    rewrite digit_char_value by (apply Z.mod_pos_bound; lia). discriminate.
Qed.

Lemma int_each_digits (s : text) :
  Forall (fun c => digit_value c <> None) s ->
  exists ds,
    int_each s = Ok ds
    /\ List.length ds = List.length s
    /\ Forall (fun d => 0 <= d <= 9) ds
    /\ forall a, parse_digits s a true
                 = Some (fold_left (fun a d => 10 * a + d) ds a).
Proof.
  intro H. induction H as [|c r Hc Hr IH].
  - exists []. cbn. repeat split; auto.
  - destruct IH as [ds [Hrun [Hlen [Hrange Hval]]]].
    destruct (digit_value c) as [d|] eqn:E; [|congruence].
    exists (d :: ds). cbn [int_each]. rewrite (int_of_digit c d E).
    cbn [bind]. rewrite Hrun. cbn [bind].
    split; [reflexivity|]. split; [cbn; lia|].
    split; [constructor; [exact (digit_value_range c d E) | exact Hrange]|].
    intro a. rewrite (parse_digits_digit c d r a true E). cbn [fold_left].
    apply Hval.
Qed.

(** X18.  The digits of the score display.  For a score that is not
    negative, [[int(d) for d in str(score)]] returns at least one digit,
    every digit is between 0 and 9, so within the ten digit sprites, and
    read in base ten the digits give the score back.  For a negative number
    the comprehension raises [ValueError] on the sign.  In every state that
    the loop of [main1.py] reaches, the score has its digits. *)
Theorem score_display_digits :
  (forall (n : Z),
      0 <= n ->
      exists ds,
        score_digits n = Ok ds
        /\ ds <> []
        /\ Forall (fun d => 0 <= d <= 9) ds
        /\ fold_left (fun a d => 10 * a + d) ds 0 = n)
  /\ (forall (n : Z), n < 0 -> score_digits n = Raise ValueError)
  /\ (forall sin (ls : Main1.LoopState),
        main1_reachable sin ls ->
        exists ds, score_digits (Main1.score (Main1.game ls)) = Ok ds).
Proof.
  assert (forall n, 0 <= n ->
            exists ds,
              score_digits n = Ok ds /\ ds <> []
              /\ Forall (fun d => 0 <= d <= 9) ds
              /\ fold_left (fun a d => 10 * a + d) ds 0 = n) as Hpos.
  { intros n Hn. unfold score_digits, py_str.
    assert ((n <? 0) = false) as -> by (apply Z.ltb_ge; exact Hn).
    assert (Forall (fun c => digit_value c <> None) (digits_of n)) as Hall.
    { apply digits_fuel_all_digits; [exact Hn | constructor]. }
    destruct (int_each_digits _ Hall) as [ds [Hrun [Hlen [Hrange Hval]]]].
    exists ds. split; [exact Hrun|].
    pose proof (digits_of_parse n Hn) as Hp.
    destruct (digits_of_head n Hn) as [c [r [d [Hd Hc]]]].
    rewrite Hd in Hlen, Hp, Hval.
    split; [destruct ds; [discriminate | discriminate]|].
    split; [exact Hrange|].
    specialize (Hval 0).
    rewrite (parse_digits_digit c d r 0 true Hc) in Hval.
    rewrite (parse_digits_digit c d r 0 false Hc) in Hp.
    rewrite Hp in Hval. injection Hval as Hval. symmetry. exact Hval. }
  split; [exact Hpos|]. split.
  - intros n Hn. unfold score_digits, py_str.
    apply Z.ltb_lt in Hn. rewrite Hn. reflexivity.
  - intros sin ls Hreach.
    destruct (main1_reachable_score_between sin ls Hreach) as [H0 _].
    destruct (Hpos _ H0) as [ds [Hds _]]. exists ds. exact Hds.
Qed.

Lemma score_display_digits_witness :
  (exists ds, score_digits 1234 = Ok ds
              /\ fold_left (fun a d => 10 * a + d) ds 0 = 1234)
  /\ score_digits (-5) = Raise ValueError
  /\ (exists ds, score_digits (Main1.score (Main1.game main1_played)) = Ok ds).
Proof.
  destruct score_display_digits as [Hpos [Hneg Hreach]].
  split; [|split].
  - destruct (Hpos 1234 ltac:(lia)) as [ds [Hds [_ [_ Hval]]]].
    exists ds. split; assumption.
  - apply Hneg. lia.
  - apply (Hreach Sample.no_sin).
    apply (reach_iteration _ main1_first_loop _ 2000 [KEYDOWN K_SPACE]).
    + apply reach_init.
    + vm_compute. reflexivity.
Defined.

(** ** Invariants of [Game.run] in [mian.py] *)

Section MianInvariant.

Variable P : Mian.Game -> Prop.

Hypothesis P_input : forall g e, P g -> P (Mian.handle_input g e).
Hypothesis P_base : forall g dt, P g -> P (Mian.update_base dt g).
Hypothesis P_bird : forall g b, P g -> P (Mian.set_bird b g).
Hypothesis P_spawn :
  forall sin now g g' dt,
    P g -> Mian.spawn_on_timer sin now dt g = Ok g' -> P g'.
Hypothesis P_move :
  forall g dt, P g -> P (Mian.prune_pipes (Mian.move_pipes dt g)).
Hypothesis P_over : forall g, P g -> P (Mian.game_over g).
Hypothesis P_score : forall g g', P g -> Mian.update_score g = Ok g' -> P g'.
Hypothesis P_play : forall g snd, P g -> P (Mian.play snd g).

Lemma mian_poll_events_keeps events : forall (ls : Mian.LoopState),
  P (Mian.game ls) -> P (Mian.game (Mian.poll_events events ls)).
Proof.
  induction events as [|e events IH]; intros ls H; [exact H|].
  cbn [Mian.poll_events]. apply IH.
  destruct e as [|k|button|]; cbn [Mian.game]; auto.
Qed.

Lemma mian_run_iteration_keeps sin mask_hit now dt_ms events
    (ls ls' : Mian.LoopState) :
  P (Mian.game ls) ->
  Mian.run_iteration sin mask_hit now dt_ms events ls = Ok ls' ->
  P (Mian.game ls').
Proof.
  intros H Hrun. apply (mian_poll_events_keeps events) in H.
  unfold Mian.run_iteration in Hrun.
  remember (Mian.poll_events events ls) as ls1 eqn:E1. clear E1.
  remember (inject_Z dt_ms / 1000)%Q as dt eqn:Edt. clear Edt.
  apply bind_Ok in Hrun. destruct Hrun as [g1 [Hbird Hrun]].
  assert (P g1) as H1.
  { unfold Mian.advance_bird in Hbird. destruct (Mian.state (Mian.game ls1)).
    - apply bind_Ok in Hbird. destruct Hbird as [b [_ Hbird]].
      injection Hbird as <-. auto.
    - apply bind_Ok in Hbird. destruct Hbird as [b [_ Hbird]].
      injection Hbird as <-. auto.
    - injection Hbird as <-. exact H. }
  destruct (Mian.state g1).
  - injection Hrun as <-. exact H1.
  - unfold Mian.playing_tick, Mian.playing_advance in Hrun.
    cbn [Mian.game] in Hrun.
    apply bind_Ok in Hrun. destruct Hrun as [g2 [Hadv Hrun]].
    apply bind_Ok in Hadv. destruct Hadv as [g3 [Hsp Hadv]].
    injection Hadv as <-.
    apply bind_Ok in Hrun. destruct Hrun as [collided [_ Hrun]].
    apply bind_Ok in Hrun. destruct Hrun as [g4 [Hsc Hrun]].
    injection Hrun as <-. cbn [Mian.game].
    assert (P (Mian.prune_pipes (Mian.move_pipes dt g3))) as H2.
    { apply P_move. eapply P_spawn; [exact H1 | exact Hsp]. }
    destruct collided; cbn [Mian.game] in Hsc;
      (eapply P_score; [|exact Hsc]); auto.
  - unfold Mian.game_over_tick in Hrun.
    cbn [Mian.game Mian.death_sound_played Mian.running] in Hrun.
    apply bind_Ok in Hrun. destruct Hrun as [b [_ Hrun]].
    destruct (negb (Mian.death_sound_played ls1)).
    + apply bind_Ok in Hrun. destruct Hrun as [r [_ Hrun]].
      destruct (rect_bottom r >=? _); injection Hrun as <-;
        cbn [Mian.game]; auto.
    + injection Hrun as <-. cbn [Mian.game]. auto.
Qed.

Hypothesis P_init : forall sp w, P (Mian.Game_init sp w).

Lemma mian_reachable_keeps sin mask_hit (ls : Mian.LoopState) :
  mian_reachable sin mask_hit ls -> P (Mian.game ls).
Proof.
  induction 1 as [sp w | ls ls' now_ms dt_ms events _ IH Hrun].
  - apply P_init.
  - exact (mian_run_iteration_keeps _ _ _ _ _ _ _ IH Hrun).
Qed.

End MianInvariant.

Lemma mian_handle_input_scores (g : Mian.Game) (e : Event) :
  Mian.high_score (Mian.handle_input g e) = Mian.high_score g
  /\ (Mian.score (Mian.handle_input g e) = Mian.score g
      \/ Mian.score (Mian.handle_input g e) = 0).
Proof.
  assert (Mian.high_score (Mian.on_flap g) = Mian.high_score g
          /\ (Mian.score (Mian.on_flap g) = Mian.score g
              \/ Mian.score (Mian.on_flap g) = 0)) as Hflap.
  { unfold Mian.on_flap. destruct (Mian.state g); cbn; auto. }
  unfold Mian.handle_input.
  destruct e as [|k|button|]; try (cbn; tauto).
  - destruct k; try (cbn; tauto); exact Hflap.
  - destruct (button =? 1); [exact Hflap | cbn; tauto].
Qed.

Lemma mian_spawn_on_timer_scores sin now dt (g g' : Mian.Game) :
  Mian.spawn_on_timer sin now dt g = Ok g' ->
  Mian.score g' = Mian.score g /\ Mian.high_score g' = Mian.high_score g.
Proof.
  unfold Mian.spawn_on_timer, Mian.spawn_pipe.
  destruct (Qle_bool _ _); intro H.
  - apply bind_Ok in H. destruct H as [[v r'] [_ H]].
    injection H as <-. cbn. auto.
  - injection H as <-. cbn. auto.
Qed.

Lemma mian_score_pipes_grows ps : forall (g : Mian.Game) rg,
  Mian.score_pipes ps g = Ok rg ->
  Mian.score g <= Mian.score (snd rg)
  /\ Mian.high_score g <= Mian.high_score (snd rg).
Proof.
  induction ps as [|p ps IH]; intros g rg Hrun.
  - injection Hrun as <-. cbn. lia.
  - cbn [Mian.score_pipes] in Hrun.
    apply bind_Ok in Hrun. destruct Hrun as [c [_ Hrun]].
    destruct c; apply bind_Ok in Hrun; destruct Hrun as [rg' [Hrest Hrun]];
      injection Hrun as <-; cbn [snd].
    + destruct (IH _ _ Hrest) as [Hs Hh].
      destruct (mian_add_point_frame g) as [As [Ah _]]. lia.
    + exact (IH _ _ Hrest).
Qed.

Ltac mian_frame :=
  intros;
  cbn [Mian.update_base Mian.set_scene Mian.set_bird Mian.prune_pipes
       Mian.move_pipes Mian.set_pipes Mian.game_over Mian.play Mian.set_world
       Mian.set_state Mian.world Mian.high_score Mian.score Mian.config
       Mian.pipes Mian.state Mian.bird] in *;
  auto.

Lemma mian_reachable_score_between sin mask_hit (ls : Mian.LoopState) :
  mian_reachable sin mask_hit ls ->
  0 <= Mian.score (Mian.game ls) <= Mian.high_score (Mian.game ls).
Proof.
  intro Hreach.
  apply (mian_reachable_keeps
           (fun g => 0 <= Mian.score g <= Mian.high_score g))
    with (sin := sin) (mask_hit := mask_hit);
    try exact Hreach; try (mian_frame; fail).
  - intros g e H.
    destruct (mian_handle_input_scores g e) as [Hh [Hs|Hs]]; rewrite Hh, Hs; lia.
  - intros sin' now g g' dt H Hsp.
    destruct (mian_spawn_on_timer_scores _ _ _ _ _ Hsp) as [-> ->]. exact H.
  - intros g g' H Hsc.
    destruct (mian_update_score_Ok _ _ Hsc) as [ps [g1 [Hrun ->]]].
    cbn [Mian.set_pipes Mian.score Mian.high_score].
    pose proof (mian_score_pipes_grows _ _ _ Hrun) as [Hs _].
    pose proof (mian_score_pipes_best _ _ _ (proj2 H) Hrun) as Hb.
    cbn [snd] in Hs, Hb. lia.
  - intros sp w. unfold Mian.Game_init, choice2, next_draw. cbn. lia.
Qed.

(** X19.  In [mian.py], best is at least current at all times: in every
    state that the loop reaches from [Game.__init__], where both scores
    start at 0, the score is not negative and the high score is at least
    the score. *)
Theorem mian_score_between :
  forall sin mask_hit (ls : Mian.LoopState),
    mian_reachable sin mask_hit ls ->
    0 <= Mian.score (Mian.game ls) <= Mian.high_score (Mian.game ls).
Proof.
  intros sin mask_hit ls Hreach.
  exact (mian_reachable_score_between sin mask_hit ls Hreach).
Qed.

Lemma mian_score_between_witness :
  0 <= Mian.score (Mian.game mian_played)
  <= Mian.high_score (Mian.game mian_played)
  /\ Mian.score (Mian.game mian_played) = 1.
Proof.
  split; [|reflexivity].
  apply (mian_score_between Sample.no_sin Sample.no_mask_hit).
  apply (mian_reach_iteration _ _ mian_first_loop _ 0 2100 [KEYDOWN K_SPACE]).
  - apply mian_reach_init.
  - vm_compute. reflexivity.
Defined.

(** ** Restart and flaps in play *)

(** X20.  Restart keeps the best.  A flap input in [GAME_OVER] starts a
    fresh round: the state is [WELCOME], the score 0, the pipes gone, the
    spawn timer 0, the bird alive and at rest at its start position, while
    the high score and the configuration are kept; [main1.py] also resets
    [pipe_gap] and leaves the file alone. *)
Theorem restart_keeps_high_score :
  (forall (g : Main1.Game) (e : Event),
      Main1.state g = GAME_OVER -> flap_input e ->
      let g' := Main1.handle_input g e in
      Main1.state g' = WELCOME
      /\ Main1.score g' = 0
      /\ Main1.pipes g' = []
      /\ Main1.pipe_spawn_timer g' = 0%Q
      /\ Main1.pipe_gap g' = Main1.base_pipe_gap (Main1.config g)
      /\ Main1.high_score g' = Main1.high_score g
      /\ Main1.config g' = Main1.config g
      /\ Main1.store (Main1.world g') = Main1.store (Main1.world g)
      /\ Main1.dead (Main1.bird g') = false
      /\ Main1.velocity_y (Main1.bird g') = 0%Q
      /\ Main1.position_x (Main1.bird g')
         = inject_Z (Main1.screen_width (Main1.config g) / 4)
      /\ Main1.position_y (Main1.bird g')
         = inject_Z (Main1.screen_height (Main1.config g) / 2))
  /\
  (forall (g : Mian.Game) (e : Event),
      Mian.state g = GAME_OVER -> flap_input e ->
      let g' := Mian.handle_input g e in
      Mian.state g' = WELCOME
      /\ Mian.score g' = 0
      /\ Mian.pipes g' = []
      /\ Mian.pipe_spawn_timer g' = 0%Q
      /\ Mian.high_score g' = Mian.high_score g
      /\ Mian.config g' = Mian.config g
      /\ Mian.dead (Mian.bird g') = false
      /\ Mian.velocity_y (Mian.bird g') = 0%Q
      /\ Mian.position_x (Mian.bird g')
         = inject_Z (Mian.screen_width (Mian.config g) / 6)
      /\ Mian.position_y (Mian.bird g')
         = inject_Z (Mian.screen_height (Mian.config g) / 2)).
Proof.
  split.
  - intros g e Hs He. cbv zeta.
    assert (Main1.handle_input g e = Main1.on_flap g) as ->.
    { destruct He as [-> | [-> | ->]]; reflexivity. }
    unfold Main1.on_flap. rewrite Hs.
    unfold Main1.reset, choice2, choice3, next_draw. cbn. repeat split.
  - intros g e Hs He. cbv zeta.
    assert (Mian.handle_input g e = Mian.on_flap g) as ->.
    { destruct He as [-> | [-> | ->]]; reflexivity. }
    unfold Mian.on_flap. rewrite Hs.
    unfold Mian.reset. cbn. repeat split.
Qed.

Lemma restart_keeps_high_score_witness :
  Main1.state (Main1.handle_input (Main1.game main1_played) (KEYDOWN K_UP))
  = WELCOME
  /\ Main1.high_score
       (Main1.handle_input (Main1.game main1_played) (KEYDOWN K_UP)) = 1
  /\ Mian.score (Mian.handle_input (Mian.game mian_played) (MOUSEBUTTONDOWN 1))
     = 0
  /\ Mian.high_score
       (Mian.handle_input (Mian.game mian_played) (MOUSEBUTTONDOWN 1)) = 1.
Proof.
  destruct restart_keeps_high_score as [H1 H2].
  destruct (H1 (Main1.game main1_played) (KEYDOWN K_UP) eq_refl
               (or_intror (or_introl eq_refl)))
    as [Hst [_ [_ [_ [_ [Hh _]]]]]].
  destruct (H2 (Mian.game mian_played) (MOUSEBUTTONDOWN 1) eq_refl
               (or_intror (or_intror eq_refl)))
    as [_ [Hs [_ [_ [Hh2 _]]]]].
  split; [exact Hst|]. split; [rewrite Hh; reflexivity|].
  split; [exact Hs|]. rewrite Hh2. reflexivity.
Defined.

(** X21.  No flap is lost during play.  Whenever the loop of [main1.py],
    started by [Game.__init__], handles a flap input in [PLAYING], the bird
    is alive, so the input takes effect: the game stays in [PLAYING], the
    velocity becomes [-flap_impulse] and the wing cue is played. *)
Theorem main1_flap_in_play_takes_effect :
  forall sin (ls : Main1.LoopState) (events : list Event) (e : Event),
    main1_reachable sin ls ->
    let g := Main1.game (Main1.poll_events events ls) in
    Main1.state g = PLAYING -> flap_input e ->
    Main1.state (Main1.handle_input g e) = PLAYING
    /\ Main1.velocity_y (Main1.bird (Main1.handle_input g e))
       = (- Main1.flap_impulse (Main1.config g))%Q
    /\ Main1.position_y (Main1.bird (Main1.handle_input g e))
       = Main1.position_y (Main1.bird g)
    /\ Main1.sound_log (Main1.world (Main1.handle_input g e))
       = Main1.sound_log (Main1.world g) ++ [wing].
Proof.
  intros sin ls events e Hreach g Hs He.
  assert (Main1.dead (Main1.bird g) = false) as Hd.
  { apply (main1_poll_events_alive events ls
             (main1_reachable_alive sin ls Hreach)).
    fold g. congruence. }
  assert (Main1.handle_input g e = Main1.on_flap g) as ->.
  { destruct He as [-> | [-> | ->]]; reflexivity. }
  unfold Main1.on_flap. rewrite Hs. cbn.
  unfold Main1.flap. rewrite Hd. cbn. auto.
Qed.

Lemma main1_flap_in_play_takes_effect_witness :
  Main1.velocity_y
    (Main1.bird
       (Main1.handle_input
          (Main1.game (Main1.poll_events [KEYDOWN K_SPACE] main1_first_loop))
          (MOUSEBUTTONDOWN 1)))
  = (- (280))%Q.
Proof.
  destruct (main1_flap_in_play_takes_effect Sample.no_sin main1_first_loop
              [KEYDOWN K_SPACE] (MOUSEBUTTONDOWN 1) (reach_init _ _ _) eq_refl
              (or_intror (or_intror eq_refl))) as [_ [Hv _]].
  rewrite Hv. reflexivity.
Defined.

(** ** Across sessions, and the welcome screen of [mian.py] *)

(** X22.  The best score carries over to the next session.  If the loop
    of [main1.py] has reached a state whose store is writable, a game that
    is then started anew by [Game.__init__] on that store, with whatever
    sprites, sounds and random draws, begins with the high score of that
    state, in [WELCOME] with score 0. *)
Theorem main1_high_score_survives_restart :
  forall sin (ls : Main1.LoopState) (sp : SpriteLibrary)
         (log : list Sound) (r : Random),
    main1_reachable sin ls ->
    writable (Main1.store (Main1.world (Main1.game ls))) = true ->
    let next :=
      Main1.Game_init sp
        (Main1.mkWorld log r (Main1.store (Main1.world (Main1.game ls)))) in
    Main1.high_score next = Main1.high_score (Main1.game ls)
    /\ Main1.score next = 0
    /\ Main1.state next = WELCOME.
Proof.
  intros sin ls sp log r Hreach Hw. cbv zeta.
  pose proof (main1_reachable_file_in_sync sin ls Hreach Hw) as Hsync.
  unfold Main1.Game_init, choice2, choice3, next_draw. cbn.
  split; [exact Hsync | split; reflexivity].
Qed.

Lemma main1_high_score_survives_restart_witness :
  Main1.high_score
    (Main1.Game_init Sample.sample_sprites
       (Main1.mkWorld [] Sample.sample_random
          (Main1.store (Main1.world (Main1.game main1_played))))) = 1.
Proof.
  destruct (main1_high_score_survives_restart Sample.no_sin main1_played
              Sample.sample_sprites [] Sample.sample_random) as [Hh _].
  - apply (reach_iteration _ main1_first_loop _ 2000 [KEYDOWN K_SPACE]).
    + apply reach_init.
    + vm_compute. reflexivity.
  - reflexivity.
  - rewrite Hh. reflexivity.
Defined.

(** X23.  The welcome screen of [mian.py] hovers.  With a sine between -1
    and 1, the bird of the welcome screen is placed within 6 of the middle
    of the screen on every iteration, with rotation 0 and its velocity
    untouched, so it cannot drift away before the round starts. *)
Theorem mian_welcome_bird_hovers :
  forall (sin : Q -> Q) (now_ms : Z) (dt : Q) (g : Mian.Game) (b : Mian.Bird),
    (forall q, (-1 <= sin q <= 1)%Q) ->
    Mian.welcome_bird sin now_ms dt g = Ok b ->
    (inject_Z (Mian.screen_height (Mian.config g) / 2) - 6
     <= Mian.position_y b
     <= inject_Z (Mian.screen_height (Mian.config g) / 2) + 6)%Q
    /\ Mian.rotation b = 0%Q
    /\ Mian.velocity_y b = Mian.velocity_y (Mian.bird g)
    /\ Mian.position_x b = Mian.position_x (Mian.bird g).
Proof.
  intros sin now_ms dt g b Hsin Hrun. unfold Mian.welcome_bird in Hrun.
  apply bind_Ok in Hrun. destruct Hrun as [b1 [H1 Hrun]].
  injection Hrun as <-. cbn [Mian.set_motion Mian.position_y Mian.rotation
                               Mian.velocity_y Mian.position_x].
  assert (Mian.velocity_y b1 = Mian.velocity_y (Mian.bird g)
          /\ Mian.position_x b1 = Mian.position_x (Mian.bird g)) as [Hv Hx].
  { unfold Mian.update_animation in H1. destruct (Qle_bool _ _).
    - apply bind_Ok in H1. destruct H1 as [i [_ H1]]. injection H1 as <-.
      cbn. auto.
    - injection H1 as <-. cbn. auto. }
  pose proof (Hsin (inject_Z now_ms / 250)%Q) as Hs.
  split; [lra | auto].
Qed.

Lemma mian_welcome_bird_hovers_witness :
  exists b,
    Mian.welcome_bird Sample.no_sin 0 (16 # 1000) Sample.mian_game = Ok b
    /\ (250 <= Mian.position_y b <= 262)%Q.
Proof.
  destruct (Mian.welcome_bird Sample.no_sin 0 (16 # 1000) Sample.mian_game)
    as [b|e] eqn:E; [|vm_compute in E; discriminate].
  exists b. split; [reflexivity|].
  destruct (mian_welcome_bird_hovers Sample.no_sin 0 (16 # 1000)
              Sample.mian_game b) as [Hy _].
  - intro q. unfold Sample.no_sin. lra.
  - exact E.
  - change (inject_Z (Mian.screen_height (Mian.config Sample.mian_game) / 2))
      with (inject_Z 256) in Hy.
    unfold inject_Z in Hy. lra.
Defined.
